(** * PayPal to Salesforce reconciliation (paypal_sf.py)

    A shallow embedding of the payment-event reconciliation code of
    [paypal_sf.py]: the canonical transaction and subscription records,
    the installment-period derivation of [PaypalSubscription.from_dict],
    the closest-installment matcher [find_closest_opportunity], and the
    handlers [process_as_single_opportunity], [process_refund],
    [process_subscription_payment] and
    [handle_paypal_charge_external_initiation].

    Conventions of the embedding:
    - a [datetime.date] is its day ordinal, a [Z]; the [.days] of a
      difference of two dates is the difference of the ordinals;
    - a money amount is a [Z] in minor currency units (PayPal sends
      decimal strings with a fixed number of fraction digits);
    - a Python exception is a value of [PyError]; a call that may raise
      returns a [result];
    - the CRM behind [org.sfc] is an explicit [Store] threaded through
      every handler; writes made before an exception is raised stay in
      the store, as they do in Salesforce. *)

From Stdlib Require Import ZArith List Ascii String Bool Lia Arith.
Import ListNotations.

Open Scope string_scope.
Open Scope Z_scope.

(** ** Exceptions and results *)

Inductive PyError : Type :=
| ValueError
| KeyError (key : string)
| AttributeError
| DateRangeToleranceExceeded (days_delta : Z)
| Exception (msg : string).

Inductive result (A : Type) : Type :=
| Ok (a : A)
| Raise (e : PyError).

Arguments Ok {A} a.
Arguments Raise {A} e.

Definition is_ok {A} (r : result A) : bool :=
  match r with Ok _ => true | Raise _ => false end.

(** ** models.py *)

Inductive PeriodType : Type := monthly | yearly | once.

(** [PeriodType] is a [str] enum: [.value] is the member's string. *)
Definition PeriodType_value (p : PeriodType) : string :=
  match p with
  | monthly => "monthly"
  | yearly => "yearly"
  | once => "once"
  end.

Record Address : Type := mkAddress {
  mailing_country : string;
  mailing_city : string;
  mailing_state : string;
  mailing_postal_code : string;
  mailing_street : string }.

Record Organization : Type := mkOrganization {
  slug : string;
  paypal_property : string }.

(** ** Canonical records of paypal_sf.py *)

Record Name : Type := mkName {
  first_name : string;
  last_name : string }.

Module PaypalTransaction.
Record t : Type := mk {
  id_ : string;
  event_code : string;
  reference_id_type : option string;
  reference_id : option string;
  account_id : option string;
  transaction_date : Z;
  gross_amount : Z;
  fee_amount : Z;
  status : string;
  subject : option string;
  email : option string;
  note : option string;
  name : option Name;
  address : option Address }.
End PaypalTransaction.

Module PaypalSubscription.
Record t : Type := mk {
  id_ : string;
  status : string;
  email : string;
  amount : Z;
  payer_id : string;
  current_payment_date : Z;
  create_time : string;
  installment_period : option PeriodType }.

Definition set_installment_period (s : t) (p : option PeriodType) : t :=
  mk (id_ s) (status s) (email s) (amount s) (payer_id s)
     (current_payment_date s) (create_time s) p.
End PaypalSubscription.

(** The JSON object returned by [PaypalConnection.get_subscription], with
    the keys [from_dict] reads.  [next_billing_time] is the one key the
    vendor leaves out (for subscriptions that will not bill again), so it
    is optional here; reading it when absent is a [KeyError]. *)
Record RawSubscription : Type := mkRawSubscription {
  raw_id : string;
  raw_status : string;
  raw_email_address : string;
  raw_last_payment_value : Z;
  raw_payer_id : string;
  raw_last_payment_time : Z;
  raw_create_time : string;
  raw_next_billing_time : option Z }.

(** [PaypalSubscription.from_dict]; [email] is lower-cased by the source,
    the payload here carries the lower-cased address. *)
Definition from_dict (data : RawSubscription) : result PaypalSubscription.t :=
  let current_payment_date := raw_last_payment_time data in
  let subscription :=
    PaypalSubscription.mk (raw_id data) (raw_status data)
      (raw_email_address data) (raw_last_payment_value data)
      (raw_payer_id data) current_payment_date (raw_create_time data) None in
  if String.eqb (raw_status data) "CANCELLED" then Ok subscription
  else if String.eqb (raw_status data) "SUSPENDED" then Ok subscription
  else
    match raw_next_billing_time data with
    | None => Raise (KeyError "next_billing_time")
    | Some next_payment_date =>
        let days := next_payment_date - current_payment_date in
        if (days >=? 27) && (days <=? 31) then
          Ok (PaypalSubscription.set_installment_period subscription (Some monthly))
        else if (days >? 360) && (days <=? 366) then
          Ok (PaypalSubscription.set_installment_period subscription (Some yearly))
        else Ok subscription
    end.

(** ** The CRM records (classes of the [npsp] package)

    Modelled from the spec: the [npsp] package ([Contact], [Opportunity],
    [RecurringDonation] and their [get], [upsert], [save] and
    [opportunities] methods) is not part of the sources.  The records
    below carry the attributes [paypal_sf.py] reads or writes; the
    storage operations follow the spec's data model (section 3) and its
    [Storage.get] / [Storage.upsert] contract (sections 4.2 and 6). *)

(** A CRM record id.  Ids are opaque keys handed out by the CRM; an
    object that was never saved has [id_ = None]. *)
Definition Id : Type := nat.

Definition is_none {A} (x : option A) : bool :=
  match x with None => true | Some _ => false end.

Definition option_string_eqb (a b : option string) : bool :=
  match a, b with
  | Some x, Some y => String.eqb x y
  | None, None => true
  | _, _ => false
  end.

(** Modelled from the spec: [npsp.Contact], with the attributes the
    PayPal code sets or reads; identity key is the email. *)
Module Contact.
Record t : Type := mk {
  id_ : option Id;
  account_id : option Id;
  email : string;
  lead_source : string;
  first_name : string;
  last_name : string;
  mailing_country : option string;
  mailing_city : option string;
  mailing_state : option string;
  mailing_postal_code : option string;
  mailing_street : option string }.
End Contact.

(** Modelled from the spec: [npsp.Opportunity], with the attributes the
    PayPal code sets or reads. *)
Module Opportunity.
Record t : Type := mk {
  id_ : option Id;
  account_id : option Id;
  amount : Z;
  donor_selected_amount : Z;
  net_amount : Z;
  stage_name : string;
  paypal_account_id : option string;
  lead_source : string;
  name : string;
  paypal_transaction_id : option string;
  close_date : Z;
  encouraged_by : option string;
  org_property : string;
  recurring_donation_id : option Id;
  installment_period : option string;
  type_ : option string }.

Definition set_id (o : t) (i : option Id) : t :=
  mk i (account_id o) (amount o) (donor_selected_amount o) (net_amount o)
     (stage_name o) (paypal_account_id o) (lead_source o) (name o)
     (paypal_transaction_id o) (close_date o) (encouraged_by o)
     (org_property o) (recurring_donation_id o) (installment_period o)
     (type_ o).

Definition set_stage_name (o : t) (s : string) : t :=
  mk (id_ o) (account_id o) (amount o) (donor_selected_amount o)
     (net_amount o) s (paypal_account_id o) (lead_source o) (name o)
     (paypal_transaction_id o) (close_date o) (encouraged_by o)
     (org_property o) (recurring_donation_id o) (installment_period o)
     (type_ o).

(** The three assignments of the new-installment branch:
    [recurring_donation_id], [installment_period] and [type_]. *)
Definition set_series (o : t) (rd : option Id) (period type : string) : t :=
  mk (id_ o) (account_id o) (amount o) (donor_selected_amount o)
     (net_amount o) (stage_name o) (paypal_account_id o) (lead_source o)
     (name o) (paypal_transaction_id o) (close_date o) (encouraged_by o)
     (org_property o) rd (Some period) (Some type).
End Opportunity.

(** Modelled from the spec: [npsp.RecurringDonation], with the
    attributes the PayPal code sets or reads. *)
Module RecurringDonation.
Record t : Type := mk {
  id_ : option Id;
  amount : Z;
  contact_id : option Id;
  date_established : Z;
  installment_period : string;
  installments : option Z;
  lead_source : string;
  (** the two values the source formats into the display name,
      [f"{transaction_date} for {subscription.email} (PayPal)"] *)
  name : Z * string;
  open_ended_status : string;
  paypal_account_id : string;
  paypal_subscription_id : string;
  org_property : string }.

Definition set_id (r : t) (i : option Id) : t :=
  mk i (amount r) (contact_id r) (date_established r)
     (installment_period r) (installments r) (lead_source r) (name r)
     (open_ended_status r) (paypal_account_id r)
     (paypal_subscription_id r) (org_property r).

Definition set_open_ended_status (r : t) (s : string) : t :=
  mk (id_ r) (amount r) (contact_id r) (date_established r)
     (installment_period r) (installments r) (lead_source r) (name r)
     s (paypal_account_id r) (paypal_subscription_id r) (org_property r).
End RecurringDonation.

(** ** The store and the monad of the handlers *)

Record Store : Type := mkStore {
  contacts : list Contact.t;
  opportunities : list Opportunity.t;
  recurring_donations : list RecurringDonation.t;
  next_id : Id }.

Arguments mkStore (contacts opportunities recurring_donations)%_list next_id%_nat.

Definition empty_store : Store := mkStore [] [] [] 0.

(** A handler reads and writes the store and returns or raises; the
    store it leaves behind is kept in both cases. *)
Definition M (A : Type) : Type := Store -> Store * result A.

Definition ret {A} (a : A) : M A := fun st => (st, Ok a).

Definition raise {A} (e : PyError) : M A := fun st => (st, Raise e).

Definition bind {A B} (c : M A) (k : A -> M B) : M B :=
  fun st =>
    match c st with
    | (st', Ok a) => k a st'
    | (st', Raise e) => (st', Raise e)
    end.

Definition lift {A} (r : result A) : M A := fun st => (st, r).

(** [try: body except DateRangeToleranceExceeded as error: handler] *)
Definition try_except_DateRangeToleranceExceeded {A}
    (body : M A) (handler : Z -> M A) : M A :=
  fun st =>
    match body st with
    | (st', Raise (DateRangeToleranceExceeded d)) => handler d st'
    | r => r
    end.

Declare Scope monad_scope.
Delimit Scope monad_scope with monad.
Notation "x <- c ;; k" := (bind c (fun x => k))
  (at level 100, c at next level, right associativity) : monad_scope.
Notation "c ;;; k" := (bind c (fun _ => k))
  (at level 100, right associativity) : monad_scope.
Open Scope monad_scope.

(** ** Storage operations

    Modelled from the spec: the methods of the [npsp] classes, which are
    not in the sources.  [get] returns the record with the given natural
    key or [None]; [upsert] called without [overwrite] fields returns the
    record found under the natural key unchanged, and creates the record
    when there is none; [save] creates an object that has no id and
    writes an object that has one over the stored record with that id; it
    returns the object with its id, as the Python object has it after the
    call.
    New records are appended, so a query returns records in creation
    order. *)

Fixpoint replace_where {A} (p : A -> bool) (x : A) (l : list A) : list A :=
  match l with
  | [] => []
  | y :: l' => (if p y then x else y) :: replace_where p x l'
  end.

Definition id_is (i : Id) (x : option Id) : bool :=
  match x with Some j => Nat.eqb j i | None => false end.

(** Modelled from the spec: [Contact.upsert()], keyed by email.  A new
    Contact gets an id and the id of the account the CRM makes for it. *)
Definition Contact_upsert (c : Contact.t) : M Contact.t :=
  fun st =>
    match find (fun c' => String.eqb (Contact.email c') (Contact.email c))
               (contacts st) with
    | Some c' => (st, Ok c')
    | None =>
        let n := next_id st in
        let c' :=
          Contact.mk (Some n) (Some (S n)) (Contact.email c)
            (Contact.lead_source c) (Contact.first_name c)
            (Contact.last_name c) (Contact.mailing_country c)
            (Contact.mailing_city c) (Contact.mailing_state c)
            (Contact.mailing_postal_code c) (Contact.mailing_street c) in
        (mkStore (contacts st ++ [c']) (opportunities st)
                 (recurring_donations st) (S (S n)), Ok c')
    end.

(** Modelled from the spec: [Opportunity.get(sfc, paypal_transaction_id)]. *)
Definition Opportunity_get (paypal_transaction_id : option string)
  : M (option Opportunity.t) :=
  fun st =>
    (st, Ok (find (fun o => option_string_eqb
                              (Opportunity.paypal_transaction_id o)
                              paypal_transaction_id)
                  (opportunities st))).

(** Modelled from the spec: [opportunity.save()]. *)
Definition Opportunity_save (o : Opportunity.t) : M Opportunity.t :=
  fun st =>
    match Opportunity.id_ o with
    | Some i =>
        (mkStore (contacts st)
                 (replace_where (fun o' => id_is i (Opportunity.id_ o')) o
                                (opportunities st))
                 (recurring_donations st) (next_id st), Ok o)
    | None =>
        let o' := Opportunity.set_id o (Some (next_id st)) in
        (mkStore (contacts st) (opportunities st ++ [o'])
                 (recurring_donations st) (S (next_id st)), Ok o')
    end.

(** Modelled from the spec: [opportunity.upsert()], keyed by the PayPal
    transaction id. *)
Definition Opportunity_upsert (o : Opportunity.t) : M Opportunity.t :=
  found <- Opportunity_get (Opportunity.paypal_transaction_id o) ;;
  match found with
  | Some o' => ret o'
  | None => Opportunity_save o
  end.

(** Modelled from the spec: [RecurringDonation.get(sfc, key=value)]; [p]
    is the test on the key, one of the three below. *)
Definition RecurringDonation_get (p : RecurringDonation.t -> bool)
  : M (option RecurringDonation.t) :=
  fun st => (st, Ok (find p (recurring_donations st))).

Definition by_id (i : Id) (r : RecurringDonation.t) : bool :=
  id_is i (RecurringDonation.id_ r).

Definition by_paypal_subscription_id (k : option string)
    (r : RecurringDonation.t) : bool :=
  option_string_eqb (Some (RecurringDonation.paypal_subscription_id r)) k.

Definition by_paypal_account_id (k : option string)
    (r : RecurringDonation.t) : bool :=
  option_string_eqb (Some (RecurringDonation.paypal_account_id r)) k.

(** Modelled from the spec: [recurring_donation.save()], on a CRM that
    creates no Opportunity of its own when a RecurringDonation is
    created.  The spec does not say which installments a new
    RecurringDonation has; [RecurringDonation_save_scheduling] below is
    the same operation on a CRM that creates some, and what depends on
    the difference (the first payment of a subscription) is stated
    there. *)
Definition RecurringDonation_save (r : RecurringDonation.t)
  : M RecurringDonation.t :=
  fun st =>
    match RecurringDonation.id_ r with
    | Some i =>
        (mkStore (contacts st) (opportunities st)
                 (replace_where (by_id i) r (recurring_donations st))
                 (next_id st), Ok r)
    | None =>
        let r' := RecurringDonation.set_id r (Some (next_id st)) in
        (mkStore (contacts st) (opportunities st)
                 (recurring_donations st ++ [r']) (S (next_id st)), Ok r')
    end.

(** The Opportunity is an installment of the recurring donation [r]. *)
Definition linked_to (r : option Id) (o : Opportunity.t) : bool :=
  match r with
  | Some i => id_is i (Opportunity.recurring_donation_id o)
  | None => false
  end.

(** Modelled from the spec: [recurring_donation.opportunities()], the
    installments linked to the recurring donation, in creation order. *)
Definition RecurringDonation_opportunities (r : RecurringDonation.t)
  : M (list Opportunity.t) :=
  fun st =>
    (st, Ok (filter (linked_to (RecurringDonation.id_ r)) (opportunities st))).

(** The vendor client: [ppc.get_subscription(subscription_id=...)]. *)
Definition PaypalConnection : Type := option string -> RawSubscription.

(** ** paypal_sf.py: building CRM objects from a transaction *)

(** Python truthiness of an optional string: [None] and [""] are false. *)
Definition truthy (s : option string) : bool :=
  match s with
  | None => false
  | Some x => negb (String.eqb x "")
  end.

(** What an f-string prints for an optional string. *)
Definition fmt (s : option string) : string :=
  match s with Some x => x | None => "None" end.

Definition contact_from_paypal_transaction
    (transaction : PaypalTransaction.t) (email : string)
    (org : Organization) : result Contact.t :=
  match PaypalTransaction.name transaction with
  | None => Raise AttributeError
  | Some name =>
      let contact :=
        Contact.mk None None email "PayPal" (first_name name)
                   (last_name name) None None None None None in
      match PaypalTransaction.address transaction with
      | Some a =>
          Ok (Contact.mk None None email "PayPal" (first_name name)
                (last_name name) (Some (mailing_country a))
                (Some (mailing_city a)) (Some (mailing_state a))
                (Some (mailing_postal_code a)) (Some (mailing_street a)))
      | None => Ok contact
      end
  end.

Definition opportunity_from_paypal_transaction
    (transaction : PaypalTransaction.t) (contact : Contact.t)
    (org : Organization) : Opportunity.t :=
  let name :=
    if truthy (PaypalTransaction.subject transaction)
    then "PayPal: " ++ fmt (PaypalTransaction.subject transaction) ++ " ("
         ++ fmt (PaypalTransaction.email transaction) ++ ")"
    else "PayPal: " ++ fmt (PaypalTransaction.email transaction) in
  Opportunity.mk None (Contact.account_id contact)
    (PaypalTransaction.gross_amount transaction)
    (PaypalTransaction.gross_amount transaction)
    (PaypalTransaction.gross_amount transaction
     - PaypalTransaction.fee_amount transaction)
    "Closed Won"
    (PaypalTransaction.account_id transaction)
    "PayPal" name
    (Some (PaypalTransaction.id_ transaction))
    (PaypalTransaction.transaction_date transaction)
    (PaypalTransaction.note transaction)
    (paypal_property org)
    None None None.

Definition recurring_donation_from_paypal_subscription
    (subscription : PaypalSubscription.t) (transaction_date : Z)
    (contact : Contact.t) (org : Organization)
  : result RecurringDonation.t :=
  if negb (String.eqb (PaypalSubscription.status subscription) "ACTIVE") then
    Raise (Exception ("Subscription " ++ PaypalSubscription.id_ subscription
                      ++ " is not ACTIVE"))
  else
    match PaypalSubscription.installment_period subscription with
    | None => Raise AttributeError
    | Some period =>
        Ok (RecurringDonation.mk None
              (PaypalSubscription.amount subscription)
              (Contact.id_ contact)
              transaction_date
              (PeriodType_value period)
              None
              "PayPal"
              (transaction_date, PaypalSubscription.email subscription)
              "Open"
              (PaypalSubscription.payer_id subscription)
              (PaypalSubscription.id_ subscription)
              (paypal_property org))
    end.

(** The eight assignments of [update_opportunity], before its [save]. *)
Definition updated_opportunity (opportunity : Opportunity.t)
    (transaction : PaypalTransaction.t) : Opportunity.t :=
  Opportunity.mk (Opportunity.id_ opportunity)
    (Opportunity.account_id opportunity)
    (PaypalTransaction.gross_amount transaction)
    (PaypalTransaction.gross_amount transaction)
    (PaypalTransaction.gross_amount transaction
     - PaypalTransaction.fee_amount transaction)
    "Closed Won"
    (PaypalTransaction.account_id transaction)
    (Opportunity.lead_source opportunity)
    (Opportunity.name opportunity)
    (Some (PaypalTransaction.id_ transaction))
    (PaypalTransaction.transaction_date transaction)
    (PaypalTransaction.note transaction)
    (Opportunity.org_property opportunity)
    (Opportunity.recurring_donation_id opportunity)
    (Opportunity.installment_period opportunity)
    (Opportunity.type_ opportunity).

Definition update_opportunity (opportunity : Opportunity.t)
    (transaction : PaypalTransaction.t) : M unit :=
  Opportunity_save (updated_opportunity opportunity transaction) ;;;
  ret tt.

(** ** The matcher *)

(** [abs((opp.close_date - transaction.transaction_date).days)] *)
Definition days_delta (transaction : PaypalTransaction.t)
    (opp : Opportunity.t) : Z :=
  Z.abs (Opportunity.close_date opp
         - PaypalTransaction.transaction_date transaction).

(** Python's [min(iterable, key=...)]: the running minimum is replaced
    only by an element whose key is strictly smaller, so of several
    minimal elements the first one met is returned; an empty iterable
    raises [ValueError]. *)
Fixpoint min_from {A} (key : A -> Z) (best : A) (l : list A) : A :=
  match l with
  | [] => best
  | x :: l' => min_from key (if key x <? key best then x else best) l'
  end.

Definition py_min {A} (key : A -> Z) (l : list A) : result A :=
  match l with
  | [] => Raise ValueError
  | x :: l' => Ok (min_from key x l')
  end.

Definition find_closest_opportunity (opportunities : list Opportunity.t)
    (transaction : PaypalTransaction.t) (org : Organization)
  : result Opportunity.t :=
  let opps := map (fun opp => (opp, days_delta transaction opp)) opportunities in
  match py_min snd opps with
  | Raise e => Raise e
  | Ok (opportunity, days_delta) =>
      if days_delta >? 10 then Raise (DateRangeToleranceExceeded days_delta)
      else Ok opportunity
  end.

(** ** The handlers *)

Definition find_email (transaction : PaypalTransaction.t)
    (subscription : option PaypalSubscription.t) : result string :=
  if truthy (PaypalTransaction.email transaction) then
    Ok (fmt (PaypalTransaction.email transaction))
  else
    match subscription with
    | Some s => Ok (PaypalSubscription.email s)
    | None => Raise AttributeError
    end.

Definition process_as_single_opportunity (transaction : PaypalTransaction.t)
    (org : Organization) (subscription : option PaypalSubscription.t)
  : M unit :=
  email <- lift (find_email transaction subscription) ;;
  c <- lift (contact_from_paypal_transaction transaction email org) ;;
  contact <- Contact_upsert c ;;
  Opportunity_upsert
    (opportunity_from_paypal_transaction transaction contact org) ;;;
  ret tt.

(** [subscription == "CANCELLED"] in [process_refund] compares the
    [PaypalSubscription] dataclass instance with a [str].  The generated
    [__eq__] returns [NotImplemented] for an operand of another class,
    and so does [str.__eq__]; Python then compares identities, and the
    result is [False] whatever the subscription holds. *)
Definition PaypalSubscription_eq_str (subscription : PaypalSubscription.t)
    (s : string) : bool := false.

(** The second half of [process_refund], after the Opportunity was saved
    as 'Refunded': closing the RecurringDonation of the refunded
    installment. *)
Definition close_refunded_series (opportunity : Opportunity.t)
    (org : Organization) (ppc : PaypalConnection) : M unit :=
  match Opportunity.recurring_donation_id opportunity with
  | None => ret tt
  | Some rd_id =>
      found_rd <- RecurringDonation_get (by_id rd_id) ;;
      match found_rd with
      | None => raise AttributeError
      | Some recurring_donation =>
          if String.eqb
               (RecurringDonation.open_ended_status recurring_donation)
               "Closed"
          then ret tt
          else
            let raw_subscription :=
              ppc (Some (RecurringDonation.paypal_subscription_id
                           recurring_donation)) in
            subscription <- lift (from_dict raw_subscription) ;;
            if PaypalSubscription_eq_str subscription "CANCELLED" then
              RecurringDonation_save
                (RecurringDonation.set_open_ended_status
                   recurring_donation "Closed") ;;;
              ret tt
            else ret tt
      end
  end.

Definition process_refund (transaction : PaypalTransaction.t)
    (org : Organization) (ppc : PaypalConnection) : M unit :=
  found <- Opportunity_get (PaypalTransaction.reference_id transaction) ;;
  match found with
  | None => raise AttributeError
  | Some opportunity =>
      let opportunity := Opportunity.set_stage_name opportunity "Refunded" in
      Opportunity_save opportunity ;;;
      close_refunded_series opportunity org ppc
  end.

(** The [except DateRangeToleranceExceeded] branch of
    [process_subscription_payment]: a new installment linked to the
    recurring donation. *)
Definition create_linked_opportunity (transaction : PaypalTransaction.t)
    (subscription : PaypalSubscription.t) (org : Organization)
    (recurring_donation : RecurringDonation.t) : M unit :=
  email <- lift (find_email transaction (Some subscription)) ;;
  c <- lift (contact_from_paypal_transaction transaction email org) ;;
  contact <- Contact_upsert c ;;
  let opportunity :=
    opportunity_from_paypal_transaction transaction contact org in
  match PaypalSubscription.installment_period subscription with
  | None => raise AttributeError
  | Some period =>
      let opportunity :=
        Opportunity.set_series opportunity
          (RecurringDonation.id_ recurring_donation)
          (PeriodType_value period) "Recurring Donation" in
      update_opportunity opportunity transaction
  end.

(** [find_closest_opportunity] on the installments of a recurring
    donation followed by [update_opportunity], as both callers do. *)
Definition update_closest_opportunity (transaction : PaypalTransaction.t)
    (org : Organization) (recurring_donation : RecurringDonation.t)
  : M unit :=
  opportunities <- RecurringDonation_opportunities recurring_donation ;;
  opportunity <- lift (find_closest_opportunity opportunities transaction org) ;;
  update_opportunity opportunity transaction.

(** The [try] / [except DateRangeToleranceExceeded] statement that ends
    [process_subscription_payment]. *)
Definition update_or_create_installment (transaction : PaypalTransaction.t)
    (subscription : PaypalSubscription.t) (org : Organization)
    (recurring_donation : RecurringDonation.t) : M unit :=
  try_except_DateRangeToleranceExceeded
    (update_closest_opportunity transaction org recurring_donation)
    (fun _ =>
       create_linked_opportunity transaction subscription org
                                 recurring_donation).

(** The [if not recurring_donation:] block that creates the Contact and
    the RecurringDonation of a subscription seen for the first time. *)
Definition create_recurring_donation (transaction : PaypalTransaction.t)
    (subscription : PaypalSubscription.t) (org : Organization)
  : M RecurringDonation.t :=
  email <- lift (find_email transaction (Some subscription)) ;;
  c <- lift (contact_from_paypal_transaction transaction email org) ;;
  contact <- Contact_upsert c ;;
  rd <- lift (recurring_donation_from_paypal_subscription
                subscription
                (PaypalTransaction.transaction_date transaction)
                contact org) ;;
  RecurringDonation_save rd.

Definition process_subscription_payment (transaction : PaypalTransaction.t)
    (subscription : PaypalSubscription.t) (org : Organization) : M unit :=
  recurring_donation <-
    RecurringDonation_get
      (by_paypal_subscription_id (PaypalTransaction.reference_id transaction)) ;;
  if is_none recurring_donation
     && String.eqb (PaypalSubscription.status subscription) "CANCELLED"
  then process_as_single_opportunity transaction org (Some subscription)
  else if is_none recurring_donation
     && String.eqb (PaypalSubscription.status subscription) "SUSPENDED"
  then process_as_single_opportunity transaction org (Some subscription)
  else if is_none recurring_donation
     && is_none (PaypalSubscription.installment_period subscription)
  then process_as_single_opportunity transaction org (Some subscription)
  else
    recurring_donation <-
      match recurring_donation with
      | Some rd => ret rd
      | None => create_recurring_donation transaction subscription org
      end ;;
    recurring_donation <-
      (if String.eqb (PaypalSubscription.status subscription) "CANCELLED"
       then RecurringDonation_save
              (RecurringDonation.set_open_ended_status
                 recurring_donation "Closed")
       else ret recurring_donation) ;;
    update_or_create_installment transaction subscription org
                                 recurring_donation.

Definition skipped_event_codes : list string :=
  ["T0400"; "T0401"; "T0003"; "T0007"; "T0300"; "T0101"; "T0200";
   "T1501"; "T1105"; "T1106"].

Definition single_opportunity_event_codes : list string :=
  ["T0013"; "T0000"; "T0011"; "T0001"].

Definition code_in (code : string) (codes : list string) : bool :=
  existsb (String.eqb code) codes.

(** The part of the handler that follows the three T0002 guards: the
    subscription payment proper. *)
Definition handle_subscription_payment (org : Organization)
    (transaction : PaypalTransaction.t) (ppc : PaypalConnection) : M unit :=
  (if String.eqb (PaypalTransaction.event_code transaction) "T0002"
      && option_string_eqb (PaypalTransaction.reference_id_type transaction)
                           (Some "SUB")
   then
     let raw_subscription := ppc (PaypalTransaction.reference_id transaction) in
     subscription <- lift (from_dict raw_subscription) ;;
     if negb (code_in (PaypalSubscription.status subscription)
                      ["ACTIVE"; "CANCELLED"; "SUSPENDED"])
     then raise (Exception "unknown subscription status")
     else process_subscription_payment transaction subscription org
   else ret tt) ;;;
  if negb (option_string_eqb (PaypalTransaction.reference_id_type transaction)
                             (Some "SUB"))
  then
    recurring_donation <-
      RecurringDonation_get
        (by_paypal_account_id (PaypalTransaction.account_id transaction)) ;;
    match recurring_donation with
    | Some rd => update_closest_opportunity transaction org rd
    | None => process_as_single_opportunity transaction org None
    end
  else ret tt.

(** The entry point after its first statement: the dispatch on the
    canonical transaction.  The source first parses the raw payload
    with [PaypalTransaction.from_dict], a function of the payload alone,
    which can raise; [transaction] is the transaction it returned.  The
    whole function, from the raw payload, is [handle_raw_transaction]
    below. *)
Definition handle_paypal_charge_external_initiation (org : Organization)
    (transaction : PaypalTransaction.t) (ppc : PaypalConnection) : M unit :=
  let event_code := PaypalTransaction.event_code transaction in
  let gross_amount := PaypalTransaction.gross_amount transaction in
  if code_in event_code skipped_event_codes then ret tt
  else if String.eqb event_code "T0000" && (gross_amount <? 0) then ret tt
  else if String.eqb event_code "T1107" && (gross_amount >? 0) then ret tt
  else if String.eqb event_code "T1107" then process_refund transaction org ppc
  else if code_in event_code single_opportunity_event_codes then
    process_as_single_opportunity transaction org None
  else if negb (String.eqb event_code "T0002") then
    raise (Exception ("Unknown event code: " ++ event_code))
  else if gross_amount <? 0 then ret tt
  else if negb (String.eqb (PaypalTransaction.status transaction) "S") then
    raise (Exception "Transaction status isn't 'S'")
  else handle_subscription_payment org transaction ppc.

(** ** Sample data used by the examples *)

Definition org0 : Organization := mkOrganization "org" "Property1".

Definition donor : Name := mkName "Ada" "Lovelace".

(** A settled payment with the given id, event code, reference and day. *)
Definition payment (id code : string) (ref_type ref account : option string)
    (day gross : Z) : PaypalTransaction.t :=
  PaypalTransaction.mk id code ref_type ref account day gross 30 "S"
    None (Some "ada@example.org") None (Some donor) None.

(** A vendor that reports every subscription with the given status and
    billing dates. *)
Definition vendor (status : string) (last : Z) (next : option Z)
  : PaypalConnection :=
  fun _ => mkRawSubscription "I-SUB1" status "ada@example.org" 1000 "PAYER1"
             last "2020-01-01T00:00:00Z" next.

(** An installment of recurring donation [rd], saved under id [i]. *)
Definition installment (i rd : Id) (tid : string) (day : Z) : Opportunity.t :=
  Opportunity.mk (Some i) None 1000 1000 970 "Closed Won" (Some "PAYER1")
    "PayPal" "PayPal: ada@example.org" (Some tid) day None "Property1"
    (Some rd) (Some "monthly") (Some "Recurring Donation").
Arguments installment (i rd)%_nat tid%_string day%_Z.

Definition series (i : Id) (status : string) : RecurringDonation.t :=
  RecurringDonation.mk (Some i) 1000 None 0 "monthly" None "PayPal"
    (0, "ada@example.org") status "PAYER1" "I-SUB1" "Property1".
Arguments series i%_nat status%_string.

(** ** Well-formed stores

    The stores the handlers produce from [empty_store]: every saved
    record has an id below the id counter, no two Opportunities share an
    id, and an Opportunity links only to an id already handed out. *)

Definition saved_below (n : Id) (i : option Id) : Prop :=
  exists j, i = Some j /\ (j < n)%nat.

Definition link_below (n : Id) (o : Opportunity.t) : Prop :=
  forall r, Opportunity.recurring_donation_id o = Some r -> (r < n)%nat.

Record wf_store (st : Store) : Prop := mk_wf_store {
  wf_opportunity_ids :
    Forall (fun o => saved_below (next_id st) (Opportunity.id_ o))
           (opportunities st);
  wf_opportunity_nodup : NoDup (map Opportunity.id_ (opportunities st));
  wf_opportunity_links : Forall (link_below (next_id st)) (opportunities st);
  wf_recurring_donation_ids :
    Forall (fun r => saved_below (next_id st) (RecurringDonation.id_ r))
           (recurring_donations st) }.

(** A handler keeps the store well-formed and the id counter monotone. *)
Definition keeps_wf {A} (c : M A) : Prop :=
  forall st, wf_store st ->
    wf_store (fst (c st)) /\ (next_id st <= next_id (fst (c st)))%nat.

(** The Opportunities that carry a given PayPal transaction id. *)
Definition carries (tid : string) (o : Opportunity.t) : bool :=
  option_string_eqb (Opportunity.paypal_transaction_id o) (Some tid).

Definition count_carrying (tid : string) (st : Store) : nat :=
  List.length (filter (carries tid) (opportunities st)).

(** ** Relations between the store before and after a handler *)

(** A handler preserves [R] when the store it leaves is [R]-related to
    the store it started from, whether it returns or raises. *)
Definition preserves (R : Store -> Store -> Prop) {A} (c : M A) : Prop :=
  forall st, R st (fst (c st)).

(** [a] is a value [c] can return. *)
Definition returns {A} (c : M A) (a : A) : Prop :=
  exists st, snd (c st) = Ok a.

(** A stored RecurringDonation is either left as it is or overwritten by
    one whose [open_ended_status] is 'Closed'. *)
Definition keeps_or_closes (a b : RecurringDonation.t) : Prop :=
  b = a \/ RecurringDonation.open_ended_status b = "Closed".

(** The stored RecurringDonations evolve position by position through
    [keeps_or_closes]; new ones are appended. *)
Definition recurring_donations_step (l l' : list RecurringDonation.t) : Prop :=
  exists l1 l2, l' = (l1 ++ l2)%list /\ Forall2 keeps_or_closes l l1.

Definition closing_step (st st' : Store) : Prop :=
  recurring_donations_step (recurring_donations st) (recurring_donations st').

(** ** Invoking a handler twice *)

(** How one invocation for the transaction [tid] changes the list of
    Opportunities: it leaves the list alone (having raised, or having
    found an Opportunity that carries [tid]), or appends an Opportunity
    that carries [tid], or overwrites one Opportunity in place with one
    that carries [tid]. *)
Definition opportunities_change (tid : string)
    (l l1 : list Opportunity.t) (r : result unit) : Prop :=
  (l1 = l
   /\ ((exists e, r = Raise e) \/ exists o, In o l /\ carries tid o = true))
  \/ (exists o, l1 = (l ++ [o])%list /\ carries tid o = true)
  \/ (exists a y y' b,
         l = (a ++ y :: b)%list /\ l1 = (a ++ y' :: b)%list
         /\ carries tid y' = true).

(** Running [c] on any store whose Opportunities are [l] leaves them as
    they are. *)
Definition opportunities_stable (c : M unit) (l : list Opportunity.t) : Prop :=
  forall st, opportunities st = l -> opportunities (fst (c st)) = l.

(** The installments [l] of the recurring donation [rid] already hold the
    transaction: the closest installment is one that
    [update_opportunity] writes back unchanged. *)
Definition settled (transaction : PaypalTransaction.t) (org : Organization)
    (rid : option Id) (l : list Opportunity.t) : Prop :=
  exists y i,
    find_closest_opportunity (filter (linked_to rid) l) transaction org = Ok y
    /\ updated_opportunity y transaction = y
    /\ Opportunity.id_ y = Some i
    /\ replace_where (fun o => id_is i (Opportunity.id_ o)) y l = l.

(** The branch conditions of [process_subscription_payment] that send a
    payment to the standalone path when no RecurringDonation was found:
    a CANCELLED or SUSPENDED subscription, or no installment period. *)
Definition standalone_fallback (sub : PaypalSubscription.t) : bool :=
  String.eqb (PaypalSubscription.status sub) "CANCELLED"
  || String.eqb (PaypalSubscription.status sub) "SUSPENDED"
  || is_none (PaypalSubscription.installment_period sub).


(** ** The exceptions a handler can raise *)

(** Every exception [c] raises, from any store, satisfies [P]. *)
Definition raises_only {A} (P : PyError -> Prop) (c : M A) : Prop :=
  forall st e, snd (c st) = Raise e -> P e.

(** The event codes the entry point has a branch for. *)
Definition known_event_codes : list string :=
  (skipped_event_codes ++ ["T1107"] ++ single_opportunity_event_codes
   ++ ["T0002"])%list.

(** The exceptions that leave the entry point for a given transaction. *)
Definition entry_point_error (transaction : PaypalTransaction.t)
    (e : PyError) : Prop :=
  e = AttributeError
  \/ e = ValueError
  \/ e = KeyError "next_billing_time"
  \/ (exists d, e = DateRangeToleranceExceeded d /\ 10 < d)
  \/ e = Exception ("Unknown event code: "
                    ++ PaypalTransaction.event_code transaction)
  \/ e = Exception "Transaction status isn't 'S'"
  \/ e = Exception "unknown subscription status".


(** A decision procedure for [wf_store], to check a given store. *)
Definition option_id_eqb (a b : option Id) : bool :=
  match a, b with
  | Some i, Some j => Nat.eqb i j
  | None, None => true
  | _, _ => false
  end.

Fixpoint distinct_ids (l : list (option Id)) : bool :=
  match l with
  | [] => true
  | x :: l' => negb (existsb (option_id_eqb x) l') && distinct_ids l'
  end.

Definition id_below (n : Id) (x : option Id) : bool :=
  match x with Some j => Nat.ltb j n | None => false end.

Definition wf_store_check (st : Store) : bool :=
  forallb (fun o => id_below (next_id st) (Opportunity.id_ o))
          (opportunities st)
  && distinct_ids (map Opportunity.id_ (opportunities st))
  && forallb (fun o => match Opportunity.recurring_donation_id o with
                       | Some r => Nat.ltb r (next_id st)
                       | None => true
                       end)
             (opportunities st)
  && forallb (fun r => id_below (next_id st) (RecurringDonation.id_ r))
             (recurring_donations st).


(** ** Raw PayPal transaction payloads

    The JSON object of one transaction as [PaypalTransaction.from_dict]
    reads it.  A key the source tests with [in], or reads inside a [try],
    is optional here; the keys it reads unconditionally from
    [transaction_info] are fields.  The initiation date is the parsed
    date and the amounts are in minor units, as for the canonical
    records. *)

Record RawAddress : Type := mkRawAddress {
  raw_city : option string;
  raw_state : option string;
  raw_postal_code : option string;
  raw_country_code : option string;
  raw_line1 : option string;
  raw_line2 : option string }.

Record RawShippingInfo : Type := mkRawShippingInfo {
  raw_shipping_name : option string;
  raw_shipping_address : option RawAddress }.

Record RawPayerName : Type := mkRawPayerName {
  raw_surname : option string;
  raw_given_name : option string;
  raw_alternate_full_name : option string }.

Record RawTransactionInfo : Type := mkRawTransactionInfo {
  raw_transaction_id : string;
  raw_transaction_event_code : string;
  raw_transaction_status : string;
  raw_transaction_initiation_date : Z;
  raw_transaction_amount_value : Z;
  raw_fee_amount_value : option Z;
  raw_transaction_subject : option string;
  raw_transaction_note : option string;
  raw_paypal_reference_id : option string;
  raw_paypal_reference_id_type : option string;
  raw_paypal_account_id : option string }.

Record RawTransaction : Type := mkRawTransaction {
  raw_transaction_info : RawTransactionInfo;
  raw_payer_email_address : option string;
  raw_payer_name : option RawPayerName;
  raw_shipping_info : option RawShippingInfo }.

(** [s.split(c)] for a one-character separator: the pieces between the
    occurrences of [c], one more than there are occurrences.  A Rocq
    string holds the UTF-8 bytes of the Python string; splitting on an
    ASCII separator gives the same pieces on bytes as on characters. *)
Fixpoint split_on (c : Ascii.ascii) (s : string) : list string :=
  match s with
  | EmptyString => [EmptyString]
  | String a s' =>
      if Ascii.eqb a c then EmptyString :: split_on c s'
      else match split_on c s' with
           | [] => [String a EmptyString]
           | x :: l => String a x :: l
           end
  end.

(** [s.rsplit(c, maxsplit=1)]: [None] stands for the one-element list
    [[s]] (no occurrence of [c]), [Some (x, y)] for [[x, y]], split at
    the last occurrence. *)
Fixpoint rsplit1 (c : Ascii.ascii) (s : string) : option (string * string) :=
  match s with
  | EmptyString => None
  | String a s' =>
      match rsplit1 c s' with
      | Some (x, y) => Some (String a x, y)
      | None => if Ascii.eqb a c then Some (EmptyString, s') else None
      end
  end.

(** [c in s] for a character [c]. *)
Fixpoint contains_char (c : Ascii.ascii) (s : string) : bool :=
  match s with
  | EmptyString => false
  | String a s' => Ascii.eqb a c || contains_char c s'
  end.

Section RawTransactions.

(** [str.strip] and [str.lower] are taken as they are: the properties
    below hold for every function in their place. *)
Variable strip : string -> string.
Variable lower : string -> string.

(** [first_name, last_name = name.strip().rsplit(" ", maxsplit=1)] *)
Definition split_full_name (name : string) : result Name :=
  match rsplit1 " "%char (strip name) with
  | Some (first, last) => Ok (mkName first last)
  | None => Raise ValueError
  end.

Definition name_from_paypal_transaction (raw_transaction : RawTransaction)
  : result (option Name) :=
  match raw_payer_name raw_transaction with
  | None => Raise (KeyError "payer_name")
  | Some payer_name =>
      match raw_surname payer_name with
      | Some surname =>
          match raw_given_name payer_name with
          | Some given => Ok (Some (mkName given surname))
          | None => Raise (KeyError "given_name")
          end
      | None =>
          match raw_shipping_info raw_transaction with
          | None => Raise (KeyError "shipping_info")
          | Some shipping_info =>
              match raw_shipping_name shipping_info with
              | Some name =>
                  match split_on ","%char name with
                  | [first; last] =>
                      Ok (Some (mkName (strip first) (strip last)))
                  | _ =>
                      match split_full_name name with
                      | Ok n => Ok (Some n)
                      | Raise e => Raise e
                      end
                  end
              | None =>
                  match raw_alternate_full_name payer_name with
                  | Some alternate =>
                      match split_full_name alternate with
                      | Ok n => Ok (Some n)
                      | Raise e => Raise e
                      end
                  | None => Ok None
                  end
              end
          end
      end
  end.

Definition address_from_paypal_transaction (raw_transaction : RawTransaction)
  : result (option Address) :=
  match raw_shipping_info raw_transaction with
  | None => Ok None
  | Some shipping_info =>
      match raw_shipping_address shipping_info with
      | None => Ok None
      | Some address =>
          match raw_city address, raw_state address,
                raw_postal_code address, raw_country_code address with
          | Some city, Some state, Some postal_code, Some country =>
              match raw_line1 address with
              | None => Raise (KeyError "line1")
              | Some line1 =>
                  let street :=
                    if truthy (raw_line2 address)
                    then line1 ++ ", " ++ fmt (raw_line2 address)
                    else line1 in
                  Ok (Some (mkAddress country city state postal_code street))
              end
          | _, _, _, _ => Ok None
          end
      end
  end.

(** [PaypalTransaction.from_dict] *)
Definition PaypalTransaction_from_dict (data : RawTransaction)
  : result PaypalTransaction.t :=
  let info := raw_transaction_info data in
  let fee_amount :=
    match raw_fee_amount_value info with
    | Some fee => - fee
    | None => 0
    end in
  let email :=
    match raw_payer_email_address data with
    | Some e => Some (lower e)
    | None => None
    end in
  match name_from_paypal_transaction data with
  | Raise e => Raise e
  | Ok name =>
      match address_from_paypal_transaction data with
      | Raise e => Raise e
      | Ok address =>
          Ok (PaypalTransaction.mk
                (raw_transaction_id info)
                (raw_transaction_event_code info)
                (raw_paypal_reference_id_type info)
                (raw_paypal_reference_id info)
                (raw_paypal_account_id info)
                (raw_transaction_initiation_date info)
                (raw_transaction_amount_value info)
                fee_amount
                (raw_transaction_status info)
                (raw_transaction_subject info)
                email
                (raw_transaction_note info)
                name
                address)
      end
  end.

(** The whole of [handle_paypal_charge_external_initiation], from the
    raw payload as the source has it: parse, then dispatch. *)
Definition handle_raw_transaction (org : Organization)
    (raw_transaction : RawTransaction) (ppc : PaypalConnection) : M unit :=
  transaction <- lift (PaypalTransaction_from_dict raw_transaction) ;;
  handle_paypal_charge_external_initiation org transaction ppc.

(** The loop of [import_org_period] (import_paypal.py) over the
    transactions [ppc.get_transactions] returned: an exception ends the
    loop and the import. *)
Fixpoint import_org_period (org : Organization) (ppc : PaypalConnection)
    (transactions : list RawTransaction) : M unit :=
  match transactions with
  | [] => ret tt
  | raw_transaction :: rest =>
      handle_raw_transaction org raw_transaction ppc ;;;
      import_org_period org ppc rest
  end.

End RawTransactions.


(** ** models.py: [PeriodType.from_str] *)

(** [str.lower] on the characters that matter here: no character outside
    ASCII lower-cases to a letter of "monthly" or "yearly", so on the
    UTF-8 bytes of a string the ASCII lower-casing decides the two
    comparisons of [from_str] exactly as Python's [lower] does. *)
Definition ascii_lower (a : Ascii.ascii) : Ascii.ascii :=
  let n := Ascii.nat_of_ascii a in
  if Nat.leb 65 n && Nat.leb n 90 then Ascii.ascii_of_nat (n + 32) else a.

Fixpoint str_lower (s : string) : string :=
  match s with
  | EmptyString => EmptyString
  | String a s' => String (ascii_lower a) (str_lower s')
  end.

Definition PeriodType_from_str (s : string) : PeriodType :=
  if String.eqb (str_lower s) "monthly" then monthly
  else if String.eqb (str_lower s) "yearly" then yearly
  else once.

(** ** eb_sf.py: [address_from_attendee] *)

(** One entry of [attendee["answers"]]. *)
Record Answer : Type := mkAnswer {
  answer_question : option string;
  answer_answer : option string }.

(** [attendee["profile"]["addresses"]["bill"]]; a key may be absent. *)
Record BillAddress : Type := mkBillAddress {
  bill_city : option string;
  bill_region : option string;
  bill_postal_code : option string;
  bill_country : option string;
  bill_address_1 : option string;
  bill_address_2 : option string }.

(** The parts of an attendee record [address_from_attendee] reads:
    [answers] (absent, null or a list) and the bill address ([None] when
    [profile], [addresses] or [bill] is absent). *)
Record Attendee : Type := mkAttendee {
  attendee_answers : option (list Answer);
  attendee_bill_address : option BillAddress }.

(** The [Address] the function builds; every attribute may be [None]. *)
Module AttendeeAddress.
Record t : Type := mk {
  mailing_country : option string;
  mailing_city : option string;
  mailing_state : option string;
  mailing_postal_code : option string;
  mailing_street : option string }.
End AttendeeAddress.

(** The [for question in attendee["answers"]] loop: the answer of the
    first postal-code question, where the loop breaks. *)
Fixpoint postal_code_from_answers (answers : list Answer)
  : result (option string) :=
  match answers with
  | [] => Ok None
  | question :: rest =>
      match answer_question question with
      | None => Raise (KeyError "question")
      | Some text =>
          if code_in text ["Postal Code"; "Zip Code"]
          then Ok (answer_answer question)
          else postal_code_from_answers rest
      end
  end.

(** The [try] block assigns city, state, postal code and country one
    after the other; a [KeyError] part-way keeps what was assigned. *)
(** The answers the loop runs over: none when [answers] is absent or
    falsy. *)
Definition answers_to_scan (attendee : Attendee) : list Answer :=
  match attendee_answers attendee with
  | Some l => l
  | None => []
  end.

Definition address_from_attendee (attendee : Attendee)
  : result AttendeeAddress.t :=
  match postal_code_from_answers (answers_to_scan attendee) with
  | Raise e => Raise e
  | Ok postal_code =>
      match attendee_bill_address attendee with
      | None => Ok (AttendeeAddress.mk None None None postal_code None)
      | Some address =>
          match bill_city address with
          | None => Ok (AttendeeAddress.mk None None None postal_code None)
          | Some city =>
              match bill_region address with
              | None =>
                  Ok (AttendeeAddress.mk None (Some city) None postal_code
                                         None)
              | Some state =>
                  match bill_postal_code address with
                  | None =>
                      Ok (AttendeeAddress.mk None (Some city) (Some state)
                                             postal_code None)
                  | Some postal =>
                      match bill_country address with
                      | None =>
                          Ok (AttendeeAddress.mk None (Some city) (Some state)
                                                 (Some postal) None)
                      | Some country =>
                          match bill_address_1 address with
                          | None => Raise (KeyError "address_1")
                          | Some address_1 =>
                              let street :=
                                match bill_address_2 address with
                                | Some address_2 =>
                                    address_1 ++ ", " ++ address_2
                                | None => address_1
                                end in
                              Ok (AttendeeAddress.mk (Some country)
                                    (Some city) (Some state) (Some postal)
                                    (Some street))
                          end
                      end
                  end
              end
          end
      end
  end.

(** ** celery_app.py: [check_eventbrite_status_code] *)

Inductive EbError : Type :=
| EbKeyError (key : string)
| EbIndexError
| RateLimitException (msg : string)
| NotFoundException (msg : string)
| EbException (msg : string).

(** What the function reads of an Eventbrite response: the words of its
    [X-Rate-Limit] header (what [header.split()] returns; [None] when
    the header is absent), the status code, [ok] and the [error] entry. *)
Record EventbriteObject : Type := mkEventbriteObject {
  eb_rate_limit_words : option (list string);
  eb_status_code : Z;
  eb_ok : bool;
  eb_error : option string }.

Definition eb_raise_error (mk : string -> EbError) (o : EventbriteObject)
  : option EbError :=
  match eb_error o with
  | Some msg => Some (mk msg)
  | None => Some (EbKeyError "error")
  end.

(** [None] when the function returns, [Some e] when it raises [e]. *)
Definition check_eventbrite_status_code (o : EventbriteObject)
  : option EbError :=
  match eb_rate_limit_words o with
  | None => Some (EbKeyError "X-Rate-Limit")
  | Some splits =>
      match nth_error splits 1 with
      | None => Some EbIndexError
      | Some w1 =>
          match nth_error splits 2 with
          | None => Some EbIndexError
          | Some w2 =>
              let string := w1 ++ " " ++ w2 in
              if eb_status_code o =? 429 then Some (RateLimitException string)
              else if eb_status_code o =? 404
                   then eb_raise_error NotFoundException o
              else if eb_status_code o >=? 400
                   then eb_raise_error EbException o
              else if negb (eb_ok o) then eb_raise_error EbException o
              else None
          end
      end
  end.

(** ** config.py: the TYPE_MAP setting *)

(** A Python [dict] from strings to strings, in insertion order. *)
Fixpoint dict_set (k v : string) (d : list (string * string))
  : list (string * string) :=
  match d with
  | [] => [(k, v)]
  | (k', v') :: d' =>
      if String.eqb k' k then (k', v) :: d' else (k', v') :: dict_set k v d'
  end.

Fixpoint dict_get (k : string) (d : list (string * string)) : option string :=
  match d with
  | [] => None
  | (k', v') :: d' => if String.eqb k' k then Some v' else dict_get k d'
  end.

(** The loop of [construct_org] over [env("TYPE_MAP").split(",")]:
    [eb_type, sf_type = mapping.split(":")], a [ValueError] unless there
    are exactly two pieces. *)
Fixpoint type_map_of_mappings (mappings : list string)
    (type_map : list (string * string)) : result (list (string * string)) :=
  match mappings with
  | [] => Ok type_map
  | mapping :: rest =>
      match split_on ":"%char mapping with
      | [eb_type; sf_type] =>
          type_map_of_mappings rest (dict_set eb_type sf_type type_map)
      | _ => Raise ValueError
      end
  end.

Definition type_map_from_env (value : string)
  : result (list (string * string)) :=
  type_map_of_mappings (split_on ","%char value) [].

(** A TYPE_MAP value written from a list of pairs. *)
Definition render_mapping (p : string * string) : string :=
  fst p ++ String ":"%char (snd p).

Fixpoint render_type_map (l : list (string * string)) : string :=
  match l with
  | [] => EmptyString
  | [p] => render_mapping p
  | p :: l' => render_mapping p ++ String ","%char (render_type_map l')
  end.

(** The value the last pair with key [k] gives it. *)
Fixpoint last_binding (k : string) (l : list (string * string))
  : option string :=
  match l with
  | [] => None
  | (k', v) :: l' =>
      match last_binding k l' with
      | Some v' => Some v'
      | None => if String.eqb k' k then Some v else None
      end
  end.


(** Neither of the two separators of a TYPE_MAP value occurs in [s]. *)
Definition separator_free (s : string) : bool :=
  negb (contains_char ","%char s) && negb (contains_char ":"%char s).


(** The handler leaves the stored RecurringDonations as they are. *)
Definition same_recurring_donations (st st' : Store) : Prop :=
  recurring_donations st' = recurring_donations st.


(** The exceptions [PaypalTransaction.from_dict] raises on a payload:
    a name that cannot be split, or a missing key. *)
Definition parse_error (e : PyError) : Prop :=
  e = ValueError
  \/ e = KeyError "payer_name"
  \/ e = KeyError "given_name"
  \/ e = KeyError "shipping_info"
  \/ e = KeyError "line1".


(** ** A CRM that creates installments with a RecurringDonation

    Modelled from the spec: what the CRM does on its own when a
    RecurringDonation is created is not in the sources, and the spec
    does not fix it.  Section 3 gives a RecurringDonation 'an ordered
    collection of linked Opportunities (its installments)' and section
    4.3 matches a payment against 'every installment Opportunity linked
    to the RecurringDonation', installments that are there before the
    payment; which ones, the spec does not say.
    [RecurringDonation_save] above is the CRM that creates none.  Here
    the Opportunities the CRM creates together with a new
    RecurringDonation are a parameter, [scheduled]: it stores each of
    them under a new id, linked to the new RecurringDonation and without
    a PayPal transaction id (section 3: an installment has its
    RecurringDonation as identity path, not an external transaction
    id).  Saving a RecurringDonation that has an id is the same in both
    models. *)

(** The Opportunity [o] as the CRM stores it under id [i], as an
    installment of the RecurringDonation [rd_id]. *)
Definition as_installment (rd_id i : Id) (o : Opportunity.t) : Opportunity.t :=
  Opportunity.mk (Some i) (Opportunity.account_id o) (Opportunity.amount o)
    (Opportunity.donor_selected_amount o) (Opportunity.net_amount o)
    (Opportunity.stage_name o) (Opportunity.paypal_account_id o)
    (Opportunity.lead_source o) (Opportunity.name o) None
    (Opportunity.close_date o) (Opportunity.encouraged_by o)
    (Opportunity.org_property o) (Some rd_id)
    (Opportunity.installment_period o) (Opportunity.type_ o).

(** The installments [l] of [rd_id], stored under the ids from [n] on. *)
Fixpoint store_installments (rd_id n : Id) (l : list Opportunity.t)
  : list Opportunity.t :=
  match l with
  | [] => []
  | o :: l' => as_installment rd_id n o :: store_installments rd_id (S n) l'
  end.

Section ScheduledInstallments.

(** The installments the CRM creates with a new RecurringDonation. *)
Variable scheduled : RecurringDonation.t -> list Opportunity.t.

(** Modelled from the spec: [recurring_donation.save()] on a CRM that
    creates the installments [scheduled] with a new RecurringDonation. *)
Definition RecurringDonation_save_scheduling (r : RecurringDonation.t)
  : M RecurringDonation.t :=
  fun st =>
    match RecurringDonation.id_ r with
    | Some i =>
        (mkStore (contacts st) (opportunities st)
                 (replace_where (by_id i) r (recurring_donations st))
                 (next_id st), Ok r)
    | None =>
        let n := next_id st in
        let r' := RecurringDonation.set_id r (Some n) in
        let installments := store_installments n (S n) (scheduled r') in
        (mkStore (contacts st) (opportunities st ++ installments)
                 (recurring_donations st ++ [r'])
                 (S n + List.length installments), Ok r')
    end.

(** [create_recurring_donation] on that CRM. *)
Definition create_recurring_donation_scheduling
    (transaction : PaypalTransaction.t)
    (subscription : PaypalSubscription.t) (org : Organization)
  : M RecurringDonation.t :=
  email <- lift (find_email transaction (Some subscription)) ;;
  c <- lift (contact_from_paypal_transaction transaction email org) ;;
  contact <- Contact_upsert c ;;
  rd <- lift (recurring_donation_from_paypal_subscription
                subscription
                (PaypalTransaction.transaction_date transaction)
                contact org) ;;
  RecurringDonation_save_scheduling rd.

(** [process_subscription_payment] on that CRM. *)
Definition process_subscription_payment_scheduling
    (transaction : PaypalTransaction.t)
    (subscription : PaypalSubscription.t) (org : Organization) : M unit :=
  recurring_donation <-
    RecurringDonation_get
      (by_paypal_subscription_id (PaypalTransaction.reference_id transaction)) ;;
  if is_none recurring_donation
     && String.eqb (PaypalSubscription.status subscription) "CANCELLED"
  then process_as_single_opportunity transaction org (Some subscription)
  else if is_none recurring_donation
     && String.eqb (PaypalSubscription.status subscription) "SUSPENDED"
  then process_as_single_opportunity transaction org (Some subscription)
  else if is_none recurring_donation
     && is_none (PaypalSubscription.installment_period subscription)
  then process_as_single_opportunity transaction org (Some subscription)
  else
    recurring_donation <-
      match recurring_donation with
      | Some rd => ret rd
      | None =>
          create_recurring_donation_scheduling transaction subscription org
      end ;;
    recurring_donation <-
      (if String.eqb (PaypalSubscription.status subscription) "CANCELLED"
       then RecurringDonation_save_scheduling
              (RecurringDonation.set_open_ended_status
                 recurring_donation "Closed")
       else ret recurring_donation) ;;
    update_or_create_installment transaction subscription org
                                 recurring_donation.

End ScheduledInstallments.

(** A CRM that creates one installment with a new RecurringDonation, due
    on the day the RecurringDonation was established. *)
Definition first_installment (rd : RecurringDonation.t)
  : list Opportunity.t :=
  [Opportunity.mk None None (RecurringDonation.amount rd)
     (RecurringDonation.amount rd) (RecurringDonation.amount rd) "Pledged"
     None (RecurringDonation.lead_source rd) "installment" None
     (RecurringDonation.date_established rd) None
     (RecurringDonation.org_property rd) None
     (Some (RecurringDonation.installment_period rd))
     (Some "Recurring Donation")].

(** A CRM that creates no installment. *)
Definition no_installment (rd : RecurringDonation.t) : list Opportunity.t :=
  [].

(** The Opportunity is an installment of [rd_id] that carries the
    transaction [tid]. *)
Definition installment_carrying (rd_id : Id) (tid : string)
    (o : Opportunity.t) : bool :=
  linked_to (Some rd_id) o && carries tid o.


(** The handler keeps every stored Contact. *)
Definition keeps_contacts (st st' : Store) : Prop :=
  forall c, In c (contacts st) -> In c (contacts st').


(** ** Properties of the installment-period derivation *)

(** C7 (as the code has it): for a subscription payload that is neither
    CANCELLED nor SUSPENDED and carries a next billing time, the derived
    installment period is monthly exactly for a day gap of 27 to 31,
    yearly exactly for 361 to 366, and none otherwise; a CANCELLED or
    SUSPENDED subscription gets no installment period and [from_dict]
    does not raise. *)
Theorem from_dict_installment_period (data : RawSubscription) :
  (raw_status data = "CANCELLED" \/ raw_status data = "SUSPENDED" ->
   exists s, from_dict data = Ok s
             /\ PaypalSubscription.installment_period s = None)
  /\
  (raw_status data <> "CANCELLED" -> raw_status data <> "SUSPENDED" ->
   forall next, raw_next_billing_time data = Some next ->
   let gap := next - raw_last_payment_time data in
   exists s, from_dict data = Ok s
     /\ (PaypalSubscription.installment_period s = Some monthly
         <-> 27 <= gap <= 31)
     /\ (PaypalSubscription.installment_period s = Some yearly
         <-> 361 <= gap <= 366)
     /\ (PaypalSubscription.installment_period s = None
         <-> ~ 27 <= gap <= 31 /\ ~ 361 <= gap <= 366)).
Proof.
  split.
  - intros [H | H]; unfold from_dict; rewrite H; simpl; eauto.
  - intros Hc Hs next Hnext gap.
    unfold from_dict. rewrite Hnext.
    apply String.eqb_neq in Hc, Hs. rewrite Hc, Hs.
    fold gap. cbv zeta.
    destruct ((gap >=? 27) && (gap <=? 31)) eqn:Hm.
    + eexists; split; [reflexivity|]; simpl.
      apply andb_true_iff in Hm as [H1 H2].
      rewrite Z.geb_le in H1. rewrite Z.leb_le in H2.
      repeat split; intros; try lia; try discriminate.
    + destruct ((gap >? 360) && (gap <=? 366)) eqn:Hy.
      * eexists; split; [reflexivity|]; simpl.
        apply andb_true_iff in Hy as [H1 H2].
        rewrite Z.gtb_ltb, Z.ltb_lt in H1. rewrite Z.leb_le in H2.
        repeat split; intros; try lia; try discriminate.
      * eexists; split; [reflexivity|]; simpl.
        apply andb_false_iff in Hm, Hy.
        rewrite Z.geb_leb, !Z.leb_gt in Hm.
        rewrite Z.gtb_ltb, Z.ltb_ge, Z.leb_gt in Hy.
        repeat split; intros; try lia; try discriminate.
Qed.

Lemma from_dict_installment_period_witness :
  (exists s, from_dict (vendor "CANCELLED" 0 None None) = Ok s
             /\ PaypalSubscription.installment_period s = None)
  /\
  (exists s, from_dict (vendor "ACTIVE" 100 (Some 130) None) = Ok s
     /\ (PaypalSubscription.installment_period s = Some monthly
         <-> 27 <= 130 - 100 <= 31)).
Proof.
  split.
  - apply (from_dict_installment_period (vendor "CANCELLED" 0 None None)).
    left. reflexivity.
  - destruct (proj2 (from_dict_installment_period
                       (vendor "ACTIVE" 100 (Some 130) None)))
      with (next := 130) as [s [H1 [H2 _]]].
    + discriminate.
    + discriminate.
    + reflexivity.
    + exists s. split; assumption.
Defined.

(** C7 (as stated) fails: a payload that is neither CANCELLED nor
    SUSPENDED and has no next billing time does not get the installment
    period none; [from_dict] reads the missing key and raises
    [KeyError], so no subscription is derived at all. *)
Lemma from_dict_without_next_billing_time :
  let data := vendor "EXPIRED" 100 None None in
  raw_status data <> "CANCELLED"
  /\ raw_status data <> "SUSPENDED"
  /\ from_dict data = Raise (KeyError "next_billing_time")
  /\ ~ (exists s, from_dict data = Ok s
                  /\ PaypalSubscription.installment_period s = None).
Proof.
  intros data. split; [discriminate|]. split; [discriminate|].
  split; [reflexivity|]. intros [s [H _]]. discriminate H.
Qed.

(** ** Properties of the matcher *)

Section MinFrom.
Context {A : Type} (key : A -> Z).

Lemma min_from_keep (best : A) (l : list A) :
  (forall x, In x l -> key best <= key x) -> min_from key best l = best.
Proof.
  induction l as [|x l IH]; intros H; simpl; [reflexivity|].
  assert (Hx : key best <= key x) by (apply H; left; reflexivity).
  apply Z.ltb_ge in Hx. rewrite Hx.
  apply IH. intros y Hy. apply H. right. exact Hy.
Qed.

Lemma min_from_first (best o : A) (l1 l2 : list A) :
  key o < key best ->
  (forall x, In x l1 -> key o < key x) ->
  (forall x, In x l2 -> key o <= key x) ->
  min_from key best (l1 ++ o :: l2) = o.
Proof.
  revert best. induction l1 as [|x l1 IH]; intros best Hb H1 H2; simpl.
  - apply Z.ltb_lt in Hb. rewrite Hb. apply min_from_keep. exact H2.
  - apply IH.
    + destruct (key x <? key best); [apply H1; left; reflexivity | exact Hb].
    + intros y Hy. apply H1. right. exact Hy.
    + exact H2.
Qed.

Lemma min_from_in (best : A) (l : list A) :
  In (min_from key best l) (best :: l).
Proof.
  revert best. induction l as [|x l IH]; intros best; simpl.
  - left. reflexivity.
  - destruct (IH (if key x <? key best then x else best)) as [H | H].
    + destruct (key x <? key best); rewrite <- H; auto.
    + right. right. exact H.
Qed.

Lemma min_from_le_best (best : A) (l : list A) :
  key (min_from key best l) <= key best.
Proof.
  revert best. induction l as [|y l IH]; intros best; simpl; [lia|].
  specialize (IH (if key y <? key best then y else best)).
  destruct (key y <? key best) eqn:E; [apply Z.ltb_lt in E; lia | exact IH].
Qed.

Lemma min_from_le (best : A) (l : list A) (x : A) :
  In x (best :: l) -> key (min_from key best l) <= key x.
Proof.
  revert best. induction l as [|y l IH]; intros best Hx.
  - destruct Hx as [<- | []]. simpl. lia.
  - simpl.
    pose proof (min_from_le_best (if key y <? key best then y else best) l)
      as Hb.
    destruct Hx as [<- | [<- | Hx]].
    + destruct (key y <? key best) eqn:E; [apply Z.ltb_lt in E; lia | exact Hb].
    + destruct (key y <? key best) eqn:E; [exact Hb | apply Z.ltb_ge in E; lia].
    + apply IH. right. exact Hx.
Qed.
Lemma min_from_decompose (best : A) (l : list A) :
  exists l1 l2,
    best :: l = (l1 ++ min_from key best l :: l2)%list
    /\ (forall x, In x l1 -> key (min_from key best l) < key x)
    /\ (forall x, In x l2 -> key (min_from key best l) <= key x).
Proof.
  revert best. induction l as [|y l IH]; intros best.
  - exists [], []. simpl. repeat split; intros x [].
  - simpl. destruct (key y <? key best) eqn:E.
    + apply Z.ltb_lt in E.
      destruct (IH y) as [l1 [l2 [Hs [H1 H2]]]].
      exists (best :: l1), l2. simpl. rewrite Hs. repeat split.
      * intros x [<- | Hx]; [|apply H1; exact Hx].
        pose proof (min_from_le_best y l). lia.
      * exact H2.
    + apply Z.ltb_ge in E.
      destruct (IH best) as [l1 [l2 [Hs [H1 H2]]]].
      set (r := min_from key best l) in *. clearbody r.
      destruct l1 as [|b l1]; simpl in Hs; injection Hs as Hb Hl.
      * exists [], (y :: l2). simpl. subst best l.
        repeat split; [intros x [] |].
        intros x [<- | Hx]; [exact E | apply H2; exact Hx].
      * exists (b :: y :: l1), l2. simpl. subst b l.
        repeat split; [|exact H2].
        intros x [<- | [<- | Hx]].
        -- apply H1. left. reflexivity.
        -- specialize (H1 best (or_introl eq_refl)). lia.
        -- apply H1. right. exact Hx.
Qed.
End MinFrom.

Lemma min_from_paired {A} (key : A -> Z) (best : A) (l : list A) :
  min_from snd (best, key best) (map (fun x => (x, key x)) l)
  = (min_from key best l, key (min_from key best l)).
Proof.
  revert best. induction l as [|x l IH]; intros best; simpl; [reflexivity|].
  destruct (key x <? key best); apply IH.
Qed.

(** [find_closest_opportunity] without the intermediate list of pairs. *)
Lemma find_closest_opportunity_unfold opportunities transaction org :
  find_closest_opportunity opportunities transaction org =
  match opportunities with
  | [] => Raise ValueError
  | o :: l =>
      let closest := min_from (days_delta transaction) o l in
      if days_delta transaction closest >? 10
      then Raise (DateRangeToleranceExceeded (days_delta transaction closest))
      else Ok closest
  end.
Proof.
  unfold find_closest_opportunity.
  destruct opportunities as [|o l]; simpl; [reflexivity|].
  rewrite (min_from_paired (days_delta transaction)). reflexivity.
Qed.

(** [m] is the minimum absolute day-delta between a candidate's close
    date and the transaction date. *)
Definition is_min_delta (transaction : PaypalTransaction.t)
    (opportunities : list Opportunity.t) (m : Z) : Prop :=
  (exists o, In o opportunities /\ days_delta transaction o = m)
  /\ forall o, In o opportunities -> m <= days_delta transaction o.

Lemma min_from_is_min_delta transaction o l m :
  is_min_delta transaction (o :: l) m ->
  days_delta transaction (min_from (days_delta transaction) o l) = m.
Proof.
  intros [[x [Hx Hm]] Hle].
  pose proof (min_from_in (days_delta transaction) o l) as Hin.
  pose proof (min_from_le (days_delta transaction) o l x Hx) as H1.
  specialize (Hle _ Hin). lia.
Qed.

(** C6: on a non-empty candidate list whose minimum day-delta is [m],
    [find_closest_opportunity] raises [DateRangeToleranceExceeded]
    exactly when [m > 10]; for [m <= 10], so also at [m = 10], it
    returns a candidate at that minimum delta. *)
Theorem find_closest_opportunity_tolerance opportunities transaction org m :
  is_min_delta transaction opportunities m ->
  ((exists d, find_closest_opportunity opportunities transaction org
              = Raise (DateRangeToleranceExceeded d)) <-> 10 < m)
  /\ (10 < m ->
      find_closest_opportunity opportunities transaction org
      = Raise (DateRangeToleranceExceeded m))
  /\ (m <= 10 ->
      exists o, find_closest_opportunity opportunities transaction org = Ok o
                /\ In o opportunities /\ days_delta transaction o = m).
Proof.
  intros Hmin. rewrite find_closest_opportunity_unfold.
  destruct opportunities as [|o l].
  - destruct Hmin as [[x [[] _]] _].
  - cbv zeta. rewrite (min_from_is_min_delta _ _ _ _ Hmin).
    pose proof (min_from_in (days_delta transaction) o l) as Hin.
    pose proof (min_from_is_min_delta _ _ _ _ Hmin) as Hd.
    destruct (m >? 10) eqn:E; rewrite Z.gtb_ltb in E.
    + apply Z.ltb_lt in E. repeat split; intros; eauto; try lia.
    + apply Z.ltb_ge in E. repeat split; intros; try lia.
      * destruct H as [d H]. discriminate.
      * eauto.
Qed.

Lemma find_closest_opportunity_tolerance_witness :
  find_closest_opportunity
    [installment 1 0 "A" 0; installment 2 0 "B" 20; installment 3 0 "C" 60]
    (payment "TX" "T0002" None None None 31 1000) org0
  = Raise (DateRangeToleranceExceeded 11)
  /\ exists o,
      find_closest_opportunity
        [installment 1 0 "A" 0; installment 2 0 "B" 20; installment 3 0 "C" 60]
        (payment "TX" "T0002" None None None 30 1000) org0 = Ok o
      /\ In o [installment 1 0 "A" 0; installment 2 0 "B" 20;
               installment 3 0 "C" 60]
      /\ days_delta (payment "TX" "T0002" None None None 30 1000) o = 10.
Proof.
  split.
  - apply (find_closest_opportunity_tolerance
             [installment 1 0 "A" 0; installment 2 0 "B" 20;
              installment 3 0 "C" 60]
             (payment "TX" "T0002" None None None 31 1000) org0 11);
      [|lia].
    split.
    + exists (installment 2 0 "B" 20). split; [simpl; auto | reflexivity].
    + intros o [<- | [<- | [<- | []]]]; vm_compute; intro; discriminate.
  - apply (find_closest_opportunity_tolerance
             [installment 1 0 "A" 0; installment 2 0 "B" 20;
              installment 3 0 "C" 60]
             (payment "TX" "T0002" None None None 30 1000) org0 10);
      [|lia].
    split.
    + exists (installment 2 0 "B" 20). split; [simpl; auto | reflexivity].
    + intros o [<- | [<- | [<- | []]]]; vm_compute; intro; discriminate.
Defined.

(** The candidate that comes first among those at the minimum delta is
    the one returned. *)
Lemma find_closest_opportunity_of_first_min
    (l1 l2 : list Opportunity.t) (o : Opportunity.t) transaction org :
  (forall x, In x l1 -> days_delta transaction o < days_delta transaction x) ->
  (forall x, In x l2 -> days_delta transaction o <= days_delta transaction x) ->
  days_delta transaction o <= 10 ->
  find_closest_opportunity (l1 ++ o :: l2) transaction org = Ok o.
Proof.
  intros H1 H2 Hd. rewrite find_closest_opportunity_unfold.
  assert (Hmin : match (l1 ++ o :: l2)%list with
                 | [] => False
                 | b :: l => min_from (days_delta transaction) b l = o
                 end).
  { destruct l1 as [|b l1]; simpl.
    - apply min_from_keep. exact H2.
    - apply min_from_first.
      + apply H1. left. reflexivity.
      + intros x Hx. apply H1. right. exact Hx.
      + exact H2. }
  destruct (l1 ++ o :: l2)%list as [|b l]; [contradiction|].
  cbv zeta. rewrite Hmin.
  destruct (days_delta transaction o >? 10) eqn:E; [|reflexivity].
  rewrite Z.gtb_ltb in E. apply Z.ltb_lt in E. lia.
Qed.

(** C4 (as the code has it): among the candidates that share the
    minimum day-delta, [find_closest_opportunity] returns the one that
    comes first in the candidate list, whatever the close dates and ids
    of the tied candidates. *)
Theorem find_closest_opportunity_first_minimum
    (l1 l2 : list Opportunity.t) (o : Opportunity.t) transaction org :
  (forall x, In x l1 -> days_delta transaction o < days_delta transaction x) ->
  (forall x, In x l2 -> days_delta transaction o <= days_delta transaction x) ->
  days_delta transaction o <= 10 ->
  find_closest_opportunity (l1 ++ o :: l2) transaction org = Ok o.
Proof. apply find_closest_opportunity_of_first_min. Qed.

Lemma find_closest_opportunity_first_minimum_witness :
  find_closest_opportunity
    ([installment 1 0 "A" 40] ++ installment 2 0 "B" 12
       :: [installment 3 0 "C" 8])
    (payment "TX" "T0002" None None None 10 1000) org0
  = Ok (installment 2 0 "B" 12).
Proof.
  apply (find_closest_opportunity_first_minimum
           [installment 1 0 "A" 40] [installment 3 0 "C" 8]
           (installment 2 0 "B" 12)
           (payment "TX" "T0002" None None None 10 1000) org0).
  - intros x [<- | []]. vm_compute. reflexivity.
  - intros x [<- | []]. vm_compute. intro. discriminate.
  - vm_compute. intro. discriminate.
Defined.

(** C4 (as stated) fails: two candidates tie at delta 2, the one with
    the later close date and the higher id comes first in the list, and
    it is the one returned. *)
Lemma find_closest_opportunity_tie_not_earliest :
  let t := payment "TX" "T0002" None None None 10 1000 in
  let later := installment 2 0 "B" 12 in
  let earlier := installment 1 0 "A" 8 in
  days_delta t later = 2 /\ days_delta t earlier = 2
  /\ Opportunity.close_date earlier < Opportunity.close_date later
  /\ find_closest_opportunity [later; earlier] t org0 = Ok later
  /\ find_closest_opportunity [later; earlier] t org0 <> Ok earlier.
Proof.
  vm_compute. repeat split; discriminate.
Qed.

(** ** The T0002 guards of the entry point *)

(** C8: for event code T0002, a negative gross amount is skipped with
    the store untouched and no error; a non-negative amount with a
    status other than 'S' raises, with the store untouched; only a
    non-negative amount with status 'S' goes on to the subscription
    payment processing. *)
Theorem handle_T0002_guards org transaction ppc st :
  PaypalTransaction.event_code transaction = "T0002" ->
  (PaypalTransaction.gross_amount transaction < 0 ->
   handle_paypal_charge_external_initiation org transaction ppc st
   = (st, Ok tt))
  /\ (0 <= PaypalTransaction.gross_amount transaction ->
      PaypalTransaction.status transaction <> "S" ->
      handle_paypal_charge_external_initiation org transaction ppc st
      = (st, Raise (Exception "Transaction status isn't 'S'")))
  /\ (0 <= PaypalTransaction.gross_amount transaction ->
      PaypalTransaction.status transaction = "S" ->
      handle_paypal_charge_external_initiation org transaction ppc st
      = handle_subscription_payment org transaction ppc st).
Proof.
  intros Hcode. unfold handle_paypal_charge_external_initiation.
  rewrite Hcode. simpl.
  repeat split.
  - intros Hneg. apply Z.ltb_lt in Hneg. rewrite Hneg. reflexivity.
  - intros Hpos Hst. apply Z.ltb_ge in Hpos. rewrite Hpos.
    apply String.eqb_neq in Hst. rewrite Hst. reflexivity.
  - intros Hpos Hst. apply Z.ltb_ge in Hpos. rewrite Hpos.
    rewrite Hst. reflexivity.
Qed.

Lemma handle_T0002_guards_witness :
  handle_paypal_charge_external_initiation org0
    (payment "TX" "T0002" (Some "SUB") (Some "I-SUB1") None 10 (-500))
    (vendor "ACTIVE" 10 (Some 40)) empty_store
  = (empty_store, Ok tt).
Proof.
  apply (handle_T0002_guards org0
           (payment "TX" "T0002" (Some "SUB") (Some "I-SUB1") None 10 (-500))
           (vendor "ACTIVE" 10 (Some 40)) empty_store).
  - reflexivity.
  - simpl. lia.
Defined.

(** ** Refunds *)

(** The test on the subscription in [process_refund] never holds, so
    the second half of a refund writes nothing. *)
Lemma close_refunded_series_store o org ppc st :
  fst (close_refunded_series o org ppc st) = st.
Proof.
  unfold close_refunded_series, bind, RecurringDonation_get, raise, ret.
  destruct (Opportunity.recurring_donation_id o); [|reflexivity].
  destruct (find _ (recurring_donations st)) as [r|]; [|reflexivity].
  destruct (String.eqb (RecurringDonation.open_ended_status r) "Closed");
    [reflexivity|].
  unfold lift; destruct (from_dict _); reflexivity.
Qed.

Lemma process_refund_recurring_donations transaction org ppc st :
  recurring_donations (fst (process_refund transaction org ppc st))
  = recurring_donations st.
Proof.
  unfold process_refund.
  unfold bind at 1. unfold Opportunity_get at 1.
  destruct (find _ (opportunities st)) as [o|]; [|reflexivity].
  unfold bind, Opportunity_save.
  destruct (Opportunity.id_ (Opportunity.set_stage_name o "Refunded")).
  - match goal with
    | |- context [close_refunded_series ?a ?b ?c ?d] =>
        pose proof (close_refunded_series_store a b c d) as H;
        destruct (close_refunded_series a b c d) as [st' r]
    end.
    simpl in H. subst st'. reflexivity.
  - match goal with
    | |- context [close_refunded_series ?a ?b ?c ?d] =>
        pose proof (close_refunded_series_store a b c d) as H;
        destruct (close_refunded_series a b c d) as [st' r]
    end.
    simpl in H. subst st'. reflexivity.
Qed.

(** C1 (what the code does): a refund of an installment of an open
    recurring donation, whose subscription the vendor reports as
    CANCELLED, marks the Opportunity 'Refunded' and leaves the
    RecurringDonation 'Open'. *)
Theorem process_refund_cancelled_stays_open :
  let st := mkStore [] [installment 1 0 "TX" 10] [series 0 "Open"] 2 in
  let refund := payment "RF" "T1107" None (Some "TX") (Some "PAYER1") 12 (-1000) in
  handle_paypal_charge_external_initiation org0 refund
    (vendor "CANCELLED" 10 None) st
  = (mkStore []
       [Opportunity.set_stage_name (installment 1 0 "TX" 10) "Refunded"]
       [series 0 "Open"] 2,
     Ok tt).
Proof. vm_compute. reflexivity. Qed.

(** ** Subscription payments *)

(** C5 (what the code does): a T0002 payment without a subscription
    reference, whose account has a RecurringDonation with no installment
    within 10 days, raises [DateRangeToleranceExceeded] out of the entry
    point and creates no Opportunity. *)
Theorem account_match_out_of_tolerance_raises :
  let st := mkStore [] [installment 1 0 "TX" 10] [series 0 "Open"] 2 in
  let t := payment "TX2" "T0002" None None (Some "PAYER1") 100 1000 in
  handle_paypal_charge_external_initiation org0 t
    (vendor "ACTIVE" 10 (Some 40)) st
  = (st, Raise (DateRangeToleranceExceeded 90)).
Proof. vm_compute. reflexivity. Qed.

(** ** A recurring donation without installments *)

Lemma no_installments_of_fresh_id (n m : Id) (opps : list Opportunity.t) :
  Forall (link_below n) opps -> (n <= m)%nat ->
  filter (linked_to (Some m)) opps = [].
Proof.
  intros H Hnm. induction H as [|o l Ho _ IH]; simpl; [reflexivity|].
  rewrite IH. unfold id_is.
  destruct (Opportunity.recurring_donation_id o) as [r|] eqn:E; [|reflexivity].
  specialize (Ho r E).
  destruct (Nat.eqb_spec r m); [lia | reflexivity].
Qed.

Lemma empty_store_wf : wf_store empty_store.
Proof. split; simpl; constructor. Qed.

(** ** Composition of handlers that preserve a relation *)

Section Preserves.
Variable R : Store -> Store -> Prop.
Hypothesis R_refl : forall st, R st st.
Hypothesis R_trans : forall a b c, R a b -> R b c -> R a c.

Lemma preserves_ret {A} (a : A) : preserves R (ret a).
Proof. intro st. apply R_refl. Qed.

Lemma preserves_raise {A} (e : PyError) : preserves R (@raise A e).
Proof. intro st. apply R_refl. Qed.

Lemma preserves_lift {A} (r : result A) : preserves R (lift r).
Proof. intro st. apply R_refl. Qed.

Lemma preserves_bind {A B} (c : M A) (k : A -> M B) :
  preserves R c -> (forall a, returns c a -> preserves R (k a)) ->
  preserves R (bind c k).
Proof.
  intros Hc Hk st. unfold bind.
  specialize (Hc st).
  destruct (c st) as [st' [a|e]] eqn:E; simpl in *.
  - eapply R_trans; [exact Hc|]. apply Hk.
    exists st. rewrite E. reflexivity.
  - exact Hc.
Qed.

Lemma preserves_try {A} (body : M A) (handler : Z -> M A) :
  preserves R body -> (forall d, preserves R (handler d)) ->
  preserves R (try_except_DateRangeToleranceExceeded body handler).
Proof.
  intros Hb Hh st. unfold try_except_DateRangeToleranceExceeded.
  specialize (Hb st).
  destruct (body st) as [st' [a|e]]; simpl in *; try exact Hb.
  destruct e; simpl; try exact Hb.
  eapply R_trans; [exact Hb|]. apply Hh.
Qed.

Lemma preserves_Opportunity_get k : preserves R (Opportunity_get k).
Proof. intro st. apply R_refl. Qed.

Lemma preserves_RecurringDonation_get p :
  preserves R (RecurringDonation_get p).
Proof. intro st. apply R_refl. Qed.

Lemma preserves_RecurringDonation_opportunities r :
  preserves R (RecurringDonation_opportunities r).
Proof. intro st. apply R_refl. Qed.
End Preserves.

Lemma returns_lift {A} (r : result A) (a : A) : returns (lift r) a -> r = Ok a.
Proof. intros [st H]. exact H. Qed.

(** One step of a proof by [preserves]: follow the shape of the handler. *)
Ltac preserves_step refl trans :=
  lazymatch goal with
  | |- preserves _ (bind _ _) =>
      apply (preserves_bind _ trans); [|intros ? ?]
  | |- preserves _ (ret _) => apply (preserves_ret _ refl)
  | |- preserves _ (raise _) => apply (preserves_raise _ refl)
  | |- preserves _ (lift _) => apply (preserves_lift _ refl)
  | |- preserves _ (Opportunity_get _) =>
      apply (preserves_Opportunity_get _ refl)
  | |- preserves _ (RecurringDonation_get _) =>
      apply (preserves_RecurringDonation_get _ refl)
  | |- preserves _ (RecurringDonation_opportunities _) =>
      apply (preserves_RecurringDonation_opportunities _ refl)
  | |- preserves _ (try_except_DateRangeToleranceExceeded _ _) =>
      apply (preserves_try _ trans); [|intros ?]
  | |- preserves _ (if ?b then _ else _) => destruct b eqn:?
  | |- preserves _ (match ?x with _ => _ end) => destruct x eqn:?
  end.

(** ** Monotonicity of [open_ended_status] *)

Lemma keeps_or_closes_refl a : keeps_or_closes a a.
Proof. left. reflexivity. Qed.

Lemma keeps_or_closes_trans a b c :
  keeps_or_closes a b -> keeps_or_closes b c -> keeps_or_closes a c.
Proof.
  intros [-> | Hb] [-> | Hc]; unfold keeps_or_closes; auto.
Qed.

Lemma Forall2_keeps_refl l : Forall2 keeps_or_closes l l.
Proof. induction l; constructor; auto using keeps_or_closes_refl. Qed.

Lemma Forall2_keeps_trans l1 l2 l3 :
  Forall2 keeps_or_closes l1 l2 -> Forall2 keeps_or_closes l2 l3 ->
  Forall2 keeps_or_closes l1 l3.
Proof.
  intros H. revert l3. induction H; intros l3 H3; inversion H3; subst.
  - constructor.
  - constructor; eauto using keeps_or_closes_trans.
Qed.

Lemma closing_step_refl st : closing_step st st.
Proof.
  exists (recurring_donations st), []. split.
  - symmetry. apply app_nil_r.
  - apply Forall2_keeps_refl.
Qed.

Lemma closing_step_trans a b c :
  closing_step a b -> closing_step b c -> closing_step a c.
Proof.
  unfold closing_step, recurring_donations_step.
  intros [l1 [l2 [Hb H1]]] [m1 [m2 [Hc H2]]].
  rewrite Hb in H2.
  apply Forall2_app_inv_l in H2 as [m1a [m1b [Ha [_ ->]]]].
  exists m1a, (m1b ++ m2)%list. split.
  - rewrite Hc. symmetry. apply app_assoc.
  - eapply Forall2_keeps_trans; eassumption.
Qed.

Lemma closing_step_same st st' :
  recurring_donations st' = recurring_donations st -> closing_step st st'.
Proof.
  intros H. unfold closing_step. rewrite H. apply (closing_step_refl st).
Qed.

Lemma replace_where_closes p (r : RecurringDonation.t) l :
  RecurringDonation.open_ended_status r = "Closed" ->
  Forall2 keeps_or_closes l (replace_where p r l).
Proof.
  intros Hr. induction l as [|x l IH]; simpl; constructor; [|exact IH].
  destruct (p x); [right; exact Hr | left; reflexivity].
Qed.

Lemma RecurringDonation_save_closing r :
  RecurringDonation.id_ r = None
  \/ RecurringDonation.open_ended_status r = "Closed" ->
  preserves closing_step (RecurringDonation_save r).
Proof.
  intros H st. unfold RecurringDonation_save, closing_step.
  destruct (RecurringDonation.id_ r) as [i|] eqn:E; simpl.
  - destruct H as [H | H]; [discriminate|].
    exists (replace_where (by_id i) r (recurring_donations st)), [].
    split; [symmetry; apply app_nil_r | apply replace_where_closes; exact H].
  - eexists _, _. split; [reflexivity | apply Forall2_keeps_refl].
Qed.

Lemma Contact_upsert_closing c : preserves closing_step (Contact_upsert c).
Proof.
  intro st. apply closing_step_same. unfold Contact_upsert.
  destruct (find _ (contacts st)); reflexivity.
Qed.

Lemma Opportunity_save_closing o : preserves closing_step (Opportunity_save o).
Proof.
  intro st. apply closing_step_same. unfold Opportunity_save.
  destruct (Opportunity.id_ o); reflexivity.
Qed.

Ltac closing_step_tac :=
  repeat first
    [ preserves_step closing_step_refl closing_step_trans
    | apply Contact_upsert_closing
    | apply Opportunity_save_closing ].

Lemma Opportunity_upsert_closing o :
  preserves closing_step (Opportunity_upsert o).
Proof. unfold Opportunity_upsert. closing_step_tac. Qed.

Lemma update_opportunity_closing o t :
  preserves closing_step (update_opportunity o t).
Proof. unfold update_opportunity. closing_step_tac. Qed.

Lemma process_as_single_opportunity_closing t org sub :
  preserves closing_step (process_as_single_opportunity t org sub).
Proof.
  unfold process_as_single_opportunity. closing_step_tac.
  apply Opportunity_upsert_closing.
Qed.

Lemma update_closest_opportunity_closing t org rd :
  preserves closing_step (update_closest_opportunity t org rd).
Proof.
  unfold update_closest_opportunity.
  closing_step_tac. apply update_opportunity_closing.
Qed.

Lemma create_linked_opportunity_closing t sub org rd :
  preserves closing_step (create_linked_opportunity t sub org rd).
Proof.
  unfold create_linked_opportunity. closing_step_tac.
  apply update_opportunity_closing.
Qed.

Lemma process_refund_closing t org ppc :
  preserves closing_step (process_refund t org ppc).
Proof.
  intro st. apply closing_step_same.
  apply process_refund_recurring_donations.
Qed.

Lemma set_open_ended_status_closed r :
  RecurringDonation.open_ended_status
    (RecurringDonation.set_open_ended_status r "Closed") = "Closed".
Proof. reflexivity. Qed.

Lemma recurring_donation_from_paypal_subscription_unsaved sub d c org r :
  recurring_donation_from_paypal_subscription sub d c org = Ok r ->
  RecurringDonation.id_ r = None.
Proof.
  unfold recurring_donation_from_paypal_subscription.
  destruct (negb _); [discriminate|].
  destruct (PaypalSubscription.installment_period sub); [|discriminate].
  intros H. injection H as <-. reflexivity.
Qed.

Lemma process_subscription_payment_closing t sub org :
  preserves closing_step (process_subscription_payment t sub org).
Proof.
  unfold process_subscription_payment, update_or_create_installment,
    create_recurring_donation.
  closing_step_tac;
    try apply process_as_single_opportunity_closing;
    try apply update_closest_opportunity_closing;
    try apply create_linked_opportunity_closing;
    try (apply RecurringDonation_save_closing; right;
         apply set_open_ended_status_closed).
  all: apply RecurringDonation_save_closing; left.
  all: match goal with
       | H : returns (lift _) _ |- _ =>
           apply returns_lift in H;
           eapply recurring_donation_from_paypal_subscription_unsaved;
           exact H
       end.
Qed.

Lemma handle_subscription_payment_closing org t ppc :
  preserves closing_step (handle_subscription_payment org t ppc).
Proof.
  unfold handle_subscription_payment.
  closing_step_tac;
    try apply process_subscription_payment_closing;
    try apply process_as_single_opportunity_closing;
    try apply update_closest_opportunity_closing.
Qed.

Lemma handle_paypal_charge_external_initiation_closing org t ppc :
  preserves closing_step (handle_paypal_charge_external_initiation org t ppc).
Proof.
  unfold handle_paypal_charge_external_initiation.
  closing_step_tac;
    try apply process_refund_closing;
    try apply process_as_single_opportunity_closing;
    try apply handle_subscription_payment_closing.
Qed.

Lemma Forall2_nth_error_left {A B} (P : A -> B -> Prop) l l' i a :
  Forall2 P l l' -> nth_error l i = Some a ->
  exists b, nth_error l' i = Some b /\ P a b.
Proof.
  intros H. revert i. induction H as [|x y l l' Hxy _ IH]; intros i Hi.
  - destruct i; discriminate.
  - destruct i as [|i]; simpl in *.
    + injection Hi as <-. eauto.
    + apply IH. exact Hi.
Qed.

Lemma Forall2_nth_error_right {A B} (P : A -> B -> Prop) l l' i b :
  Forall2 P l l' -> nth_error l' i = Some b ->
  exists a, nth_error l i = Some a /\ P a b.
Proof.
  intros H. revert i. induction H as [|x y l l' Hxy _ IH]; intros i Hi.
  - destruct i; discriminate.
  - destruct i as [|i]; simpl in *.
    + injection Hi as <-. eauto.
    + apply IH. exact Hi.
Qed.

Lemma closing_step_closed_stays st st' i rd :
  closing_step st st' ->
  nth_error (recurring_donations st) i = Some rd ->
  RecurringDonation.open_ended_status rd = "Closed" ->
  exists rd', nth_error (recurring_donations st') i = Some rd'
              /\ RecurringDonation.open_ended_status rd' = "Closed".
Proof.
  intros [l1 [l2 [-> H]]] Hi Hc.
  destruct (Forall2_nth_error_left _ _ _ _ _ H Hi) as [rd' [Hi' Hk]].
  exists rd'. split.
  - rewrite nth_error_app1; [exact Hi'|].
    apply nth_error_Some. rewrite Hi'. discriminate.
  - destruct Hk as [-> | Hk]; assumption.
Qed.

Lemma closing_step_open_origin st st' i rd' :
  closing_step st st' ->
  nth_error (recurring_donations st') i = Some rd' ->
  RecurringDonation.open_ended_status rd' = "Open" ->
  nth_error (recurring_donations st) i = Some rd'
  \/ (List.length (recurring_donations st) <= i)%nat.
Proof.
  intros [l1 [l2 [E H]]] Hi Ho. rewrite E in Hi.
  destruct (Nat.lt_ge_cases i (List.length (recurring_donations st)))
    as [Hlt | Hge]; [left | right; exact Hge].
  rewrite (Forall2_length H) in Hlt.
  rewrite nth_error_app1 in Hi by exact Hlt.
  destruct (Forall2_nth_error_right _ _ _ _ _ H Hi) as [rd [Hrd [-> | Hk]]].
  - exact Hrd.
  - rewrite Hk in Ho. discriminate.
Qed.

(** ** Lists: searching, replacing and counting *)

Lemma find_app_last {A} (p : A -> bool) (l : list A) (x : A) :
  find p (l ++ [x]) =
  match find p l with
  | Some y => Some y
  | None => if p x then Some x else None
  end.
Proof.
  induction l as [|y l IH]; simpl; [reflexivity|].
  destruct (p y); [reflexivity | exact IH].
Qed.

Lemma replace_where_idem {A} (p : A -> bool) (x : A) (l : list A) :
  replace_where p x (replace_where p x l) = replace_where p x l.
Proof.
  induction l as [|y l IH]; simpl; [reflexivity|].
  rewrite IH. destruct (p y) eqn:E; [|rewrite E; reflexivity].
  destruct (p x); reflexivity.
Qed.

Lemma replace_where_none {A} (p : A -> bool) (x : A) (l : list A) :
  (forall y, In y l -> p y = false) -> replace_where p x l = l.
Proof.
  induction l as [|y l IH]; intros H; simpl; [reflexivity|].
  rewrite (H y (or_introl eq_refl)), IH; [reflexivity|].
  intros z Hz. apply H. right. exact Hz.
Qed.

Lemma replace_where_split {A} (p : A -> bool) (x y : A) (a b : list A) :
  (forall z, In z a -> p z = false) -> (forall z, In z b -> p z = false) ->
  p y = true ->
  replace_where p x (a ++ y :: b) = (a ++ x :: b)%list.
Proof.
  intros Ha Hb Hy. induction a as [|z a IH]; simpl.
  - rewrite Hy, (replace_where_none p x b Hb). reflexivity.
  - rewrite (Ha z (or_introl eq_refl)), IH; [reflexivity|].
    intros w Hw. apply Ha. right. exact Hw.
Qed.

(** Searching after a replacement: when the record found is one of those
    replaced, and its replacement still satisfies the search, the search
    finds the replacement. *)
Lemma find_replace_where {A} (q p : A -> bool) (x y : A) (l : list A) :
  find q l = Some y -> p y = true -> q x = true ->
  find q (replace_where p x l) = Some x.
Proof.
  intros Hf Hp Hq. induction l as [|z l IH]; simpl in *; [discriminate|].
  destruct (q z) eqn:Ez.
  - injection Hf as ->. rewrite Hp, Hq. reflexivity.
  - destruct (p z); [rewrite Hq; reflexivity|].
    rewrite Ez. apply IH. exact Hf.
Qed.

Lemma split_unique {A} (l1 l2 m1 m2 : list A) (y : A) :
  ~ In y l1 -> ~ In y m1 ->
  (l1 ++ y :: l2 = m1 ++ y :: m2)%list -> l1 = m1 /\ l2 = m2.
Proof.
  revert m1. induction l1 as [|x l1 IH]; intros [|z m1] H1 H2 E; simpl in *.
  - injection E as ->. auto.
  - injection E as -> _. exfalso. apply H2. left. reflexivity.
  - injection E as -> _. exfalso. apply H1. left. reflexivity.
  - injection E as -> E.
    destruct (IH m1) as [-> ->]; auto.
Qed.

(** In a list without duplicate ids, an element splits the list into two
    parts that hold no other record with its id. *)
Lemma NoDup_ids_split (l : list Opportunity.t) (y : Opportunity.t) :
  NoDup (map Opportunity.id_ l) -> In y l ->
  exists a b, l = (a ++ y :: b)%list
    /\ (forall z, In z a -> Opportunity.id_ z <> Opportunity.id_ y)
    /\ (forall z, In z b -> Opportunity.id_ z <> Opportunity.id_ y).
Proof.
  intros Hnd Hin. apply in_split in Hin as [a [b ->]].
  exists a, b. split; [reflexivity|].
  rewrite map_app in Hnd. simpl in Hnd.
  apply NoDup_remove_2 in Hnd.
  split; intros z Hz E; apply Hnd; rewrite <- E; apply in_or_app;
    [left | right]; apply in_map; exact Hz.
Qed.

Lemma id_is_false_of_neq (i : Id) (x : option Id) :
  x <> Some i -> id_is i x = false.
Proof.
  intros H. destruct x as [j|]; simpl; [|reflexivity].
  destruct (Nat.eqb_spec j i); [subst; contradiction | reflexivity].
Qed.

Lemma id_is_refl (i : Id) : id_is i (Some i) = true.
Proof. simpl. apply Nat.eqb_refl. Qed.

Lemma id_is_true (i : Id) (x : option Id) : id_is i x = true -> x = Some i.
Proof.
  destruct x as [j|]; simpl; [|discriminate].
  intros H. apply Nat.eqb_eq in H. subst. reflexivity.
Qed.

Lemma count_carrying_app tid (l1 l2 : list Opportunity.t) :
  List.length (filter (carries tid) (l1 ++ l2))
  = (List.length (filter (carries tid) l1)
     + List.length (filter (carries tid) l2))%nat.
Proof. rewrite filter_app, length_app. reflexivity. Qed.

Lemma count_carrying_zero tid (l : list Opportunity.t) (o : Opportunity.t) :
  List.length (filter (carries tid) l) = 0%nat -> In o l ->
  carries tid o = false.
Proof.
  intros H Hin. destruct (carries tid o) eqn:E; [|reflexivity].
  assert (Hf : In o (filter (carries tid) l)) by (apply filter_In; auto).
  destruct (filter (carries tid) l); [contradiction | discriminate].
Qed.

(** ** Running the monad *)

Lemma bind_Ok {A B} (c : M A) (k : A -> M B) st st' a :
  c st = (st', Ok a) -> bind c k st = k a st'.
Proof. intros H. unfold bind. rewrite H. reflexivity. Qed.

Lemma bind_Raise {A B} (c : M A) (k : A -> M B) st st' e :
  c st = (st', Raise e) -> bind c k st = (st', Raise e).
Proof. intros H. unfold bind. rewrite H. reflexivity. Qed.

Lemma bind_lift {A B} (r : result A) (k : A -> M B) st :
  bind (lift r) k st =
  match r with Ok a => k a st | Raise e => (st, Raise e) end.
Proof. unfold bind, lift. destruct r; reflexivity. Qed.

Lemma Contact_upsert_spec c st :
  exists st0 c0,
    Contact_upsert c st = (st0, Ok c0)
    /\ opportunities st0 = opportunities st
    /\ recurring_donations st0 = recurring_donations st
    /\ (next_id st <= next_id st0)%nat.
Proof.
  unfold Contact_upsert. destruct (find _ (contacts st)).
  - do 2 eexists. split; [reflexivity|]. auto.
  - do 2 eexists. split; [reflexivity|]. simpl. repeat split; lia.
Qed.

Lemma Opportunity_upsert_spec o st :
  Opportunity.id_ o = None ->
  exists st1 o',
    Opportunity_upsert o st = (st1, Ok o')
    /\ recurring_donations st1 = recurring_donations st
    /\ ((find (fun x => option_string_eqb
                          (Opportunity.paypal_transaction_id x)
                          (Opportunity.paypal_transaction_id o))
              (opportunities st) = Some o'
         /\ opportunities st1 = opportunities st)
        \/ (find (fun x => option_string_eqb
                             (Opportunity.paypal_transaction_id x)
                             (Opportunity.paypal_transaction_id o))
                 (opportunities st) = None
            /\ o' = Opportunity.set_id o (Some (next_id st))
            /\ opportunities st1 = (opportunities st ++ [o'])%list)).
Proof.
  intros Hid. unfold Opportunity_upsert, bind, Opportunity_get.
  destruct (find _ (opportunities st)) as [o'|] eqn:E.
  - exists st, o'. unfold ret. auto.
  - unfold Opportunity_save. rewrite Hid.
    do 2 eexists. split; [reflexivity|]. simpl. split; [reflexivity|].
    right. auto.
Qed.

(** ** A standalone Opportunity, twice *)

Lemma carries_opportunity_from_paypal_transaction t c org :
  Opportunity.paypal_transaction_id
    (opportunity_from_paypal_transaction t c org)
  = Some (PaypalTransaction.id_ t).
Proof. reflexivity. Qed.

(** Once an Opportunity carries the transaction id, the standalone path
    does not touch the Opportunities any more. *)
Lemma process_as_single_opportunity_settled t org sub st o :
  find (carries (PaypalTransaction.id_ t)) (opportunities st) = Some o ->
  opportunities (fst (process_as_single_opportunity t org sub st))
  = opportunities st.
Proof.
  intros Hfind. unfold process_as_single_opportunity.
  rewrite bind_lift. destruct (find_email t sub); [|reflexivity].
  rewrite bind_lift.
  destruct (contact_from_paypal_transaction t a org) as [c|]; [|reflexivity].
  destruct (Contact_upsert_spec c st) as [st0 [c0 [Hc [Ho _]]]].
  rewrite (bind_Ok _ _ _ _ _ Hc).
  destruct (Opportunity_upsert_spec
              (opportunity_from_paypal_transaction t c0 org) st0 eq_refl)
    as [st1 [o' [Hu [_ Hcase]]]].
  rewrite (bind_Ok _ _ _ _ _ Hu). simpl.
  destruct Hcase as [[_ H1] | [Hnone _]].
  - rewrite H1. exact Ho.
  - rewrite Ho in Hnone. unfold carries in Hfind. simpl in Hnone.
    rewrite Hfind in Hnone. discriminate.
Qed.

Lemma process_as_single_opportunity_twice t org sub st st1 r :
  process_as_single_opportunity t org sub st = (st1, r) ->
  opportunities_change (PaypalTransaction.id_ t)
    (opportunities st) (opportunities st1) r
  /\ recurring_donations st1 = recurring_donations st
  /\ opportunities_stable (process_as_single_opportunity t org sub)
                          (opportunities st1).
Proof.
  unfold process_as_single_opportunity at 1.
  rewrite bind_lift. destruct (find_email t sub) as [e|err] eqn:He.
  2:{ intros H. injection H as <- <-. split; [|split; [reflexivity|]].
      - left. split; [reflexivity|]. left. eauto.
      - intros st' Hst'. unfold process_as_single_opportunity.
        rewrite bind_lift, He. exact Hst'. }
  rewrite bind_lift.
  destruct (contact_from_paypal_transaction t e org) as [c|err] eqn:Hcf.
  2:{ intros H. injection H as <- <-. split; [|split; [reflexivity|]].
      - left. split; [reflexivity|]. left. eauto.
      - intros st' Hst'. unfold process_as_single_opportunity.
        rewrite bind_lift, He, bind_lift, Hcf. exact Hst'. }
  destruct (Contact_upsert_spec c st) as [st0 [c0 [Hc [Ho [Hr _]]]]].
  rewrite (bind_Ok _ _ _ _ _ Hc).
  destruct (Opportunity_upsert_spec
              (opportunity_from_paypal_transaction t c0 org) st0 eq_refl)
    as [st' [o' [Hu [Hr' Hcase]]]].
  rewrite (bind_Ok _ _ _ _ _ Hu). unfold ret.
  intros H. injection H as <- <-.
  assert (Hfound : exists o, find (carries (PaypalTransaction.id_ t))
                                  (opportunities st') = Some o).
  { destruct Hcase as [[Hf ->] | [Hf [Ho' ->]]].
    - exists o'. exact Hf.
    - exists o'. rewrite find_app_last.
      change (find (carries (PaypalTransaction.id_ t)) (opportunities st0))
        with (find (fun x => option_string_eqb
                       (Opportunity.paypal_transaction_id x)
                       (Opportunity.paypal_transaction_id
                          (opportunity_from_paypal_transaction t c0 org)))
                   (opportunities st0)).
      rewrite Hf, Ho'. unfold carries. simpl.
      rewrite String.eqb_refl. reflexivity. }
  split; [|split].
  - destruct Hcase as [[Hf ->] | [Hf [Ho' ->]]].
    + left. rewrite Ho. split; [reflexivity|]. right.
      apply find_some in Hf as [Hin Hcar]. rewrite Ho in Hin.
      exists o'. split; [exact Hin | exact Hcar].
    + right. left. exists o'. rewrite Ho. split; [reflexivity|].
      rewrite Ho'. unfold carries. simpl. apply String.eqb_refl.
  - rewrite Hr'. exact Hr.
  - destruct Hfound as [o Hfo]. intros st2 Hst2.
    rewrite <- Hst2 in Hfo.
    rewrite (process_as_single_opportunity_settled t org sub st2 o Hfo).
    exact Hst2.
Qed.

(** ** Updating the closest installment, twice *)

Lemma find_closest_opportunity_Ok_inv l t org y :
  find_closest_opportunity l t org = Ok y ->
  exists l1 l2,
    l = (l1 ++ y :: l2)%list
    /\ (forall x, In x l1 -> days_delta t y < days_delta t x)
    /\ (forall x, In x l2 -> days_delta t y <= days_delta t x)
    /\ days_delta t y <= 10.
Proof.
  rewrite find_closest_opportunity_unfold.
  destruct l as [|b l]; [discriminate|]. cbv zeta.
  destruct (min_from_decompose (days_delta t) b l) as [l1 [l2 [Hs [H1 H2]]]].
  destruct (days_delta t (min_from (days_delta t) b l) >? 10) eqn:E;
    [discriminate|].
  intros H. injection H as <-.
  exists l1, l2. repeat split; try assumption.
  rewrite Z.gtb_ltb in E. apply Z.ltb_ge in E. exact E.
Qed.

Lemma find_closest_opportunity_Raise_inv l t org e :
  find_closest_opportunity l t org = Raise e ->
  (e = ValueError /\ l = [])
  \/ (exists d, e = DateRangeToleranceExceeded d)
     /\ l <> [] /\ forall x, In x l -> 10 < days_delta t x.
Proof.
  rewrite find_closest_opportunity_unfold.
  destruct l as [|b l]; [intros H; injection H as <-; auto|]. cbv zeta.
  destruct (days_delta t (min_from (days_delta t) b l) >? 10) eqn:E;
    [|discriminate].
  intros H. injection H as <-. right.
  split; [eauto|]. split; [discriminate|].
  intros x Hx. rewrite Z.gtb_ltb in E. apply Z.ltb_lt in E.
  pose proof (min_from_le (days_delta t) b l x Hx). lia.
Qed.

Lemma days_delta_nonneg t o : 0 <= days_delta t o.
Proof. unfold days_delta. apply Z.abs_nonneg. Qed.

Lemma days_delta_updated t o : days_delta t (updated_opportunity o t) = 0.
Proof. unfold days_delta. simpl. rewrite Z.sub_diag. reflexivity. Qed.

Lemma updated_opportunity_idem o t :
  updated_opportunity (updated_opportunity o t) t = updated_opportunity o t.
Proof. reflexivity. Qed.

Lemma store_eta st :
  mkStore (contacts st) (opportunities st) (recurring_donations st)
          (next_id st) = st.
Proof. destruct st. reflexivity. Qed.

(** On settled installments the update writes nothing new. *)
Lemma update_closest_opportunity_settled t org rd st :
  settled t org (RecurringDonation.id_ rd) (opportunities st) ->
  update_closest_opportunity t org rd st = (st, Ok tt).
Proof.
  intros [y [i [Hfc [Hup [Hid Hrep]]]]].
  unfold update_closest_opportunity.
  unfold bind at 1. unfold RecurringDonation_opportunities at 1.
  rewrite bind_lift, Hfc.
  unfold update_opportunity, bind, Opportunity_save.
  rewrite Hup, Hid, Hrep, store_eta. reflexivity.
Qed.

Lemma update_closest_opportunity_twice t org rd st st1 r :
  NoDup (map Opportunity.id_ (opportunities st)) ->
  Forall (fun o => saved_below (next_id st) (Opportunity.id_ o))
         (opportunities st) ->
  update_closest_opportunity t org rd st = (st1, r) ->
  (exists e, r = Raise e /\ st1 = st
             /\ find_closest_opportunity
                  (filter (linked_to (RecurringDonation.id_ rd))
                          (opportunities st)) t org = Raise e)
  \/ (r = Ok tt
      /\ recurring_donations st1 = recurring_donations st
      /\ (exists a y b,
             opportunities st = (a ++ y :: b)%list
             /\ opportunities st1 = (a ++ updated_opportunity y t :: b)%list)
      /\ settled t org (RecurringDonation.id_ rd) (opportunities st1)).
Proof.
  intros Hnd Hsaved.
  unfold update_closest_opportunity.
  unfold bind at 1. unfold RecurringDonation_opportunities at 1.
  rewrite bind_lift.
  destruct (find_closest_opportunity _ t org) as [y|e] eqn:Hfc.
  2:{ intros H. injection H as <- <-. left. eauto. }
  intros Hrun. right.
  destruct (find_closest_opportunity_Ok_inv _ _ _ _ Hfc)
    as [l1 [l2 [Hsplit [H1 [H2 H10]]]]].
  assert (Hy : In y (filter (linked_to (RecurringDonation.id_ rd))
                            (opportunities st))).
  { rewrite Hsplit. apply in_or_app. right. left. reflexivity. }
  apply filter_In in Hy as [Hin Hlinked].
  rewrite Forall_forall in Hsaved.
  destruct (Hsaved y Hin) as [i [Hid _]].
  destruct (NoDup_ids_split _ _ Hnd Hin) as [a [b [Hab [Ha Hb]]]].
  set (p := fun o : Opportunity.t => id_is i (Opportunity.id_ o)).
  assert (Hpa : forall z, In z a -> p z = false).
  { intros z Hz. apply id_is_false_of_neq. rewrite <- Hid. apply Ha, Hz. }
  assert (Hpb : forall z, In z b -> p z = false).
  { intros z Hz. apply id_is_false_of_neq. rewrite <- Hid. apply Hb, Hz. }
  assert (Hpy : p y = true) by (unfold p; rewrite Hid; apply id_is_refl).
  unfold update_opportunity, bind, Opportunity_save in Hrun.
  change (Opportunity.id_ (updated_opportunity y t))
    with (Opportunity.id_ y) in Hrun.
  rewrite Hid in Hrun. unfold ret in Hrun. injection Hrun as <- <-.
  simpl. fold p.
  assert (Hnew : replace_where p (updated_opportunity y t) (opportunities st)
                 = (a ++ updated_opportunity y t :: b)%list).
  { rewrite Hab. apply replace_where_split; assumption. }
  split; [reflexivity|]. split; [reflexivity|]. split.
  { exists a, y, b. split; [exact Hab | exact Hnew]. }
  exists (updated_opportunity y t), i.
  split; [|split; [reflexivity|split; [exact Hid|]]].
  - rewrite Hnew, filter_app. simpl.
    change (linked_to (RecurringDonation.id_ rd) (updated_opportunity y t))
      with (linked_to (RecurringDonation.id_ rd) y).
    rewrite Hlinked.
    rewrite Hab, filter_app in Hsplit. simpl in Hsplit.
    rewrite Hlinked in Hsplit.
    apply split_unique in Hsplit as [Hl1 Hl2].
    + apply find_closest_opportunity_of_first_min.
      * intros x Hx. rewrite days_delta_updated.
        rewrite Hl1 in Hx. specialize (H1 x Hx).
        pose proof (days_delta_nonneg t y). lia.
      * intros x Hx. rewrite days_delta_updated. apply days_delta_nonneg.
      * rewrite days_delta_updated. lia.
    + intros Hc. apply filter_In in Hc as [Hc _].
      apply (Ha y Hc). reflexivity.
    + intros Hc. specialize (H1 y Hc). lia.
  - fold p. apply replace_where_idem.
Qed.

(** ** A new installment, and the [try] / [except] statement, twice *)

Lemma update_closest_opportunity_raise t org rd st e :
  find_closest_opportunity
    (filter (linked_to (RecurringDonation.id_ rd)) (opportunities st)) t org
  = Raise e ->
  update_closest_opportunity t org rd st = (st, Raise e).
Proof.
  intros H. unfold update_closest_opportunity.
  unfold bind at 1. unfold RecurringDonation_opportunities at 1.
  rewrite bind_lift, H. reflexivity.
Qed.

Lemma settled_stable t sub org rd l :
  settled t org (RecurringDonation.id_ rd) l ->
  opportunities_stable (update_or_create_installment t sub org rd) l.
Proof.
  intros Hs st Hst. rewrite <- Hst in Hs.
  unfold update_or_create_installment, try_except_DateRangeToleranceExceeded.
  rewrite (update_closest_opportunity_settled t org rd st Hs). exact Hst.
Qed.

Lemma create_linked_opportunity_result t sub org rd st st1 r :
  create_linked_opportunity t sub org rd st = (st1, r) ->
  recurring_donations st1 = recurring_donations st
  /\ ((exists e, r = Raise e /\ opportunities st1 = opportunities st
                 /\ forall rd' st',
                      opportunities
                        (fst (create_linked_opportunity t sub org rd' st'))
                      = opportunities st')
      \/ (r = Ok tt
          /\ exists y n,
               opportunities st1 = (opportunities st ++ [y])%list
               /\ updated_opportunity y t = y
               /\ Opportunity.id_ y = Some n
               /\ (next_id st <= n)%nat
               /\ Opportunity.recurring_donation_id y
                  = RecurringDonation.id_ rd)).
Proof.
  unfold create_linked_opportunity at 1.
  rewrite bind_lift.
  destruct (find_email t (Some sub)) as [e|err] eqn:He.
  2:{ intros H. injection H as <- <-. split; [reflexivity|]. left.
      eexists. repeat split. intros rd' st'.
      unfold create_linked_opportunity. rewrite bind_lift, He. reflexivity. }
  rewrite bind_lift.
  destruct (contact_from_paypal_transaction t e org) as [c|err] eqn:Hcf.
  2:{ intros H. injection H as <- <-. split; [reflexivity|]. left.
      eexists. repeat split. intros rd' st'.
      unfold create_linked_opportunity.
      rewrite bind_lift, He, bind_lift, Hcf. reflexivity. }
  destruct (Contact_upsert_spec c st) as [st0 [c0 [Hc [Ho [Hr Hn]]]]].
  rewrite (bind_Ok _ _ _ _ _ Hc).
  destruct (PaypalSubscription.installment_period sub) as [period|] eqn:Hp.
  2:{ intros H. injection H as <- <-. split; [exact Hr|]. left.
      eexists. repeat split; [exact Ho|]. intros rd' st'.
      unfold create_linked_opportunity.
      rewrite bind_lift, He, bind_lift, Hcf.
      destruct (Contact_upsert_spec c st') as [st0' [c0' [Hc' [Ho' _]]]].
      rewrite (bind_Ok _ _ _ _ _ Hc'), Hp. exact Ho'. }
  unfold update_opportunity, bind, Opportunity_save, ret. simpl.
  intros H. injection H as <- <-. simpl. split; [exact Hr|]. right.
  split; [reflexivity|].
  eexists _, (next_id st0). rewrite Ho.
  split; [reflexivity|]. repeat split. exact Hn.
Qed.

Lemma linked_to_witness rid (o : Opportunity.t) :
  linked_to rid o = true ->
  exists i, rid = Some i /\ Opportunity.recurring_donation_id o = Some i.
Proof.
  destruct rid as [i|]; simpl; [|discriminate].
  intros H. apply id_is_true in H. eauto.
Qed.

Lemma update_or_create_installment_twice t sub org rd st st1 r :
  NoDup (map Opportunity.id_ (opportunities st)) ->
  Forall (fun o => saved_below (next_id st) (Opportunity.id_ o))
         (opportunities st) ->
  update_or_create_installment t sub org rd st = (st1, r) ->
  opportunities_change (PaypalTransaction.id_ t)
    (opportunities st) (opportunities st1) r
  /\ recurring_donations st1 = recurring_donations st
  /\ forall rd', RecurringDonation.id_ rd' = RecurringDonation.id_ rd ->
       opportunities_stable (update_or_create_installment t sub org rd')
                            (opportunities st1).
Proof.
  intros Hnd Hsaved.
  unfold update_or_create_installment at 1.
  unfold try_except_DateRangeToleranceExceeded.
  destruct (update_closest_opportunity t org rd st) as [sta ra] eqn:Huc.
  destruct (update_closest_opportunity_twice _ _ _ _ _ _ Hnd Hsaved Huc)
    as [[e [-> [-> Hfc]]] | [-> [Hr [[a [y [b [Hab Hab1]]]] Hsettled]]]].
  - (* the matcher raised *)
    assert (Hraise : forall rd' st',
               RecurringDonation.id_ rd' = RecurringDonation.id_ rd ->
               opportunities st' = opportunities st ->
               update_closest_opportunity t org rd' st' = (st', Raise e)).
    { intros rd' st' Hid Hst'. apply update_closest_opportunity_raise.
      rewrite Hid, Hst'. exact Hfc. }
    destruct (find_closest_opportunity_Raise_inv _ _ _ _ Hfc)
      as [[-> _] | [[d ->] [Hne Hfar]]].
    + intros H. injection H as <- <-. split; [|split; [reflexivity|]].
      * left. split; [reflexivity|]. left. eauto.
      * intros rd' Hid st' Hst'.
        unfold update_or_create_installment,
          try_except_DateRangeToleranceExceeded.
        rewrite (Hraise rd' st' Hid Hst'). exact Hst'.
    + intros Hcreate.
      destruct (create_linked_opportunity_result _ _ _ _ _ _ _ Hcreate)
        as [Hr [[e [-> [Ho Hall]]] | [-> [y [n [Ho [Hup [Hid [Hn Hlink]]]]]]]]].
      * split; [|split; [exact Hr|]].
        -- left. split; [exact Ho|]. left. eauto.
        -- intros rd' Hid st' Hst'.
           unfold update_or_create_installment,
             try_except_DateRangeToleranceExceeded.
           rewrite Ho in Hst'.
           rewrite (Hraise rd' st' Hid Hst'), Hall, Hst', Ho. reflexivity.
      * assert (Hcar : carries (PaypalTransaction.id_ t) y = true).
        { rewrite <- Hup. unfold carries. simpl. apply String.eqb_refl. }
        split; [|split; [exact Hr|]].
        -- right. left. exists y. split; [exact Ho | exact Hcar].
        -- intros rd' Hid'. apply settled_stable.
           rewrite Hid', Ho. exists y, n.
           assert (Hly : linked_to (RecurringDonation.id_ rd) y = true).
           { destruct (filter (linked_to (RecurringDonation.id_ rd))
                              (opportunities st)) as [|x l] eqn:Ef;
               [contradiction|].
             assert (Hx : In x (filter (linked_to (RecurringDonation.id_ rd))
                                       (opportunities st)))
               by (rewrite Ef; left; reflexivity).
             apply filter_In in Hx as [_ Hx].
             apply linked_to_witness in Hx as [i [Hi _]].
             rewrite Hi in *. simpl. rewrite Hlink. apply id_is_refl. }
           split; [|split; [exact Hup|split; [exact Hid|]]].
           ++ rewrite filter_app. simpl. rewrite Hly.
              apply find_closest_opportunity_of_first_min.
              ** intros x Hx. specialize (Hfar x Hx).
                 rewrite <- Hup, days_delta_updated. lia.
              ** intros x [].
              ** rewrite <- Hup, days_delta_updated. lia.
           ++ apply replace_where_split.
              ** intros z Hz. apply id_is_false_of_neq.
                 rewrite Forall_forall in Hsaved.
                 destruct (Hsaved z Hz) as [j [-> Hj]].
                 intros E. injection E as ->. lia.
              ** intros z [].
              ** rewrite Hid. apply id_is_refl.
  - (* the closest installment was updated *)
    intros H. injection H as <- <-. split; [|split; [exact Hr|]].
    + right. right. exists a, y, (updated_opportunity y t), b.
      split; [exact Hab|]. split; [exact Hab1|].
      unfold carries. simpl. apply String.eqb_refl.
    + intros rd' Hid'. apply settled_stable. rewrite Hid'. exact Hsettled.
Qed.

(** ** A subscription payment, twice *)



Lemma close_if_cancelled_spec (sub : PaypalSubscription.t) k rd i st :
  RecurringDonation.id_ rd = Some i ->
  find (by_paypal_subscription_id k) (recurring_donations st) = Some rd ->
  exists st' rd',
    (if String.eqb (PaypalSubscription.status sub) "CANCELLED"
     then RecurringDonation_save
            (RecurringDonation.set_open_ended_status rd "Closed")
     else ret rd) st = (st', Ok rd')
    /\ opportunities st' = opportunities st
    /\ next_id st' = next_id st
    /\ RecurringDonation.id_ rd' = Some i
    /\ find (by_paypal_subscription_id k) (recurring_donations st')
       = Some rd'.
Proof.
  intros Hid Hfind.
  destruct (String.eqb (PaypalSubscription.status sub) "CANCELLED").
  - unfold RecurringDonation_save.
    change (RecurringDonation.id_
              (RecurringDonation.set_open_ended_status rd "Closed"))
      with (RecurringDonation.id_ rd).
    rewrite Hid. do 2 eexists. split; [reflexivity|]. simpl.
    repeat split; [exact Hid|].
    apply (find_replace_where _ _ _ rd); [exact Hfind | |].
    + unfold by_id. rewrite Hid. apply id_is_refl.
    + apply find_some in Hfind as [_ Hq]. exact Hq.
  - exists st, rd. unfold ret. auto.
Qed.

Lemma process_subscription_payment_not_found t sub org st :
  find (by_paypal_subscription_id (PaypalTransaction.reference_id t))
       (recurring_donations st) = None ->
  process_subscription_payment t sub org st =
  if standalone_fallback sub
  then process_as_single_opportunity t org (Some sub) st
  else (rd <- create_recurring_donation t sub org ;;
        update_or_create_installment t sub org rd) st.
Proof.
  intros Hnone. unfold process_subscription_payment, standalone_fallback.
  unfold bind at 1. unfold RecurringDonation_get at 1. rewrite Hnone.
  simpl.
  destruct (String.eqb (PaypalSubscription.status sub) "CANCELLED") eqn:Ec;
    [reflexivity|].
  destruct (String.eqb (PaypalSubscription.status sub) "SUSPENDED");
    [reflexivity|].
  destruct (is_none (PaypalSubscription.installment_period sub));
    [reflexivity|].
  simpl. unfold bind. destruct (create_recurring_donation t sub org st)
    as [st' [rd|e]]; reflexivity.
Qed.

Lemma process_subscription_payment_found t sub org st rd :
  find (by_paypal_subscription_id (PaypalTransaction.reference_id t))
       (recurring_donations st) = Some rd ->
  process_subscription_payment t sub org st =
  (rd' <- (if String.eqb (PaypalSubscription.status sub) "CANCELLED"
           then RecurringDonation_save
                  (RecurringDonation.set_open_ended_status rd "Closed")
           else ret rd) ;;
   update_or_create_installment t sub org rd') st.
Proof.
  intros Hsome. unfold process_subscription_payment.
  unfold bind at 1. unfold RecurringDonation_get at 1. rewrite Hsome.
  reflexivity.
Qed.


Lemma standalone_fallback_not_cancelled sub :
  standalone_fallback sub = false ->
  String.eqb (PaypalSubscription.status sub) "CANCELLED" = false.
Proof.
  unfold standalone_fallback. intros H.
  apply orb_false_iff in H as [H _]. apply orb_false_iff in H as [H _].
  exact H.
Qed.


(** ** A refund, twice *)

Lemma process_refund_twice t org ppc st st1 r tid :
  wf_store st ->
  process_refund t org ppc st = (st1, r) ->
  count_carrying tid st1 = count_carrying tid st
  /\ opportunities (fst (process_refund t org ppc st1)) = opportunities st1.
Proof.
  intros Hwf. unfold process_refund at 1.
  unfold bind at 1. unfold Opportunity_get at 1.
  destruct (find _ (opportunities st)) as [o|] eqn:Hfind.
  2:{ intros H. injection H as <- <-. split; [reflexivity|].
      unfold process_refund, bind, Opportunity_get. rewrite Hfind.
      reflexivity. }
  pose proof Hfind as Hf. apply find_some in Hf as [Hin Hq].
  pose proof (wf_opportunity_ids st Hwf) as Hids.
  rewrite Forall_forall in Hids. destruct (Hids o Hin) as [i [Hid _]].
  destruct (NoDup_ids_split _ _ (wf_opportunity_nodup st Hwf) Hin)
    as [a [b [Hab [Ha Hb]]]].
  set (o' := Opportunity.set_stage_name o "Refunded").
  set (p := fun x : Opportunity.t => id_is i (Opportunity.id_ x)).
  assert (Hsave : forall l,
             Opportunity_save o'
               (mkStore (contacts st) l (recurring_donations st) (next_id st))
             = (mkStore (contacts st) (replace_where p o' l)
                        (recurring_donations st) (next_id st), Ok o')).
  { intros l. unfold Opportunity_save.
    change (Opportunity.id_ o') with (Opportunity.id_ o). rewrite Hid.
    reflexivity. }
  pose proof (Hsave (opportunities st)) as Hs. rewrite store_eta in Hs.
  rewrite (bind_Ok _ _ _ _ _ Hs).
  pose proof (close_refunded_series_store o' org ppc
                (mkStore (contacts st) (replace_where p o' (opportunities st))
                         (recurring_donations st) (next_id st))) as Htail.
  destruct (close_refunded_series o' org ppc _) as [st' r'].
  simpl in Htail. intros H. injection H as <- <-. subst st'.
  assert (Hnew : replace_where p o' (opportunities st) = (a ++ o' :: b)%list).
  { rewrite Hab. apply replace_where_split.
    - intros z Hz. apply id_is_false_of_neq. rewrite <- Hid. apply Ha, Hz.
    - intros z Hz. apply id_is_false_of_neq. rewrite <- Hid. apply Hb, Hz.
    - unfold p. rewrite Hid. apply id_is_refl. }
  split.
  - unfold count_carrying. simpl. rewrite Hnew, Hab.
    rewrite !count_carrying_app. simpl.
    change (carries tid o') with (carries tid o).
    destruct (carries tid o); reflexivity.
  - unfold process_refund. unfold bind at 1. unfold Opportunity_get at 1.
    simpl opportunities at 1.
    rewrite (find_replace_where _ p o' o _ Hfind);
      [| unfold p; rewrite Hid; apply id_is_refl | exact Hq].
    change (Opportunity.set_stage_name o' "Refunded") with o'.
    rewrite (bind_Ok _ _ _ _ _ (Hsave _)).
    rewrite replace_where_idem.
    match goal with
    | |- context [close_refunded_series ?x ?y ?z ?w] =>
        pose proof (close_refunded_series_store x y z w) as Htail2;
        destruct (close_refunded_series x y z w) as [st' r2]
    end.
    simpl in Htail2. subst st'. reflexivity.
Qed.

(** ** The entry point, twice *)



Lemma code_in_In code codes : code_in code codes = true -> In code codes.
Proof.
  unfold code_in. intros H. apply existsb_exists in H as [c [Hin Heq]].
  apply String.eqb_eq in Heq. subst. exact Hin.
Qed.








(** ** New RecurringDonations

    Which handlers leave the stored RecurringDonations alone, and what a
    RecurringDonation that a handler appends looks like. *)

Lemma same_recurring_donations_refl st : same_recurring_donations st st.
Proof. reflexivity. Qed.

Lemma same_recurring_donations_trans a b c :
  same_recurring_donations a b -> same_recurring_donations b c ->
  same_recurring_donations a c.
Proof. unfold same_recurring_donations. intros H1 H2. congruence. Qed.

Lemma Contact_upsert_same c :
  preserves same_recurring_donations (Contact_upsert c).
Proof.
  intro st. unfold same_recurring_donations, Contact_upsert.
  destruct (find _ (contacts st)); reflexivity.
Qed.

Lemma Opportunity_save_same o :
  preserves same_recurring_donations (Opportunity_save o).
Proof.
  intro st. unfold same_recurring_donations, Opportunity_save.
  destruct (Opportunity.id_ o); reflexivity.
Qed.

Ltac same_recurring_donations_tac :=
  repeat first
    [ preserves_step same_recurring_donations_refl
                     same_recurring_donations_trans
    | apply Contact_upsert_same
    | apply Opportunity_save_same ].

Lemma process_as_single_opportunity_same t org sub :
  preserves same_recurring_donations
            (process_as_single_opportunity t org sub).
Proof.
  unfold process_as_single_opportunity, Opportunity_upsert.
  same_recurring_donations_tac.
Qed.

Lemma update_closest_opportunity_same t org rd :
  preserves same_recurring_donations (update_closest_opportunity t org rd).
Proof.
  unfold update_closest_opportunity, update_opportunity.
  same_recurring_donations_tac.
Qed.

Lemma update_or_create_installment_same t sub org rd :
  preserves same_recurring_donations
            (update_or_create_installment t sub org rd).
Proof.
  unfold update_or_create_installment, update_closest_opportunity,
    create_linked_opportunity, update_opportunity.
  same_recurring_donations_tac.
Qed.

(** What [create_recurring_donation] leaves in the store: nothing new
    when it raises, and otherwise one more RecurringDonation, the one
    [recurring_donation_from_paypal_subscription] built, under a new
    id. *)
Lemma create_recurring_donation_built t sub org st :
  (exists e, snd (create_recurring_donation t sub org st) = Raise e
             /\ recurring_donations (fst (create_recurring_donation
                                            t sub org st))
                = recurring_donations st)
  \/ (exists c r n,
        recurring_donation_from_paypal_subscription
          sub (PaypalTransaction.transaction_date t) c org = Ok r
        /\ snd (create_recurring_donation t sub org st)
           = Ok (RecurringDonation.set_id r (Some n))
        /\ recurring_donations (fst (create_recurring_donation t sub org st))
           = (recurring_donations st
              ++ [RecurringDonation.set_id r (Some n)])%list).
Proof.
  unfold create_recurring_donation. rewrite bind_lift.
  destruct (find_email t (Some sub)) as [e|err];
    [|left; exists err; split; reflexivity].
  rewrite bind_lift.
  destruct (contact_from_paypal_transaction t e org) as [c|err];
    [|left; exists err; split; reflexivity].
  destruct (Contact_upsert_spec c st) as [st0 [c0 [Hc [_ [Hr _]]]]].
  rewrite (bind_Ok _ _ _ _ _ Hc), bind_lift.
  destruct (recurring_donation_from_paypal_subscription sub _ c0 org)
    as [rd|err] eqn:Hrd; [|left; exists err; split; [reflexivity|exact Hr]].
  right. exists c0, rd, (next_id st0). split; [exact Hrd|].
  unfold RecurringDonation_save.
  rewrite (recurring_donation_from_paypal_subscription_unsaved _ _ _ _ _ Hrd).
  simpl. rewrite Hr. split; reflexivity.
Qed.

Lemma length_replace_where {A} (p : A -> bool) (x : A) (l : list A) :
  List.length (replace_where p x l) = List.length l.
Proof.
  induction l as [|y l IH]; simpl; [reflexivity | rewrite IH; reflexivity].
Qed.

Lemma nth_error_beyond {A} (l : list A) i x :
  nth_error l i = Some x -> (List.length l <= i)%nat -> False.
Proof.
  intros H Hle. apply nth_error_None in Hle. congruence.
Qed.

Lemma nth_error_appended {A} (l : list A) (y : A) i x :
  nth_error (l ++ [y]) i = Some x -> (List.length l <= i)%nat -> x = y.
Proof.
  intros H Hle. rewrite nth_error_app2 in H by exact Hle.
  destruct (i - List.length l)%nat as [|k]; simpl in H.
  - congruence.
  - destruct k; discriminate.
Qed.

(** A RecurringDonation that [process_subscription_payment] appends and
    that is 'Open' afterwards: no RecurringDonation was stored for the
    subscription the payment refers to, and the record is the one
    [recurring_donation_from_paypal_subscription] built for the
    subscription, saved under a new id. *)
Lemma process_subscription_payment_new_open t sub org st i rd' :
  nth_error (recurring_donations
               (fst (process_subscription_payment t sub org st))) i
  = Some rd' ->
  (List.length (recurring_donations st) <= i)%nat ->
  RecurringDonation.open_ended_status rd' = "Open" ->
  find (by_paypal_subscription_id (PaypalTransaction.reference_id t))
       (recurring_donations st) = None
  /\ exists c r n,
       recurring_donation_from_paypal_subscription
         sub (PaypalTransaction.transaction_date t) c org = Ok r
       /\ rd' = RecurringDonation.set_id r (Some n).
Proof.
  intros Hnth Hle Hopen.
  destruct (find (by_paypal_subscription_id (PaypalTransaction.reference_id t))
                 (recurring_donations st)) as [rd|] eqn:Hl.
  - (* a RecurringDonation is stored: nothing 'Open' is appended *)
    exfalso.
    rewrite (process_subscription_payment_found _ _ _ _ _ Hl) in Hnth.
    unfold bind in Hnth.
    destruct (String.eqb (PaypalSubscription.status sub) "CANCELLED").
    + unfold RecurringDonation_save in Hnth.
      change (RecurringDonation.id_
                (RecurringDonation.set_open_ended_status rd "Closed"))
        with (RecurringDonation.id_ rd) in Hnth.
      destruct (RecurringDonation.id_ rd) as [j|].
      * match type of Hnth with
        | context [update_or_create_installment ?a ?b ?c ?d ?s] =>
            pose proof (update_or_create_installment_same a b c d s) as Hs
        end.
        unfold same_recurring_donations in Hs. rewrite Hs in Hnth.
        simpl in Hnth. apply (nth_error_beyond _ _ _ Hnth).
        rewrite length_replace_where. exact Hle.
      * match type of Hnth with
        | context [update_or_create_installment ?a ?b ?c ?d ?s] =>
            pose proof (update_or_create_installment_same a b c d s) as Hs
        end.
        unfold same_recurring_donations in Hs. rewrite Hs in Hnth.
        simpl in Hnth.
        apply nth_error_appended in Hnth; [|exact Hle].
        subst rd'. discriminate Hopen.
    + unfold ret in Hnth.
      pose proof (update_or_create_installment_same t sub org rd st) as Hs.
      unfold same_recurring_donations in Hs. rewrite Hs in Hnth.
      exact (nth_error_beyond _ _ _ Hnth Hle).
  - split; [reflexivity|].
    rewrite (process_subscription_payment_not_found _ _ _ _ Hl) in Hnth.
    destruct (standalone_fallback sub) eqn:Hfb.
    + exfalso.
      pose proof (process_as_single_opportunity_same t org (Some sub) st)
        as Hs.
      unfold same_recurring_donations in Hs. rewrite Hs in Hnth.
      exact (nth_error_beyond _ _ _ Hnth Hle).
    + unfold bind in Hnth.
      destruct (create_recurring_donation_built t sub org st)
        as [[e [Hr Hrds]] | [c [r [n [Hb [Hr Hrds]]]]]];
        destruct (create_recurring_donation t sub org st) as [st1 res];
        simpl in Hr, Hrds; subst res.
      * exfalso. simpl in Hnth. rewrite Hrds in Hnth.
        exact (nth_error_beyond _ _ _ Hnth Hle).
      * match type of Hnth with
        | context [update_or_create_installment ?a ?b ?c ?d ?s] =>
            pose proof (update_or_create_installment_same a b c d s) as Hs
        end.
        unfold same_recurring_donations in Hs. rewrite Hs, Hrds in Hnth.
        apply nth_error_appended in Hnth; [|exact Hle].
        exists c, r, n. split; [exact Hb | exact Hnth].
Qed.

(** The RecurringDonations the entry point leaves are those it found, or
    those [process_subscription_payment] leaves for the subscription the
    vendor reported. *)
Lemma handle_recurring_donations org t ppc st :
  recurring_donations
    (fst (handle_paypal_charge_external_initiation org t ppc st))
  = recurring_donations st
  \/ exists sub,
       from_dict (ppc (PaypalTransaction.reference_id t)) = Ok sub
       /\ recurring_donations
            (fst (handle_paypal_charge_external_initiation org t ppc st))
          = recurring_donations
              (fst (process_subscription_payment t sub org st)).
Proof.
  unfold handle_paypal_charge_external_initiation.
  repeat match goal with
         | |- context [if ?b then _ else _] =>
             lazymatch b with
             | context [handle_subscription_payment] => fail
             | _ => destruct b eqn:?
             end
         end;
    try (left; reflexivity).
  - left. apply process_refund_recurring_donations.
  - left. apply process_as_single_opportunity_same.
  - unfold handle_subscription_payment.
    destruct (option_string_eqb (PaypalTransaction.reference_id_type t)
                                (Some "SUB")) eqn:Hsub.
    + destruct (String.eqb (PaypalTransaction.event_code t) "T0002");
        cbn [andb negb].
      * destruct (from_dict (ppc (PaypalTransaction.reference_id t)))
          as [sub|e] eqn:Hfd; [|left; reflexivity].
        destruct (negb (code_in (PaypalSubscription.status sub)
                                ["ACTIVE"; "CANCELLED"; "SUSPENDED"]))
          eqn:Hknown.
        { left. unfold bind, lift. rewrite Hknown. reflexivity. }
        right. exists sub. split; [reflexivity|].
        unfold bind, lift. rewrite Hknown.
        destruct (process_subscription_payment t sub org st)
          as [st1 [[]|e]]; reflexivity.
      * left. reflexivity.
    + cbn [andb negb]. left.
      assert (H : preserves same_recurring_donations
                    (ret tt ;;;
                     recurring_donation <-
                       RecurringDonation_get
                         (by_paypal_account_id
                            (PaypalTransaction.account_id t)) ;;
                     match recurring_donation with
                     | Some rd => update_closest_opportunity t org rd
                     | None => process_as_single_opportunity t org None
                     end)).
      { same_recurring_donations_tac;
          [apply update_closest_opportunity_same
          |apply process_as_single_opportunity_same]. }
      destruct (String.eqb (PaypalTransaction.event_code t) "T0002");
        apply H.
Qed.

(** C9: whichever engine operation runs (subscription-payment
    processing, refund processing, or the whole entry point), a stored
    RecurringDonation whose [open_ended_status] is 'Closed' is still
    'Closed' afterwards; and a RecurringDonation that is 'Open'
    afterwards either was stored unchanged before, or is a brand-new
    record for a newly seen subscription: it is appended, no
    RecurringDonation was stored for the subscription the payment refers
    to, and the record is the one
    [recurring_donation_from_paypal_subscription] built for the
    subscription being processed, saved under a new id. *)
Theorem open_ended_status_monotonic org transaction subscription ppc st st' :
  st' = fst (process_subscription_payment transaction subscription org st)
  \/ st' = fst (process_refund transaction org ppc st)
  \/ st' = fst (handle_paypal_charge_external_initiation
                  org transaction ppc st) ->
  (forall i rd,
      nth_error (recurring_donations st) i = Some rd ->
      RecurringDonation.open_ended_status rd = "Closed" ->
      exists rd', nth_error (recurring_donations st') i = Some rd'
                  /\ RecurringDonation.open_ended_status rd' = "Closed")
  /\ (forall i rd',
         nth_error (recurring_donations st') i = Some rd' ->
         RecurringDonation.open_ended_status rd' = "Open" ->
         nth_error (recurring_donations st) i = Some rd'
         \/ ((List.length (recurring_donations st) <= i)%nat
             /\ find (by_paypal_subscription_id
                        (PaypalTransaction.reference_id transaction))
                     (recurring_donations st) = None
             /\ exists sub c r n,
                  (sub = subscription
                   \/ from_dict
                        (ppc (PaypalTransaction.reference_id transaction))
                      = Ok sub)
                  /\ recurring_donation_from_paypal_subscription
                       sub (PaypalTransaction.transaction_date transaction)
                       c org = Ok r
                  /\ rd' = RecurringDonation.set_id r (Some n))).
Proof.
  intros H.
  assert (Hstep : closing_step st st').
  { destruct H as [-> | [-> | ->]].
    - apply process_subscription_payment_closing.
    - apply process_refund_closing.
    - apply handle_paypal_charge_external_initiation_closing. }
  split.
  - intros i rd. apply closing_step_closed_stays. exact Hstep.
  - intros i rd' Hnth Hopen.
    destruct (closing_step_open_origin _ _ _ _ Hstep Hnth Hopen)
      as [Hold | Hnew]; [left; exact Hold|].
    right. split; [exact Hnew|].
    destruct H as [-> | [-> | ->]].
    + destruct (process_subscription_payment_new_open
                  _ _ _ _ _ _ Hnth Hnew Hopen)
        as [Hnone [c [r [n [Hb Hrd]]]]].
      split; [exact Hnone|]. exists subscription, c, r, n. auto.
    + exfalso. rewrite process_refund_recurring_donations in Hnth.
      exact (nth_error_beyond _ _ _ Hnth Hnew).
    + destruct (handle_recurring_donations org transaction ppc st)
        as [Hsame | [sub [Hfd Hsame]]]; rewrite Hsame in Hnth.
      * exfalso. exact (nth_error_beyond _ _ _ Hnth Hnew).
      * destruct (process_subscription_payment_new_open
                    _ _ _ _ _ _ Hnth Hnew Hopen)
          as [Hnone [c [r [n [Hb Hrd]]]]].
        split; [exact Hnone|]. exists sub, c, r, n. auto.
Qed.

Lemma open_ended_status_monotonic_witness :
  let st := mkStore [] [installment 1 0 "TX" 10] [series 0 "Closed"] 2 in
  let t := payment "TX2" "T0002" (Some "SUB") (Some "I-SUB1")
                   (Some "PAYER1") 40 1000 in
  exists rd',
    nth_error (recurring_donations
                 (fst (handle_paypal_charge_external_initiation org0 t
                         (vendor "ACTIVE" 40 (Some 70)) st))) 0
    = Some rd'
    /\ RecurringDonation.open_ended_status rd' = "Closed".
Proof.
  intros st t.
  apply (proj1 (open_ended_status_monotonic org0 t
                  (PaypalSubscription.mk "I-SUB1" "ACTIVE" "ada@example.org"
                     1000 "PAYER1" 40 "2020-01-01T00:00:00Z" (Some monthly))
                  (vendor "ACTIVE" 40 (Some 70)) st _
                  (or_intror (or_intror eq_refl)))
          0%nat (series 0 "Closed")).
  - reflexivity.
  - reflexivity.
Defined.

(** ** Well-formedness is an invariant of the handlers

    The stores reached from [empty_store] are well-formed: every handler
    takes a well-formed store to a well-formed store, whether it returns
    or raises, and never lowers the id counter. *)

Lemma saved_below_mono n m x :
  saved_below n x -> (n <= m)%nat -> saved_below m x.
Proof. intros [j [-> Hj]] Hnm. exists j. split; [reflexivity | lia]. Qed.

Lemma link_below_mono n m o :
  link_below n o -> (n <= m)%nat -> link_below m o.
Proof. intros H Hnm r Hr. specialize (H r Hr). lia. Qed.

Lemma wf_store_grow st st' :
  wf_store st ->
  opportunities st' = opportunities st ->
  recurring_donations st' = recurring_donations st ->
  (next_id st <= next_id st')%nat ->
  wf_store st'.
Proof.
  intros [H1 H2 H3 H4] Ho Hr Hn. split; rewrite ?Ho, ?Hr.
  - eapply Forall_impl; [|exact H1].
    intros o Hs. simpl in Hs. apply (saved_below_mono (next_id st)); assumption.
  - exact H2.
  - eapply Forall_impl; [|exact H3].
    intros o Hs. apply (link_below_mono (next_id st)); assumption.
  - eapply Forall_impl; [|exact H4].
    intros o Hs. simpl in Hs. apply (saved_below_mono (next_id st)); assumption.
Qed.

Lemma Forall_replace_where {A} (P : A -> Prop) (p : A -> bool) x l :
  Forall P l -> (forall y, In y l -> p y = true -> P y -> P x) ->
  Forall P (replace_where p x l).
Proof.
  induction 1 as [|y l Hy Hl IH]; intros Hx; simpl; constructor.
  - destruct (p y) eqn:E; [|exact Hy].
    apply (Hx y); [left; reflexivity | exact E | exact Hy].
  - apply IH. intros z Hz. apply Hx. right. exact Hz.
Qed.

Lemma map_replace_where {A B} (f : A -> B) (p : A -> bool) x l :
  (forall y, In y l -> p y = true -> f x = f y) ->
  map f (replace_where p x l) = map f l.
Proof.
  induction l as [|y l IH]; intros H; simpl; [reflexivity|].
  rewrite IH by (intros z Hz; apply H; right; exact Hz).
  destruct (p y) eqn:E; [|reflexivity].
  rewrite (H y (or_introl eq_refl) E). reflexivity.
Qed.

Lemma Opportunity_save_wf o st :
  wf_store st -> link_below (next_id st) o ->
  wf_store (fst (Opportunity_save o st))
  /\ (next_id st <= next_id (fst (Opportunity_save o st)))%nat.
Proof.
  intros [H1 H2 H3 H4] Hlink. unfold Opportunity_save.
  destruct (Opportunity.id_ o) as [i|] eqn:Hid; simpl.
  - split; [|lia]. split; simpl.
    + apply Forall_replace_where; [exact H1|].
      intros y _ Hy Hs. apply id_is_true in Hy. rewrite Hid, <- Hy. exact Hs.
    + rewrite map_replace_where; [exact H2|].
      intros y _ Hy. apply id_is_true in Hy. rewrite Hid, Hy. reflexivity.
    + apply Forall_replace_where; [exact H3|]. intros; exact Hlink.
    + exact H4.
  - split; [|lia]. split; simpl.
    + apply Forall_app. split.
      * eapply Forall_impl; [|exact H1].
        intros x Hs. simpl in Hs.
        apply (saved_below_mono (next_id st)); [exact Hs | simpl; lia].
      * constructor; [|constructor]. exists (next_id st). simpl.
        split; [reflexivity | lia].
    + rewrite map_app. apply NoDup_app; [exact H2 | |].
      * simpl. constructor; [intros [] | constructor].
      * intros x Hx [Hx' | []]. simpl in Hx'. subst x.
        apply in_map_iff in Hx as [y [Hy Hin]].
        rewrite Forall_forall in H1. destruct (H1 y Hin) as [j [Hj Hlt]].
        rewrite Hj in Hy. injection Hy as ->. lia.
    + apply Forall_app. split.
      * eapply Forall_impl; [|exact H3].
        intros x Hs.
        apply (link_below_mono (next_id st)); [exact Hs | simpl; lia].
      * constructor; [|constructor].
        apply (link_below_mono (next_id st)); [exact Hlink | lia].
    + eapply Forall_impl; [|exact H4].
      intros x Hs. simpl in Hs.
        apply (saved_below_mono (next_id st)); [exact Hs | simpl; lia].
Qed.

Lemma RecurringDonation_save_wf r st :
  wf_store st ->
  wf_store (fst (RecurringDonation_save r st))
  /\ (next_id st <= next_id (fst (RecurringDonation_save r st)))%nat
  /\ forall r', snd (RecurringDonation_save r st) = Ok r' ->
       RecurringDonation.id_ r = None ->
       saved_below (next_id (fst (RecurringDonation_save r st)))
                   (RecurringDonation.id_ r').
Proof.
  intros [H1 H2 H3 H4]. unfold RecurringDonation_save.
  destruct (RecurringDonation.id_ r) as [i|] eqn:Hid; simpl.
  - split; [|split; [lia | discriminate]]. split; simpl; try assumption.
    apply Forall_replace_where; [exact H4|].
    intros y _ Hy Hs. apply id_is_true in Hy. rewrite Hid, <- Hy. exact Hs.
  - split; [|split; [lia|]].
    + split; simpl.
      * eapply Forall_impl; [|exact H1].
        intros x Hs. simpl in Hs.
        apply (saved_below_mono (next_id st)); [exact Hs | simpl; lia].
      * exact H2.
      * eapply Forall_impl; [|exact H3].
        intros x Hs.
        apply (link_below_mono (next_id st)); [exact Hs | simpl; lia].
      * apply Forall_app. split.
        -- eapply Forall_impl; [|exact H4].
           intros x Hs. simpl in Hs.
        apply (saved_below_mono (next_id st)); [exact Hs | simpl; lia].
        -- constructor; [|constructor]. exists (next_id st). simpl.
           split; [reflexivity | lia].
    + intros r' Hr' _. injection Hr' as <-. exists (next_id st). simpl.
      split; [reflexivity | lia].
Qed.

Lemma keeps_wf_bind {A B} (c : M A) (k : A -> M B) st :
  wf_store st ->
  (wf_store (fst (c st)) /\ (next_id st <= next_id (fst (c st)))%nat) ->
  (forall a, snd (c st) = Ok a -> wf_store (fst (c st)) ->
     wf_store (fst (k a (fst (c st))))
     /\ (next_id (fst (c st)) <= next_id (fst (k a (fst (c st)))))%nat) ->
  wf_store (fst (bind c k st))
  /\ (next_id st <= next_id (fst (bind c k st)))%nat.
Proof.
  intros Hwf [Hc Hn] Hk. unfold bind.
  destruct (c st) as [st' [a|e]]; simpl in *.
  - destruct (Hk a eq_refl Hc) as [Hw Hn']. split; [exact Hw | lia].
  - auto.
Qed.

Lemma Contact_upsert_wf c : keeps_wf (Contact_upsert c).
Proof.
  intros st Hwf.
  destruct (Contact_upsert_spec c st) as [st0 [c0 [-> [Ho [Hr Hn]]]]].
  simpl. split; [|exact Hn]. exact (wf_store_grow st st0 Hwf Ho Hr Hn).
Qed.

Lemma process_as_single_opportunity_wf t org sub :
  keeps_wf (process_as_single_opportunity t org sub).
Proof.
  intros st Hwf. unfold process_as_single_opportunity.
  rewrite bind_lift. destruct (find_email t sub); [|simpl; auto].
  rewrite bind_lift.
  destruct (contact_from_paypal_transaction t a org); [|simpl; auto].
  apply keeps_wf_bind; [exact Hwf | apply Contact_upsert_wf; exact Hwf|].
  intros c0 _ _.
  pose proof (Contact_upsert_wf a0 st Hwf) as [Hwf0 _].
  set (st0 := fst (Contact_upsert a0 st)) in *.
  apply keeps_wf_bind; [exact Hwf0 | | intros; simpl; auto].
  unfold Opportunity_upsert, bind, Opportunity_get.
  destruct (find _ (opportunities st0)); [simpl; auto|].
  apply Opportunity_save_wf; [exact Hwf0|]. intros r Hr. discriminate.
Qed.

Lemma update_closest_opportunity_run t org rd st :
  update_closest_opportunity t org rd st =
  match find_closest_opportunity
          (filter (linked_to (RecurringDonation.id_ rd)) (opportunities st))
          t org with
  | Ok y => update_opportunity y t st
  | Raise e => (st, Raise e)
  end.
Proof.
  unfold update_closest_opportunity.
  unfold bind at 1. unfold RecurringDonation_opportunities at 1.
  apply bind_lift.
Qed.

Lemma update_closest_opportunity_wf t org rd :
  keeps_wf (update_closest_opportunity t org rd).
Proof.
  intros st Hwf. rewrite update_closest_opportunity_run.
  destruct (find_closest_opportunity _ t org) as [y|e] eqn:Hfc;
    [|simpl; auto].
  unfold update_opportunity.
  apply keeps_wf_bind; [exact Hwf | | intros; simpl; auto].
  apply Opportunity_save_wf; [exact Hwf|].
  destruct (find_closest_opportunity_Ok_inv _ _ _ _ Hfc) as [l1 [l2 [Hs _]]].
  assert (Hin : In y (filter (linked_to (RecurringDonation.id_ rd))
                             (opportunities st))).
  { rewrite Hs. apply in_or_app. right. left. reflexivity. }
  apply filter_In in Hin as [Hin _].
  pose proof (wf_opportunity_links st Hwf) as Hl.
  rewrite Forall_forall in Hl. exact (Hl y Hin).
Qed.

Lemma create_linked_opportunity_wf t sub org rd st :
  wf_store st ->
  (forall r, RecurringDonation.id_ rd = Some r -> (r < next_id st)%nat) ->
  wf_store (fst (create_linked_opportunity t sub org rd st))
  /\ (next_id st
      <= next_id (fst (create_linked_opportunity t sub org rd st)))%nat.
Proof.
  intros Hwf Hrd. unfold create_linked_opportunity.
  rewrite bind_lift. destruct (find_email t (Some sub)); [|simpl; auto].
  rewrite bind_lift.
  destruct (contact_from_paypal_transaction t a org); [|simpl; auto].
  apply keeps_wf_bind; [exact Hwf | apply Contact_upsert_wf; exact Hwf|].
  intros c0 _ _.
  pose proof (Contact_upsert_wf a0 st Hwf) as [Hwf0 Hn0].
  set (st0 := fst (Contact_upsert a0 st)) in *.
  destruct (PaypalSubscription.installment_period sub); [|simpl; auto].
  unfold update_opportunity.
  apply keeps_wf_bind; [exact Hwf0 | | intros; simpl; auto].
  apply Opportunity_save_wf; [exact Hwf0|].
  intros r Hr. simpl in Hr. specialize (Hrd r Hr). lia.
Qed.

Lemma update_or_create_installment_wf t sub org rd st :
  wf_store st ->
  (forall r, RecurringDonation.id_ rd = Some r -> (r < next_id st)%nat) ->
  wf_store (fst (update_or_create_installment t sub org rd st))
  /\ (next_id st
      <= next_id (fst (update_or_create_installment t sub org rd st)))%nat.
Proof.
  intros Hwf Hrd.
  unfold update_or_create_installment, try_except_DateRangeToleranceExceeded.
  pose proof (update_closest_opportunity_wf t org rd st Hwf) as [Hwa Hna].
  destruct (update_closest_opportunity t org rd st) as [sta [[]|e]];
    simpl in *; [auto|].
  destruct e; simpl; auto.
  destruct (create_linked_opportunity_wf t sub org rd sta Hwa) as [Hw Hn].
  - intros r Hr. specialize (Hrd r Hr). lia.
  - split; [exact Hw | lia].
Qed.

Lemma create_recurring_donation_wf t sub org st :
  wf_store st ->
  wf_store (fst (create_recurring_donation t sub org st))
  /\ (next_id st <= next_id (fst (create_recurring_donation t sub org st)))%nat
  /\ forall rd, snd (create_recurring_donation t sub org st) = Ok rd ->
       saved_below (next_id (fst (create_recurring_donation t sub org st)))
                   (RecurringDonation.id_ rd).
Proof.
  intros Hwf. unfold create_recurring_donation.
  rewrite bind_lift.
  destruct (find_email t (Some sub)); [|simpl; split; [assumption | split; [lia | intros; discriminate]]].
  rewrite bind_lift.
  destruct (contact_from_paypal_transaction t a org) as [c|];
    [|simpl; split; [assumption | split; [lia | intros; discriminate]]].
  destruct (Contact_upsert_spec c st) as [st0 [c0 [Hc [Ho [Hr Hn0]]]]].
  assert (Hwf0 : wf_store st0) by exact (wf_store_grow st st0 Hwf Ho Hr Hn0).
  rewrite (bind_Ok _ _ _ _ _ Hc), bind_lift.
  destruct (recurring_donation_from_paypal_subscription sub _ c0 org)
    as [rd|e] eqn:Hrd; [|simpl; split; [assumption | split; [lia | intros; discriminate]]].
  destruct (RecurringDonation_save_wf rd st0 Hwf0) as [Hw [Hn Hid]].
  split; [exact Hw|]. split; [lia|].
  intros rd' Hrd'. apply Hid; [exact Hrd'|].
  eapply recurring_donation_from_paypal_subscription_unsaved. exact Hrd.
Qed.

Lemma process_subscription_payment_wf t sub org :
  keeps_wf (process_subscription_payment t sub org).
Proof.
  intros st Hwf.
  destruct (find (by_paypal_subscription_id (PaypalTransaction.reference_id t))
                 (recurring_donations st)) as [rd|] eqn:Hl.
  - rewrite (process_subscription_payment_found _ _ _ _ _ Hl).
    assert (Hid : saved_below (next_id st) (RecurringDonation.id_ rd)).
    { pose proof (wf_recurring_donation_ids st Hwf) as Hids.
      rewrite Forall_forall in Hids.
      apply find_some in Hl as [Hin _]. exact (Hids rd Hin). }
    destruct Hid as [i [Hid Hlt]].
    destruct (close_if_cancelled_spec sub _ rd i st Hid Hl)
      as [stm [rdm [Hclose [Ho [Hn [Hidm _]]]]]].
    assert (Hwm : wf_store stm).
    { destruct (String.eqb (PaypalSubscription.status sub) "CANCELLED").
      - pose proof (RecurringDonation_save_wf
                      (RecurringDonation.set_open_ended_status rd "Closed")
                      st Hwf) as [Hw _].
        rewrite Hclose in Hw. exact Hw.
      - unfold ret in Hclose. injection Hclose as <- _. exact Hwf. }
    rewrite (bind_Ok _ _ _ _ _ Hclose).
    destruct (update_or_create_installment_wf t sub org rdm stm Hwm)
      as [Hw Hn'].
    + intros r Hr. rewrite Hidm in Hr. injection Hr as <-. lia.
    + split; [exact Hw | lia].
  - rewrite (process_subscription_payment_not_found _ _ _ _ Hl).
    destruct (standalone_fallback sub).
    + apply process_as_single_opportunity_wf. exact Hwf.
    + destruct (create_recurring_donation_wf t sub org st Hwf)
        as [Hw [Hn Hid]].
      apply keeps_wf_bind; [exact Hwf | auto|].
      intros rd Hrd _. apply update_or_create_installment_wf; [exact Hw|].
      intros r Hr. destruct (Hid rd Hrd) as [j [Hj Hlt]].
      rewrite Hj in Hr. injection Hr as <-. exact Hlt.
Qed.

Lemma process_refund_run t org ppc st :
  process_refund t org ppc st =
  match find (fun o => option_string_eqb
                         (Opportunity.paypal_transaction_id o)
                         (PaypalTransaction.reference_id t))
             (opportunities st) with
  | None => (st, Raise AttributeError)
  | Some o =>
      (Opportunity_save (Opportunity.set_stage_name o "Refunded") ;;;
       close_refunded_series (Opportunity.set_stage_name o "Refunded")
                             org ppc) st
  end.
Proof.
  unfold process_refund. unfold bind at 1. unfold Opportunity_get at 1.
  destruct (find _ (opportunities st)); reflexivity.
Qed.

Lemma process_refund_wf t org ppc : keeps_wf (process_refund t org ppc).
Proof.
  intros st Hwf. rewrite process_refund_run.
  destruct (find _ (opportunities st)) as [o|] eqn:Hfind; [|simpl; auto].
  assert (Hlink : link_below (next_id st)
                    (Opportunity.set_stage_name o "Refunded")).
  { apply find_some in Hfind as [Hin _].
    pose proof (wf_opportunity_links st Hwf) as Hl.
    rewrite Forall_forall in Hl. exact (Hl o Hin). }
  pose proof (Opportunity_save_wf _ st Hwf Hlink) as Hsave.
  apply keeps_wf_bind; [exact Hwf | exact Hsave|].
  intros o' _ Hw. rewrite close_refunded_series_store.
  split; [exact Hw | lia].
Qed.

Lemma handle_subscription_payment_wf org t ppc :
  keeps_wf (handle_subscription_payment org t ppc).
Proof.
  intros st Hwf. unfold handle_subscription_payment.
  assert (Hfirst : keeps_wf
            (if String.eqb (PaypalTransaction.event_code t) "T0002"
                && option_string_eqb (PaypalTransaction.reference_id_type t)
                                     (Some "SUB")
             then
               subscription <-
                 lift (from_dict (ppc (PaypalTransaction.reference_id t))) ;;
               if negb (code_in (PaypalSubscription.status subscription)
                                ["ACTIVE"; "CANCELLED"; "SUSPENDED"])
               then raise (Exception "unknown subscription status")
               else process_subscription_payment t subscription org
             else ret tt)).
  { intros st0 Hwf0. destruct (_ && _); [|simpl; auto].
    rewrite bind_lift. destruct (from_dict _) as [sub|]; [|simpl; auto].
    destruct (negb _); [simpl; auto|].
    apply process_subscription_payment_wf. exact Hwf0. }
  apply keeps_wf_bind; [exact Hwf | apply Hfirst; exact Hwf|].
  intros _ _ _. destruct (Hfirst st Hwf) as [Hw1 _].
  match goal with
  | |- context [fst (?c st)] => set (st1 := fst (c st)) in *
  end.
  destruct (negb _); [|simpl; auto].
  unfold bind, RecurringDonation_get.
  destruct (find _ (recurring_donations st1)).
  - apply update_closest_opportunity_wf. exact Hw1.
  - apply process_as_single_opportunity_wf. exact Hw1.
Qed.

Lemma handle_paypal_charge_external_initiation_wf org t ppc :
  keeps_wf (handle_paypal_charge_external_initiation org t ppc).
Proof.
  intros st Hwf. unfold handle_paypal_charge_external_initiation. cbv zeta.
  destruct (code_in _ skipped_event_codes); [simpl; auto|].
  destruct (_ && _); [simpl; auto|].
  destruct (_ && _); [simpl; auto|].
  destruct (String.eqb _ "T1107");
    [apply process_refund_wf; exact Hwf|].
  destruct (code_in _ single_opportunity_event_codes);
    [apply process_as_single_opportunity_wf; exact Hwf|].
  destruct (negb _); [simpl; auto|].
  destruct (_ <? 0); [simpl; auto|].
  destruct (negb _); [simpl; auto|].
  apply handle_subscription_payment_wf. exact Hwf.
Qed.


(** ** The exceptions that leave the handlers *)

Lemma raises_only_ret {A} P (a : A) : raises_only P (ret a).
Proof. intros st e H. discriminate. Qed.

Lemma raises_only_raise {A} (P : PyError -> Prop) e :
  P e -> raises_only P (@raise A e).
Proof. intros He st e' H. injection H as <-. exact He. Qed.

Lemma raises_only_lift {A} (P : PyError -> Prop) (r : result A) :
  (forall e, r = Raise e -> P e) -> raises_only P (lift r).
Proof. intros Hr st e H. apply Hr. exact H. Qed.

Lemma raises_only_bind {A B} P (c : M A) (k : A -> M B) :
  raises_only P c -> (forall a, raises_only P (k a)) ->
  raises_only P (bind c k).
Proof.
  intros Hc Hk st e. unfold bind.
  destruct (c st) as [st' [a|e']] eqn:E.
  - apply Hk.
  - simpl. intros H. injection H as <-. apply (Hc st). rewrite E. reflexivity.
Qed.

Lemma raises_only_try {A} (P : PyError -> Prop) (body : M A) handler :
  raises_only (fun e => P e \/ exists d, e = DateRangeToleranceExceeded d)
              body ->
  (forall d, raises_only P (handler d)) ->
  raises_only P (try_except_DateRangeToleranceExceeded body handler).
Proof.
  intros Hb Hh st e. unfold try_except_DateRangeToleranceExceeded.
  destruct (body st) as [st' [a|e']] eqn:E; [discriminate|].
  assert (He' : P e' \/ exists d, e' = DateRangeToleranceExceeded d).
  { apply (Hb st). rewrite E. reflexivity. }
  destruct e'; try (simpl; intros H; injection H as <-;
                    destruct He' as [He' | [d Hd]];
                    [exact He' | discriminate]).
  apply Hh.
Qed.

Lemma raises_only_weaken {A} (P Q : PyError -> Prop) (c : M A) :
  (forall e, P e -> Q e) -> raises_only P c -> raises_only Q c.
Proof. intros HPQ Hc st e H. apply HPQ. exact (Hc st e H). Qed.

Lemma Contact_upsert_never_raises P c : raises_only P (Contact_upsert c).
Proof.
  intros st e. destruct (Contact_upsert_spec c st) as [st0 [c0 [-> _]]].
  discriminate.
Qed.

Lemma Opportunity_save_never_raises P o : raises_only P (Opportunity_save o).
Proof.
  intros st e. unfold Opportunity_save.
  destruct (Opportunity.id_ o); discriminate.
Qed.

Lemma Opportunity_upsert_never_raises P o :
  raises_only P (Opportunity_upsert o).
Proof.
  intros st e. unfold Opportunity_upsert, bind, Opportunity_get.
  destruct (find _ (opportunities st)); [discriminate|].
  apply Opportunity_save_never_raises.
Qed.

Lemma RecurringDonation_save_never_raises P r :
  raises_only P (RecurringDonation_save r).
Proof.
  intros st e. unfold RecurringDonation_save.
  destruct (RecurringDonation.id_ r); discriminate.
Qed.

Lemma update_opportunity_never_raises P o t :
  raises_only P (update_opportunity o t).
Proof.
  unfold update_opportunity. apply raises_only_bind.
  - apply Opportunity_save_never_raises.
  - intros _. apply raises_only_ret.
Qed.

Lemma find_email_raises t sub e :
  find_email t sub = Raise e -> e = AttributeError.
Proof.
  unfold find_email. destruct (truthy _); [discriminate|].
  destruct sub; [discriminate|]. intros H. injection H as <-. reflexivity.
Qed.

Lemma contact_from_paypal_transaction_raises t email org e :
  contact_from_paypal_transaction t email org = Raise e -> e = AttributeError.
Proof.
  unfold contact_from_paypal_transaction.
  destruct (PaypalTransaction.name t).
  - destruct (PaypalTransaction.address t); discriminate.
  - intros H. injection H as <-. reflexivity.
Qed.

Lemma process_as_single_opportunity_raises t org sub :
  raises_only (fun e => e = AttributeError)
              (process_as_single_opportunity t org sub).
Proof.
  unfold process_as_single_opportunity.
  apply raises_only_bind; [apply raises_only_lift, find_email_raises|].
  intros email. apply raises_only_bind;
    [apply raises_only_lift, contact_from_paypal_transaction_raises|].
  intros c. apply raises_only_bind; [apply Contact_upsert_never_raises|].
  intros contact. apply raises_only_bind;
    [apply Opportunity_upsert_never_raises|].
  intros _. apply raises_only_ret.
Qed.

Lemma find_closest_opportunity_raises l t org e :
  find_closest_opportunity l t org = Raise e ->
  e = ValueError \/ exists d, e = DateRangeToleranceExceeded d /\ 10 < d.
Proof.
  rewrite find_closest_opportunity_unfold.
  destruct l as [|b l]; [intros H; injection H as <-; auto|]. cbv zeta.
  destruct (days_delta t (min_from (days_delta t) b l) >? 10) eqn:E;
    [|discriminate].
  intros H. injection H as <-. right. eexists. split; [reflexivity|].
  rewrite Z.gtb_ltb in E. apply Z.ltb_lt in E. exact E.
Qed.

Lemma update_closest_opportunity_raises_only t org rd :
  raises_only
    (fun e => e = ValueError
              \/ exists d, e = DateRangeToleranceExceeded d /\ 10 < d)
    (update_closest_opportunity t org rd).
Proof.
  intros st e. rewrite update_closest_opportunity_run.
  destruct (find_closest_opportunity _ t org) as [y|e'] eqn:Hfc.
  - intros H. destruct (update_opportunity_never_raises
                          (fun _ => False) y t st e H).
  - simpl. intros H. injection H as <-.
    exact (find_closest_opportunity_raises _ _ _ _ Hfc).
Qed.

Lemma create_linked_opportunity_raises t sub org rd :
  raises_only (fun e => e = AttributeError)
              (create_linked_opportunity t sub org rd).
Proof.
  unfold create_linked_opportunity.
  apply raises_only_bind; [apply raises_only_lift, find_email_raises|].
  intros email. apply raises_only_bind;
    [apply raises_only_lift, contact_from_paypal_transaction_raises|].
  intros c. apply raises_only_bind; [apply Contact_upsert_never_raises|].
  intros contact.
  destruct (PaypalSubscription.installment_period sub).
  - apply update_opportunity_never_raises.
  - apply raises_only_raise. reflexivity.
Qed.

Lemma update_or_create_installment_raises t sub org rd :
  raises_only (fun e => e = AttributeError \/ e = ValueError)
              (update_or_create_installment t sub org rd).
Proof.
  unfold update_or_create_installment. apply raises_only_try.
  - eapply raises_only_weaken;
      [|apply update_closest_opportunity_raises_only].
    intros e [-> | [d [-> _]]]; eauto.
  - intros d. eapply raises_only_weaken;
      [|apply create_linked_opportunity_raises].
    intros e ->. auto.
Qed.

Lemma create_recurring_donation_raises t sub org :
  PaypalSubscription.status sub = "ACTIVE" ->
  raises_only (fun e => e = AttributeError)
              (create_recurring_donation t sub org).
Proof.
  intros Hact. unfold create_recurring_donation.
  apply raises_only_bind; [apply raises_only_lift, find_email_raises|].
  intros email. apply raises_only_bind;
    [apply raises_only_lift, contact_from_paypal_transaction_raises|].
  intros c. apply raises_only_bind; [apply Contact_upsert_never_raises|].
  intros contact. apply raises_only_bind;
    [|intros rd; apply RecurringDonation_save_never_raises].
  apply raises_only_lift. intros e.
  unfold recurring_donation_from_paypal_subscription. rewrite Hact. simpl.
  destruct (PaypalSubscription.installment_period sub); [discriminate|].
  intros H. injection H as <-. reflexivity.
Qed.

Lemma supported_status_cases s :
  code_in s ["ACTIVE"; "CANCELLED"; "SUSPENDED"] = true ->
  s = "ACTIVE" \/ s = "CANCELLED" \/ s = "SUSPENDED".
Proof.
  intros H. apply code_in_In in H.
  destruct H as [<- | [<- | [<- | []]]]; auto.
Qed.

(** [process_subscription_payment], called as the entry point calls it
    (the subscription status is one of the three it accepts), raises
    [AttributeError] or [ValueError] only: the tolerance signal is
    caught, and the 'is not ACTIVE' guard never fires. *)
Lemma process_subscription_payment_raises t sub org :
  code_in (PaypalSubscription.status sub)
          ["ACTIVE"; "CANCELLED"; "SUSPENDED"] = true ->
  raises_only (fun e => e = AttributeError \/ e = ValueError)
              (process_subscription_payment t sub org).
Proof.
  intros Hstatus st e.
  destruct (find (by_paypal_subscription_id (PaypalTransaction.reference_id t))
                 (recurring_donations st)) as [rd|] eqn:Hl.
  - rewrite (process_subscription_payment_found _ _ _ _ _ Hl).
    revert st Hl e.
    assert (H : raises_only (fun e => e = AttributeError \/ e = ValueError)
                  (rd' <- (if String.eqb (PaypalSubscription.status sub)
                                         "CANCELLED"
                           then RecurringDonation_save
                                  (RecurringDonation.set_open_ended_status
                                     rd "Closed")
                           else ret rd) ;;
                   update_or_create_installment t sub org rd')).
    { apply raises_only_bind.
      - destruct (String.eqb _ _);
          [apply RecurringDonation_save_never_raises | apply raises_only_ret].
      - intros rd'. apply update_or_create_installment_raises. }
    intros st _ e. apply H.
  - rewrite (process_subscription_payment_not_found _ _ _ _ Hl).
    destruct (standalone_fallback sub) eqn:Hfb.
    + intros H. left.
      exact (process_as_single_opportunity_raises _ _ _ st e H).
    + assert (Hact : PaypalSubscription.status sub = "ACTIVE").
      { unfold standalone_fallback in Hfb.
        apply orb_false_iff in Hfb as [Hfb _].
        apply orb_false_iff in Hfb as [Hc Hs].
        apply String.eqb_neq in Hc, Hs.
        destruct (supported_status_cases _ Hstatus) as [H | [H | H]];
          [exact H | contradiction | contradiction]. }
      revert st Hl e.
      assert (H : raises_only (fun e => e = AttributeError \/ e = ValueError)
                    (rd <- create_recurring_donation t sub org ;;
                     update_or_create_installment t sub org rd)).
      { apply raises_only_bind.
        - eapply raises_only_weaken;
            [|apply create_recurring_donation_raises; exact Hact].
          intros e ->. auto.
        - intros rd. apply update_or_create_installment_raises. }
      intros st _ e. apply H.
Qed.

Lemma from_dict_raises data e :
  from_dict data = Raise e -> e = KeyError "next_billing_time".
Proof.
  unfold from_dict.
  destruct (String.eqb (raw_status data) "CANCELLED"); [discriminate|].
  destruct (String.eqb (raw_status data) "SUSPENDED"); [discriminate|].
  destruct (raw_next_billing_time data).
  - cbv zeta. destruct (_ && _); [discriminate|].
    destruct (_ && _); discriminate.
  - intros H. injection H as <-. reflexivity.
Qed.

Lemma process_refund_raises t org ppc :
  raises_only (fun e => e = AttributeError
                        \/ e = KeyError "next_billing_time")
              (process_refund t org ppc).
Proof.
  unfold process_refund.
  apply raises_only_bind; [intros st e H; discriminate|].
  intros [o|]; [|apply raises_only_raise; auto].
  apply raises_only_bind; [apply Opportunity_save_never_raises|].
  intros _. unfold close_refunded_series.
  destruct (Opportunity.recurring_donation_id _); [|apply raises_only_ret].
  apply raises_only_bind; [intros st e H; discriminate|].
  intros [r|]; [|apply raises_only_raise; auto].
  destruct (String.eqb _ "Closed"); [apply raises_only_ret|].
  apply raises_only_bind.
  - apply raises_only_lift. intros e H. right. exact (from_dict_raises _ _ H).
  - intros sub. unfold PaypalSubscription_eq_str. apply raises_only_ret.
Qed.

Lemma known_event_codes_split code :
  code_in code known_event_codes
  = (code_in code skipped_event_codes
     || String.eqb code "T1107"
     || code_in code single_opportunity_event_codes
     || String.eqb code "T0002").
Proof.
  unfold code_in, known_event_codes.
  rewrite !existsb_app. simpl. rewrite !orb_false_r, !orb_assoc. reflexivity.
Qed.

(** The exceptions of the subscription-payment part of the entry point,
    by the branch that raises them. *)
Lemma handle_subscription_payment_raises org t ppc st e :
  PaypalTransaction.event_code t = "T0002" ->
  snd (handle_subscription_payment org t ppc st) = Raise e ->
  (PaypalTransaction.reference_id_type t = Some "SUB"
   /\ (e = KeyError "next_billing_time"
       \/ e = Exception "unknown subscription status"
       \/ e = AttributeError \/ e = ValueError))
  \/ (PaypalTransaction.reference_id_type t <> Some "SUB"
      /\ ((exists rd,
              find (by_paypal_account_id (PaypalTransaction.account_id t))
                   (recurring_donations st) = Some rd
              /\ (e = ValueError
                  \/ exists d, e = DateRangeToleranceExceeded d /\ 10 < d))
          \/ (find (by_paypal_account_id (PaypalTransaction.account_id t))
                   (recurring_donations st) = None
              /\ e = AttributeError))).
Proof.
  intros Hcode. unfold handle_subscription_payment. rewrite Hcode. simpl.
  destruct (option_string_eqb (PaypalTransaction.reference_id_type t)
                              (Some "SUB")) eqn:Hsub; simpl.
  - intros H. left. split.
    { destruct (PaypalTransaction.reference_id_type t) as [s|];
        [|discriminate]. simpl in Hsub. apply String.eqb_eq in Hsub.
      subst. reflexivity. }
    revert st e H.
    change (raises_only
              (fun e => e = KeyError "next_billing_time"
                        \/ e = Exception "unknown subscription status"
                        \/ e = AttributeError \/ e = ValueError)
              ((subscription <-
                  lift (from_dict (ppc (PaypalTransaction.reference_id t))) ;;
                if negb (code_in (PaypalSubscription.status subscription)
                                 ["ACTIVE"; "CANCELLED"; "SUSPENDED"])
                then raise (Exception "unknown subscription status")
                else process_subscription_payment t subscription org) ;;;
               ret tt)).
    apply raises_only_bind; [|intros _; apply raises_only_ret].
    apply raises_only_bind.
    + apply raises_only_lift. intros e H. left. exact (from_dict_raises _ _ H).
    + intros sub. destruct (code_in _ _) eqn:Hst; simpl.
      * eapply raises_only_weaken;
          [|apply process_subscription_payment_raises; exact Hst].
        intros e [-> | ->]; auto.
      * apply raises_only_raise. auto.
  - intros H. right. split.
    { intros E. rewrite E in Hsub. discriminate. }
    unfold bind, ret, RecurringDonation_get in H.
    destruct (find _ (recurring_donations st)) as [rd|].
    + left. exists rd. split; [reflexivity|].
      exact (update_closest_opportunity_raises_only _ _ _ st e H).
    + right. split; [reflexivity|].
      exact (process_as_single_opportunity_raises _ _ _ st e H).
Qed.

(** Every way the entry point can raise, with the branch it comes from. *)
Lemma handle_raises_cases org t ppc st e :
  snd (handle_paypal_charge_external_initiation org t ppc st) = Raise e ->
  (PaypalTransaction.event_code t = "T1107"
   /\ (e = AttributeError \/ e = KeyError "next_billing_time"))
  \/ (code_in (PaypalTransaction.event_code t)
              single_opportunity_event_codes = true
      /\ e = AttributeError)
  \/ (code_in (PaypalTransaction.event_code t) known_event_codes = false
      /\ e = Exception ("Unknown event code: "
                        ++ PaypalTransaction.event_code t))
  \/ (PaypalTransaction.event_code t = "T0002"
      /\ PaypalTransaction.status t <> "S"
      /\ e = Exception "Transaction status isn't 'S'")
  \/ (PaypalTransaction.event_code t = "T0002"
      /\ snd (handle_subscription_payment org t ppc st) = Raise e).
Proof.
  unfold handle_paypal_charge_external_initiation. cbv zeta.
  rewrite known_event_codes_split.
  destruct (code_in _ skipped_event_codes); [discriminate|].
  destruct (_ && _); [discriminate|].
  destruct (_ && _); [discriminate|].
  destruct (String.eqb _ "T1107") eqn:Hrefund.
  { intros H. left. split; [apply String.eqb_eq; exact Hrefund|].
    exact (process_refund_raises _ _ _ st e H). }
  destruct (code_in _ single_opportunity_event_codes).
  { intros H. right. left. split; [reflexivity|].
    exact (process_as_single_opportunity_raises _ _ _ st e H). }
  destruct (String.eqb _ "T0002") eqn:Hcode; simpl.
  2:{ intros H. injection H as <-. right. right. left. auto. }
  apply String.eqb_eq in Hcode.
  destruct (_ <? 0); [discriminate|].
  destruct (String.eqb (PaypalTransaction.status t) "S") eqn:Hs; simpl.
  - intros H. right. right. right. right. auto.
  - intros H. injection H as <-. right. right. right. left.
    apply String.eqb_neq in Hs. auto.
Qed.

(** ** Extra properties of the entry point *)

(** The exceptions that leave the dispatch on a parsed transaction. *)
Lemma handle_raises_only org t ppc st e :
  snd (handle_paypal_charge_external_initiation org t ppc st) = Raise e ->
  entry_point_error t e.
Proof.
  intros H. unfold entry_point_error.
  destruct (handle_raises_cases _ _ _ _ _ H)
    as [[_ [-> | ->]] | [[_ ->] | [[_ ->] | [[_ [_ ->]] | [Hcode Hs]]]]];
    auto 10.
  destruct (handle_subscription_payment_raises _ _ _ _ _ Hcode Hs)
    as [[_ [-> | [-> | [-> | ->]]]]
       | [_ [[rd [_ [-> | [d [-> Hd]]]]] | [_ ->]]]];
    auto 10.
  right. right. right. left. eauto.
Qed.

Lemma split_full_name_raises strip name e :
  split_full_name strip name = Raise e -> e = ValueError.
Proof.
  unfold split_full_name.
  destruct (rsplit1 " "%char (strip name)) as [[first last]|];
    [discriminate|].
  intros H. injection H as <-. reflexivity.
Qed.

Lemma PaypalTransaction_from_dict_raises strip lower raw e :
  PaypalTransaction_from_dict strip lower raw = Raise e -> parse_error e.
Proof.
  unfold PaypalTransaction_from_dict, parse_error.
  destruct (name_from_paypal_transaction strip raw) as [name|e1] eqn:Hn.
  - destruct (address_from_paypal_transaction raw) as [address|e2] eqn:Ha;
      [discriminate|].
    intros H. injection H as <-.
    unfold address_from_paypal_transaction in Ha.
    destruct (raw_shipping_info raw) as [si|]; [|discriminate].
    destruct (raw_shipping_address si) as [ad|]; [|discriminate].
    destruct (raw_city ad), (raw_state ad), (raw_postal_code ad),
      (raw_country_code ad); try discriminate.
    destruct (raw_line1 ad); [discriminate|].
    injection Ha as <-. auto 10.
  - intros H. injection H as <-.
    unfold name_from_paypal_transaction in Hn.
    destruct (raw_payer_name raw) as [pn|];
      [|injection Hn as <-; auto 10].
    destruct (raw_surname pn).
    { destruct (raw_given_name pn); [discriminate|].
      injection Hn as <-. auto 10. }
    destruct (raw_shipping_info raw) as [si|];
      [|injection Hn as <-; auto 10].
    destruct (raw_shipping_name si) as [name|].
    + assert (Hsplit : forall n,
                 match split_full_name strip name with
                 | Ok n' => Ok (Some n')
                 | Raise e' => Raise e'
                 end = @Raise (option Name) n -> n = ValueError).
      { intros n. destruct (split_full_name strip name) eqn:E;
          [discriminate|].
        intros H. injection H as <-.
        exact (split_full_name_raises _ _ _ E). }
      destruct (split_on ","%char name) as [|a [|b [|c l]]];
        try (left; exact (Hsplit _ Hn)).
      discriminate.
    + destruct (raw_alternate_full_name pn) as [alt|]; [|discriminate].
      destruct (split_full_name strip alt) eqn:E; [discriminate|].
      injection Hn as <-. left.
      exact (split_full_name_raises _ _ _ E).
Qed.

(** X1: whatever the payload, the store and the vendor's answer, an
    exception that leaves the entry point is either raised by the parse
    of the payload, before anything is written -- [ValueError] for a
    name that cannot be split, or [KeyError] on [payer_name],
    [given_name], [shipping_info] or [line1] -- or, for the transaction
    the payload parses to, one of seven kinds: [AttributeError],
    [ValueError], [KeyError] on the next billing time,
    [DateRangeToleranceExceeded] with a delta above 10, or an
    [Exception] with the message 'Unknown event code: ' followed by the
    code, 'Transaction status isn't 'S'' or 'unknown subscription
    status'. *)
Theorem entry_point_errors strip lower org raw ppc st e :
  snd (handle_raw_transaction strip lower org raw ppc st) = Raise e ->
  (PaypalTransaction_from_dict strip lower raw = Raise e
   /\ parse_error e
   /\ fst (handle_raw_transaction strip lower org raw ppc st) = st)
  \/ (exists t,
        PaypalTransaction_from_dict strip lower raw = Ok t
        /\ entry_point_error t e).
Proof.
  unfold handle_raw_transaction. rewrite bind_lift.
  destruct (PaypalTransaction_from_dict strip lower raw) as [t|e1] eqn:Hp.
  - intros H. right. exists t. split; [reflexivity|].
    exact (handle_raises_only _ _ _ _ _ H).
  - intros H. injection H as <-. left.
    split; [reflexivity|]. split; [|reflexivity].
    exact (PaypalTransaction_from_dict_raises _ _ _ _ Hp).
Qed.

Lemma entry_point_errors_witness :
  let raw :=
    mkRawTransaction
      (mkRawTransactionInfo "TX" "T0013" "S" 10 1000 None None None
                            None None None)
      (Some "ada@example.org") (Some (mkRawPayerName (Some "Lovelace") None None))
      None in
  let run := handle_raw_transaction (fun s => s) (fun s => s) org0 raw
               (vendor "ACTIVE" 10 (Some 40)) empty_store in
  snd run = Raise (KeyError "given_name")
  /\ ((PaypalTransaction_from_dict (fun s => s) (fun s => s) raw
       = Raise (KeyError "given_name")
       /\ parse_error (KeyError "given_name")
       /\ fst run = empty_store)
      \/ (exists t,
            PaypalTransaction_from_dict (fun s => s) (fun s => s) raw = Ok t
            /\ entry_point_error t (KeyError "given_name"))).
Proof.
  intros raw run. split; [reflexivity|].
  apply (entry_point_errors (fun s => s) (fun s => s) org0 raw
           (vendor "ACTIVE" 10 (Some 40)) empty_store
           (KeyError "given_name")).
  reflexivity.
Defined.

(** X2: an event code outside the sixteen the entry point knows raises
    'Unknown event code' with the store untouched, and that exception is
    raised for no other transaction. *)
Theorem unknown_event_code org t ppc st :
  (code_in (PaypalTransaction.event_code t) known_event_codes = false ->
   handle_paypal_charge_external_initiation org t ppc st
   = (st, Raise (Exception ("Unknown event code: "
                            ++ PaypalTransaction.event_code t))))
  /\ (snd (handle_paypal_charge_external_initiation org t ppc st)
      = Raise (Exception ("Unknown event code: "
                          ++ PaypalTransaction.event_code t)) ->
      code_in (PaypalTransaction.event_code t) known_event_codes = false).
Proof.
  split.
  - rewrite known_event_codes_split. intros H.
    apply orb_false_iff in H as [H H2]. apply orb_false_iff in H as [H Hs].
    apply orb_false_iff in H as [Hk Hr].
    unfold handle_paypal_charge_external_initiation. cbv zeta.
    rewrite Hk, Hr, Hs, H2.
    assert (H0 : String.eqb (PaypalTransaction.event_code t) "T0000" = false).
    { unfold code_in, single_opportunity_event_codes in Hs. simpl in Hs.
      apply orb_false_iff in Hs as [_ Hs].
      apply orb_false_iff in Hs as [Hs _]. exact Hs. }
    rewrite H0. reflexivity.
  - intros H.
    destruct (handle_raises_cases _ _ _ _ _ H)
      as [[_ [E | E]] | [[_ E] | [[Hk _] | [[_ [_ E]] | [Hcode Hs]]]]];
      try discriminate; [exact Hk|].
    destruct (handle_subscription_payment_raises _ _ _ _ _ Hcode Hs)
      as [[_ [E | [E | [E | E]]]]
         | [_ [[rd [_ [E | [d [E _]]]]] | [_ E]]]];
      discriminate.
Qed.

Lemma unknown_event_code_witness :
  handle_paypal_charge_external_initiation org0
    (payment "TX" "T9999" None None None 10 1000)
    (vendor "ACTIVE" 10 (Some 40)) empty_store
  = (empty_store, Raise (Exception "Unknown event code: T9999")).
Proof.
  apply (proj1 (unknown_event_code org0
                  (payment "TX" "T9999" None None None 10 1000)
                  (vendor "ACTIVE" 10 (Some 40)) empty_store)).
  reflexivity.
Defined.

(** X3: [DateRangeToleranceExceeded] leaves the entry point only from
    the branch that looks the series up by account id (a T0002 payment
    whose reference is not a subscription, for an account that has a
    RecurringDonation); [process_subscription_payment] itself never lets
    it out. *)
Theorem tolerance_signal_escapes_only_by_account org t ppc st d :
  (snd (handle_paypal_charge_external_initiation org t ppc st)
   = Raise (DateRangeToleranceExceeded d) ->
   PaypalTransaction.event_code t = "T0002"
   /\ PaypalTransaction.reference_id_type t <> Some "SUB"
   /\ 10 < d
   /\ exists rd,
        find (by_paypal_account_id (PaypalTransaction.account_id t))
             (recurring_donations st) = Some rd)
  /\ (forall sub,
        code_in (PaypalSubscription.status sub)
                ["ACTIVE"; "CANCELLED"; "SUSPENDED"] = true ->
        snd (process_subscription_payment t sub org st)
        <> Raise (DateRangeToleranceExceeded d)).
Proof.
  split.
  - intros H.
    destruct (handle_raises_cases _ _ _ _ _ H)
      as [[_ [E | E]] | [[_ E] | [[_ E] | [[_ [_ E]] | [Hcode Hs]]]]];
      try discriminate.
    destruct (handle_subscription_payment_raises _ _ _ _ _ Hcode Hs)
      as [[_ [E | [E | [E | E]]]]
         | [Hsub [[rd [Hrd [E | [d' [E Hd]]]]] | [_ E]]]];
      try discriminate.
    injection E as ->. eauto.
  - intros sub Hst H.
    destruct (process_subscription_payment_raises t sub org Hst st _ H);
      discriminate.
Qed.

Lemma tolerance_signal_escapes_only_by_account_witness :
  let t := payment "TX2" "T0002" None None (Some "PAYER1") 100 1000 in
  PaypalTransaction.event_code t = "T0002"
  /\ PaypalTransaction.reference_id_type t <> Some "SUB"
  /\ 10 < 90
  /\ exists rd,
       find (by_paypal_account_id (PaypalTransaction.account_id t))
            [series 0 "Open"] = Some rd.
Proof.
  intro t.
  apply (proj1 (tolerance_signal_escapes_only_by_account org0 t
                  (vendor "ACTIVE" 10 (Some 40))
                  (mkStore [] [installment 1 0 "TX" 10] [series 0 "Open"] 2)
                  90)).
  reflexivity.
Defined.

(** X4: a transaction the entry point ignores -- one of the ten skipped
    event codes, a T0000 with a negative amount, or a T1107 with a
    positive amount -- returns without error and leaves the store
    exactly as it was. *)
Theorem ignored_transaction_leaves_store org t ppc st :
  code_in (PaypalTransaction.event_code t) skipped_event_codes = true
  \/ (PaypalTransaction.event_code t = "T0000"
      /\ PaypalTransaction.gross_amount t < 0)
  \/ (PaypalTransaction.event_code t = "T1107"
      /\ 0 < PaypalTransaction.gross_amount t) ->
  handle_paypal_charge_external_initiation org t ppc st = (st, Ok tt).
Proof.
  unfold handle_paypal_charge_external_initiation. cbv zeta.
  intros [H | [[Hc Hg] | [Hc Hg]]].
  - rewrite H. reflexivity.
  - rewrite Hc. simpl. apply Z.ltb_lt in Hg. rewrite Hg. reflexivity.
  - rewrite Hc. simpl. rewrite Z.gtb_ltb.
    apply Z.ltb_lt in Hg. rewrite Hg. reflexivity.
Qed.

Lemma ignored_transaction_leaves_store_witness :
  let st := mkStore [] [installment 1 0 "TX" 10] [series 0 "Open"] 2 in
  handle_paypal_charge_external_initiation org0
    (payment "RF" "T1107" None (Some "TX") (Some "PAYER1") 12 1000)
    (vendor "CANCELLED" 10 None) st
  = (st, Ok tt).
Proof.
  intro st.
  apply (ignored_transaction_leaves_store org0
           (payment "RF" "T1107" None (Some "TX") (Some "PAYER1") 12 1000)
           (vendor "CANCELLED" 10 None) st).
  right. right. split; [reflexivity | simpl; lia].
Defined.

(** ** Extra properties of the standalone path *)

Lemma contact_from_paypal_transaction_email t email org c :
  contact_from_paypal_transaction t email org = Ok c ->
  Contact.email c = email.
Proof.
  unfold contact_from_paypal_transaction.
  destruct (PaypalTransaction.name t); [|discriminate].
  destruct (PaypalTransaction.address t); intros H; injection H as <-;
    reflexivity.
Qed.

Lemma Contact_upsert_result c st :
  exists st0 c0,
    Contact_upsert c st = (st0, Ok c0)
    /\ In c0 (contacts st0)
    /\ Contact.email c0 = Contact.email c
    /\ opportunities st0 = opportunities st
    /\ recurring_donations st0 = recurring_donations st
    /\ (next_id st <= next_id st0)%nat
    /\ (forall c1,
          find (fun c' => String.eqb (Contact.email c') (Contact.email c))
               (contacts st) = Some c1 ->
          c0 = c1 /\ st0 = st).
Proof.
  unfold Contact_upsert.
  destruct (find _ (contacts st)) as [c1|] eqn:E.
  - exists st, c1. apply find_some in E as [Hin Heq].
    apply String.eqb_eq in Heq.
    repeat split; auto; injection H as <-; reflexivity.
  - do 2 eexists. split; [reflexivity|]. simpl.
    repeat split; try lia; try discriminate.
    apply in_or_app. right. left. reflexivity.
Qed.

(** X5: the standalone path on a store in which no Opportunity carries
    the transaction id, for a transaction with a payer name and an
    email: it returns; it appends exactly one Opportunity, 'Closed Won',
    with the transaction's amount, net amount (gross minus fee), date
    and id, under the account of the Contact with that email, and linked
    to no RecurringDonation; an existing Contact with that email is
    reused and no Contact is created; the RecurringDonations are not
    touched. *)
Theorem process_as_single_opportunity_creates t org sub st email nm :
  find_email t sub = Ok email ->
  PaypalTransaction.name t = Some nm ->
  count_carrying (PaypalTransaction.id_ t) st = 0%nat ->
  exists st1 contact o n,
    process_as_single_opportunity t org sub st = (st1, Ok tt)
    /\ In contact (contacts st1)
    /\ Contact.email contact = email
    /\ (forall c0,
          find (fun c' => String.eqb (Contact.email c') email) (contacts st)
          = Some c0 ->
          contact = c0 /\ contacts st1 = contacts st)
    /\ recurring_donations st1 = recurring_donations st
    /\ opportunities st1 = (opportunities st ++ [o])%list
    /\ Opportunity.id_ o = Some n /\ (next_id st <= n)%nat
    /\ Opportunity.account_id o = Contact.account_id contact
    /\ Opportunity.stage_name o = "Closed Won"
    /\ Opportunity.amount o = PaypalTransaction.gross_amount t
    /\ Opportunity.net_amount o
       = PaypalTransaction.gross_amount t - PaypalTransaction.fee_amount t
    /\ Opportunity.close_date o = PaypalTransaction.transaction_date t
    /\ Opportunity.paypal_transaction_id o = Some (PaypalTransaction.id_ t)
    /\ Opportunity.recurring_donation_id o = None.
Proof.
  intros He Hname H0. unfold process_as_single_opportunity.
  rewrite bind_lift, He, bind_lift.
  destruct (contact_from_paypal_transaction t email org) as [c|e] eqn:Hcf.
  2:{ unfold contact_from_paypal_transaction in Hcf. rewrite Hname in Hcf.
      destruct (PaypalTransaction.address t); discriminate. }
  pose proof (contact_from_paypal_transaction_email _ _ _ _ Hcf) as Hce.
  destruct (Contact_upsert_result c st)
    as [st0 [c0 [Hc [Hin [Hemail [Ho [Hr [Hn Hreuse]]]]]]]].
  rewrite (bind_Ok _ _ _ _ _ Hc).
  destruct (Opportunity_upsert_spec
              (opportunity_from_paypal_transaction t c0 org) st0 eq_refl)
    as [st1 [o' [Hu [Hr' [[Hf _] | [_ [Ho' Hopps]]]]]]].
  { exfalso. apply find_some in Hf as [Hfin Hcar]. rewrite Ho in Hfin.
    unfold count_carrying in H0.
    change (carries (PaypalTransaction.id_ t) o' = true) in Hcar.
    rewrite (count_carrying_zero _ _ _ H0 Hfin) in Hcar. discriminate. }
  rewrite (bind_Ok _ _ _ _ _ Hu). unfold ret.
  assert (Hcontacts : contacts st1 = contacts st0).
  { unfold Opportunity_upsert, bind, Opportunity_get in Hu.
    destruct (find _ (opportunities st0)).
    - unfold ret in Hu. injection Hu as <- _. reflexivity.
    - unfold Opportunity_save in Hu. simpl in Hu. injection Hu as <- _.
      reflexivity. }
  exists st1, c0, o', (next_id st0).
  split; [reflexivity|]. rewrite Hcontacts.
  split; [exact Hin|]. split; [rewrite Hemail; exact Hce|].
  split.
  { intros c1 Hc1. rewrite <- Hce in Hc1.
    destruct (Hreuse c1 Hc1) as [-> ->]. auto. }
  split; [rewrite Hr'; exact Hr|].
  split; [rewrite Hopps, Ho; reflexivity|].
  rewrite Ho'. simpl. repeat split. exact Hn.
Qed.

Lemma process_as_single_opportunity_creates_witness :
  let t := payment "TX" "T0013" None None (Some "PAYER1") 10 1000 in
  exists st1 contact o n,
    process_as_single_opportunity t org0 None empty_store = (st1, Ok tt)
    /\ In contact (contacts st1)
    /\ Contact.email contact = "ada@example.org"
    /\ (forall c0,
          find (fun c' => String.eqb (Contact.email c') "ada@example.org")
               (contacts empty_store) = Some c0 ->
          contact = c0 /\ contacts st1 = contacts empty_store)
    /\ recurring_donations st1 = recurring_donations empty_store
    /\ opportunities st1 = (opportunities empty_store ++ [o])%list
    /\ Opportunity.id_ o = Some n /\ (next_id empty_store <= n)%nat
    /\ Opportunity.account_id o = Contact.account_id contact
    /\ Opportunity.stage_name o = "Closed Won"
    /\ Opportunity.amount o = PaypalTransaction.gross_amount t
    /\ Opportunity.net_amount o
       = PaypalTransaction.gross_amount t - PaypalTransaction.fee_amount t
    /\ Opportunity.close_date o = PaypalTransaction.transaction_date t
    /\ Opportunity.paypal_transaction_id o = Some (PaypalTransaction.id_ t)
    /\ Opportunity.recurring_donation_id o = None.
Proof.
  intro t.
  apply (process_as_single_opportunity_creates t org0 None empty_store
           "ada@example.org" donor); reflexivity.
Defined.

(** X6: a transaction without a payer name, or without an email when no
    subscription supplies one, makes the standalone path raise
    [AttributeError] before anything is written: the store is left
    exactly as it was. *)
Theorem process_as_single_opportunity_incomplete t org sub st :
  (exists e, find_email t sub = Raise e) \/ PaypalTransaction.name t = None ->
  process_as_single_opportunity t org sub st = (st, Raise AttributeError).
Proof.
  intros H. unfold process_as_single_opportunity. rewrite bind_lift.
  destruct (find_email t sub) as [email|e] eqn:He.
  - destruct H as [[e' He'] | Hname]; [discriminate|].
    rewrite bind_lift. unfold contact_from_paypal_transaction.
    rewrite Hname. reflexivity.
  - rewrite (find_email_raises _ _ _ He). reflexivity.
Qed.

Lemma process_as_single_opportunity_incomplete_witness :
  let t := PaypalTransaction.mk "TX" "T0013" None None None 10 1000 30 "S"
             None (Some "ada@example.org") None None None in
  process_as_single_opportunity t org0 None empty_store
  = (empty_store, Raise AttributeError).
Proof.
  intro t.
  apply (process_as_single_opportunity_incomplete t org0 None empty_store).
  right. reflexivity.
Defined.

(** ** Checking well-formedness of a given store *)

Lemma distinct_ids_NoDup l : distinct_ids l = true -> NoDup l.
Proof.
  induction l as [|x l IH]; simpl; intros H; constructor.
  - apply andb_true_iff in H as [H _]. apply negb_true_iff in H.
    intros Hin. assert (Hex : existsb (option_id_eqb x) l = true).
    { apply existsb_exists. exists x. split; [exact Hin|].
      destruct x as [i|]; simpl; [apply Nat.eqb_refl | reflexivity]. }
    rewrite Hex in H. discriminate.
  - apply andb_true_iff in H as [_ H]. exact (IH H).
Qed.

Lemma wf_store_check_sound st : wf_store_check st = true -> wf_store st.
Proof.
  unfold wf_store_check. intros H.
  apply andb_true_iff in H as [H H4]. apply andb_true_iff in H as [H H3].
  apply andb_true_iff in H as [H1 H2].
  split.
  - apply Forall_forall. intros o Ho.
    rewrite forallb_forall in H1. specialize (H1 o Ho).
    destruct (Opportunity.id_ o) as [j|]; [|discriminate].
    exists j. split; [reflexivity|]. apply Nat.ltb_lt. exact H1.
  - apply distinct_ids_NoDup. exact H2.
  - apply Forall_forall. intros o Ho r Hr.
    rewrite forallb_forall in H3. specialize (H3 o Ho).
    rewrite Hr in H3. apply Nat.ltb_lt. exact H3.
  - apply Forall_forall. intros r Hr.
    rewrite forallb_forall in H4. specialize (H4 r Hr).
    destruct (RecurringDonation.id_ r) as [j|]; [|discriminate].
    exists j. split; [reflexivity|]. apply Nat.ltb_lt. exact H4.
Qed.

(** ** Extra properties of refunds *)

Lemma close_refunded_series_result o org ppc st r :
  snd (close_refunded_series o org ppc st) = r ->
  r = Ok tt \/ r = Raise AttributeError
  \/ r = Raise (KeyError "next_billing_time").
Proof.
  intros <-. unfold close_refunded_series, bind, RecurringDonation_get,
    raise, ret.
  destruct (Opportunity.recurring_donation_id o); [|auto].
  destruct (find _ (recurring_donations st)) as [rd|]; [|auto].
  destruct (String.eqb _ "Closed"); [auto|].
  unfold lift. destruct (from_dict _) as [sub|e] eqn:E; [auto|].
  rewrite (from_dict_raises _ _ E). auto.
Qed.

(** A refund that finds its Opportunity rewrites it in place. *)
Lemma process_refund_rewrites t org ppc st o :
  wf_store st ->
  find (fun o => option_string_eqb (Opportunity.paypal_transaction_id o)
                                   (PaypalTransaction.reference_id t))
       (opportunities st) = Some o ->
  exists a b r,
    opportunities st = (a ++ o :: b)%list
    /\ process_refund t org ppc st
       = (mkStore (contacts st)
                  (a ++ Opportunity.set_stage_name o "Refunded" :: b)
                  (recurring_donations st) (next_id st), r)
    /\ (r = Ok tt \/ r = Raise AttributeError
        \/ r = Raise (KeyError "next_billing_time")).
Proof.
  intros Hwf Hfind. rewrite process_refund_run, Hfind.
  pose proof Hfind as Hf. apply find_some in Hf as [Hin _].
  pose proof (wf_opportunity_ids st Hwf) as Hids.
  rewrite Forall_forall in Hids. destruct (Hids o Hin) as [i [Hid _]].
  destruct (NoDup_ids_split _ _ (wf_opportunity_nodup st Hwf) Hin)
    as [a [b [Hab [Ha Hb]]]].
  exists a, b.
  unfold bind, Opportunity_save.
  change (Opportunity.id_ (Opportunity.set_stage_name o "Refunded"))
    with (Opportunity.id_ o).
  rewrite Hid.
  assert (Hnew : replace_where
                   (fun o' => id_is i (Opportunity.id_ o'))
                   (Opportunity.set_stage_name o "Refunded")
                   (opportunities st)
                 = (a ++ Opportunity.set_stage_name o "Refunded" :: b)%list).
  { rewrite Hab. apply replace_where_split.
    - intros z Hz. apply id_is_false_of_neq. rewrite <- Hid. apply Ha, Hz.
    - intros z Hz. apply id_is_false_of_neq. rewrite <- Hid. apply Hb, Hz.
    - rewrite Hid. apply id_is_refl. }
  rewrite Hnew.
  match goal with
  | |- context [close_refunded_series ?x ?y ?z ?w] =>
      pose proof (close_refunded_series_store x y z w) as Hstore;
      pose proof (close_refunded_series_result x y z w _ eq_refl) as Hres;
      destruct (close_refunded_series x y z w) as [st' r]
  end.
  simpl in Hstore, Hres. subst st'. exists r. auto.
Qed.

(** X7: a refund whose reference matches no Opportunity raises
    [AttributeError] and leaves the store as it was; a refund whose
    reference matches one rewrites exactly that Opportunity with stage
    'Refunded' -- its other fields, the other Opportunities, Contacts and
    RecurringDonations stay as they were -- also
    when the lookup of the RecurringDonation or of the subscription
    fails afterwards. *)
Theorem process_refund_effect t org ppc st :
  (find (fun o => option_string_eqb (Opportunity.paypal_transaction_id o)
                                    (PaypalTransaction.reference_id t))
        (opportunities st) = None ->
   process_refund t org ppc st = (st, Raise AttributeError))
  /\ (forall o,
        wf_store st ->
        find (fun o => option_string_eqb (Opportunity.paypal_transaction_id o)
                                         (PaypalTransaction.reference_id t))
             (opportunities st) = Some o ->
        exists a b r,
          opportunities st = (a ++ o :: b)%list
          /\ process_refund t org ppc st
             = (mkStore (contacts st)
                        (a ++ Opportunity.set_stage_name o "Refunded" :: b)
                        (recurring_donations st) (next_id st), r)
          /\ (r = Ok tt \/ r = Raise AttributeError
              \/ r = Raise (KeyError "next_billing_time"))).
Proof.
  split.
  - intros H. rewrite process_refund_run, H. reflexivity.
  - intros o Hwf Hfind. exact (process_refund_rewrites t org ppc st o Hwf Hfind).
Qed.

Lemma process_refund_effect_witness :
  let st := mkStore [] [installment 1 0 "TX" 10; installment 2 0 "TY" 40]
                    [series 0 "Open"] 3 in
  let t := payment "RF" "T1107" None (Some "TY") (Some "PAYER1") 42 (-1000) in
  exists a b r,
    opportunities st = (a ++ installment 2 0 "TY" 40 :: b)%list
    /\ process_refund t org0 (vendor "ACTIVE" 40 (Some 70)) st
       = (mkStore (contacts st)
            (a ++ Opportunity.set_stage_name (installment 2 0 "TY" 40)
                    "Refunded" :: b)
            (recurring_donations st) (next_id st), r)
    /\ (r = Ok tt \/ r = Raise AttributeError
        \/ r = Raise (KeyError "next_billing_time")).
Proof.
  intros st t.
  apply (proj2 (process_refund_effect t org0 (vendor "ACTIVE" 40 (Some 70))
                  st)).
  - apply wf_store_check_sound. reflexivity.
  - reflexivity.
Defined.

(** X8: a refund is idempotent on a well-formed store: running
    [process_refund] again on the store it left changes nothing at all,
    and the number of Opportunities that carry any given transaction id
    is the same before and after a refund. *)
Theorem process_refund_idempotent t org ppc st tid :
  wf_store st ->
  fst (process_refund t org ppc (fst (process_refund t org ppc st)))
  = fst (process_refund t org ppc st)
  /\ count_carrying tid (fst (process_refund t org ppc st))
     = count_carrying tid st.
Proof.
  intros Hwf.
  destruct (process_refund t org ppc st) as [st1 r] eqn:Hrun. simpl.
  destruct (process_refund_twice _ _ _ _ _ _ tid Hwf Hrun) as [Hcount Hopps].
  split; [|exact Hcount].
  pose proof (process_refund_recurring_donations t org ppc st1) as Hrds.
  assert (Hframe : contacts (fst (process_refund t org ppc st1)) = contacts st1
                   /\ next_id (fst (process_refund t org ppc st1))
                      = next_id st1).
  { rewrite process_refund_run.
    destruct (find _ (opportunities st1)) as [o|] eqn:Hfind; [|auto].
    assert (Hwf1 : wf_store st1).
    { pose proof (process_refund_wf t org ppc st Hwf) as [Hw _].
      rewrite Hrun in Hw. exact Hw. }
    destruct (process_refund_rewrites t org ppc st1 o Hwf1 Hfind)
      as [a [b [r' [_ [Heq _]]]]].
    rewrite process_refund_run, Hfind in Heq. rewrite Heq. auto. }
  destruct Hframe as [Hc Hn].
  destruct (fst (process_refund t org ppc st1)) as [c o rd n].
  destruct st1 as [c1 o1 rd1 n1]. simpl in *. subst. reflexivity.
Qed.

Lemma process_refund_idempotent_witness :
  let st := mkStore [] [installment 1 0 "TX" 10] [series 0 "Open"] 2 in
  let t := payment "RF" "T1107" None (Some "TX") (Some "PAYER1") 12 (-1000) in
  let run := process_refund t org0 (vendor "CANCELLED" 10 None) in
  fst (run (fst (run st))) = fst (run st)
  /\ count_carrying "TX" (fst (run st)) = count_carrying "TX" st.
Proof.
  intros st t run.
  apply (process_refund_idempotent t org0 (vendor "CANCELLED" 10 None) st "TX").
  apply wf_store_check_sound. reflexivity.
Defined.

(** ** Extra properties of subscription payments *)

Lemma find_closest_opportunity_all_far l t org :
  l <> [] -> (forall x, In x l -> 10 < days_delta t x) ->
  exists d, find_closest_opportunity l t org
            = Raise (DateRangeToleranceExceeded d) /\ 10 < d.
Proof.
  intros Hne Hfar. rewrite find_closest_opportunity_unfold.
  destruct l as [|b l]; [contradiction|]. cbv zeta.
  pose proof (Hfar _ (min_from_in (days_delta t) b l)) as Hmin.
  assert (E : (days_delta t (min_from (days_delta t) b l) >? 10) = true).
  { rewrite Z.gtb_ltb. apply Z.ltb_lt. exact Hmin. }
  rewrite E. eauto.
Qed.

Lemma find_email_with_subscription t sub :
  exists email, find_email t (Some sub) = Ok email.
Proof. unfold find_email. destruct (truthy _); eauto. Qed.

Lemma contact_from_paypal_transaction_named t email org nm :
  PaypalTransaction.name t = Some nm ->
  exists c, contact_from_paypal_transaction t email org = Ok c.
Proof.
  intros H. unfold contact_from_paypal_transaction. rewrite H.
  destruct (PaypalTransaction.address t); eauto.
Qed.

Lemma create_linked_opportunity_ok t sub org rd st nm p :
  PaypalTransaction.name t = Some nm ->
  PaypalSubscription.installment_period sub = Some p ->
  exists st1 o n,
    create_linked_opportunity t sub org rd st = (st1, Ok tt)
    /\ recurring_donations st1 = recurring_donations st
    /\ opportunities st1 = (opportunities st ++ [o])%list
    /\ Opportunity.id_ o = Some n /\ (next_id st <= n)%nat
    /\ Opportunity.recurring_donation_id o = RecurringDonation.id_ rd
    /\ Opportunity.type_ o = Some "Recurring Donation"
    /\ Opportunity.installment_period o = Some (PeriodType_value p)
    /\ Opportunity.stage_name o = "Closed Won"
    /\ Opportunity.paypal_transaction_id o = Some (PaypalTransaction.id_ t)
    /\ Opportunity.close_date o = PaypalTransaction.transaction_date t
    /\ Opportunity.amount o = PaypalTransaction.gross_amount t.
Proof.
  intros Hname Hp. unfold create_linked_opportunity.
  destruct (find_email_with_subscription t sub) as [email He].
  rewrite bind_lift, He, bind_lift.
  destruct (contact_from_paypal_transaction_named t email org nm Hname)
    as [c Hc]. rewrite Hc.
  destruct (Contact_upsert_spec c st) as [st0 [c0 [Hu [Ho [Hr Hn]]]]].
  rewrite (bind_Ok _ _ _ _ _ Hu), Hp.
  unfold update_opportunity, bind, Opportunity_save, ret. simpl.
  do 3 eexists. split; [reflexivity|]. simpl.
  rewrite Ho, Hr. repeat split. exact Hn.
Qed.

Lemma create_linked_opportunity_no_period t sub org rd st nm :
  PaypalTransaction.name t = Some nm ->
  PaypalSubscription.installment_period sub = None ->
  exists st1,
    create_linked_opportunity t sub org rd st = (st1, Raise AttributeError)
    /\ recurring_donations st1 = recurring_donations st
    /\ opportunities st1 = opportunities st.
Proof.
  intros Hname Hp. unfold create_linked_opportunity.
  destruct (find_email_with_subscription t sub) as [email He].
  rewrite bind_lift, He, bind_lift.
  destruct (contact_from_paypal_transaction_named t email org nm Hname)
    as [c Hc]. rewrite Hc.
  destruct (Contact_upsert_spec c st) as [st0 [c0 [Hu [Ho [Hr Hn]]]]].
  rewrite (bind_Ok _ _ _ _ _ Hu), Hp.
  exists st0. auto.
Qed.

Lemma update_or_create_installment_far t sub org rd st :
  filter (linked_to (RecurringDonation.id_ rd)) (opportunities st) <> [] ->
  (forall x, In x (filter (linked_to (RecurringDonation.id_ rd))
                          (opportunities st)) -> 10 < days_delta t x) ->
  update_or_create_installment t sub org rd st
  = create_linked_opportunity t sub org rd st.
Proof.
  intros Hne Hfar.
  destruct (find_closest_opportunity_all_far _ t org Hne Hfar) as [d [Hfc _]].
  unfold update_or_create_installment, try_except_DateRangeToleranceExceeded.
  rewrite (update_closest_opportunity_raise _ _ _ _ _ Hfc). reflexivity.
Qed.

Lemma cancelled_subscription_closes_series_aux t
    (sub : PaypalSubscription.t) st rd :
  wf_store st ->
  find (by_paypal_subscription_id (PaypalTransaction.reference_id t))
       (recurring_donations st) = Some rd ->
  PaypalSubscription.status sub = "CANCELLED" ->
  exists stm rdc,
    RecurringDonation_save
      (RecurringDonation.set_open_ended_status rd "Closed") st
    = (stm, Ok rdc)
    /\ opportunities stm = opportunities st
    /\ RecurringDonation.id_ rdc = RecurringDonation.id_ rd
    /\ find (by_paypal_subscription_id (PaypalTransaction.reference_id t))
            (recurring_donations stm) = Some rdc
    /\ RecurringDonation.open_ended_status rdc = "Closed".
Proof.
  intros Hwf Hl _.
  assert (Hid : exists i, RecurringDonation.id_ rd = Some i).
  { pose proof (wf_recurring_donation_ids st Hwf) as Hids.
    rewrite Forall_forall in Hids.
    pose proof Hl as Hin. apply find_some in Hin as [Hin _].
    destruct (Hids rd Hin) as [i [Hi _]]. eauto. }
  destruct Hid as [i Hid].
  unfold RecurringDonation_save.
  change (RecurringDonation.id_
            (RecurringDonation.set_open_ended_status rd "Closed"))
    with (RecurringDonation.id_ rd).
  rewrite Hid. do 2 eexists. split; [reflexivity|]. simpl.
  split; [reflexivity|]. split; [exact Hid|]. split; [|reflexivity].
  apply (find_replace_where _ _ _ rd); [exact Hl | |].
  - unfold by_id. rewrite Hid. apply id_is_refl.
  - apply find_some in Hl as [_ Hq]. exact Hq.
Qed.

(** X9: when a RecurringDonation exists for the subscription and the
    subscription is CANCELLED, [process_subscription_payment] leaves that
    RecurringDonation 'Closed' in the store, whatever happens to the
    payment afterwards (matched, new installment, or an error). *)
Theorem cancelled_subscription_closes_series t sub org st rd :
  wf_store st ->
  find (by_paypal_subscription_id (PaypalTransaction.reference_id t))
       (recurring_donations st) = Some rd ->
  PaypalSubscription.status sub = "CANCELLED" ->
  exists rd',
    find (by_paypal_subscription_id (PaypalTransaction.reference_id t))
         (recurring_donations
            (fst (process_subscription_payment t sub org st))) = Some rd'
    /\ RecurringDonation.open_ended_status rd' = "Closed"
    /\ RecurringDonation.id_ rd' = RecurringDonation.id_ rd.
Proof.
  intros Hwf Hl Hcan.
  rewrite (process_subscription_payment_found _ _ _ _ _ Hl), Hcan. simpl.
  assert (Hid : exists i, RecurringDonation.id_ rd = Some i).
  { pose proof (wf_recurring_donation_ids st Hwf) as Hids.
    rewrite Forall_forall in Hids.
    pose proof Hl as Hin. apply find_some in Hin as [Hin _].
    destruct (Hids rd Hin) as [i [Hi _]]. eauto. }
  destruct Hid as [i Hid].
  set (rdc := RecurringDonation.set_open_ended_status rd "Closed").
  assert (Hsave : RecurringDonation_save rdc st
                  = (mkStore (contacts st) (opportunities st)
                       (replace_where (by_id i) rdc (recurring_donations st))
                       (next_id st), Ok rdc)).
  { unfold RecurringDonation_save.
    change (RecurringDonation.id_ rdc) with (RecurringDonation.id_ rd).
    rewrite Hid. reflexivity. }
  rewrite (bind_Ok _ _ _ _ _ Hsave).
  match goal with
  | |- context [update_or_create_installment t sub org rdc ?s] =>
      set (stm := s)
  end.
  destruct (update_or_create_installment t sub org rdc stm) as [st1 r] eqn:Hrun.
  destruct (update_or_create_installment_twice t sub org rdc stm st1 r)
    as [_ [Hr _]].
  { exact (wf_opportunity_nodup st Hwf). }
  { exact (wf_opportunity_ids st Hwf). }
  { exact Hrun. }
  exists rdc. simpl. rewrite Hr. simpl.
  split; [|split; reflexivity].
  apply (find_replace_where _ _ _ rd); [exact Hl | |].
  - unfold by_id. rewrite Hid. apply id_is_refl.
  - apply find_some in Hl as [_ Hq]. exact Hq.
Qed.

Lemma cancelled_subscription_closes_series_witness :
  let st := mkStore [] [installment 1 0 "TX" 10] [series 0 "Open"] 2 in
  let t := payment "TX2" "T0002" (Some "SUB") (Some "I-SUB1")
                   (Some "PAYER1") 12 1000 in
  let sub := PaypalSubscription.mk "I-SUB1" "CANCELLED" "ada@example.org"
               1000 "PAYER1" 10 "2020-01-01T00:00:00Z" None in
  exists rd',
    find (by_paypal_subscription_id (PaypalTransaction.reference_id t))
         (recurring_donations
            (fst (process_subscription_payment t sub org0 st))) = Some rd'
    /\ RecurringDonation.open_ended_status rd' = "Closed"
    /\ RecurringDonation.id_ rd' = RecurringDonation.id_ (series 0 "Open").
Proof.
  intros st t sub.
  apply (cancelled_subscription_closes_series t sub org0 st (series 0 "Open")).
  - apply wf_store_check_sound. reflexivity.
  - reflexivity.
  - reflexivity.
Defined.

(** X10: the first payment seen for a subscription that is CANCELLED or
    SUSPENDED, or whose billing gap gave no installment period, is
    handled exactly as a standalone payment: no RecurringDonation is
    created. *)
Theorem first_sighting_fallback t sub org st :
  find (by_paypal_subscription_id (PaypalTransaction.reference_id t))
       (recurring_donations st) = None ->
  PaypalSubscription.status sub = "CANCELLED"
  \/ PaypalSubscription.status sub = "SUSPENDED"
  \/ PaypalSubscription.installment_period sub = None ->
  process_subscription_payment t sub org st
  = process_as_single_opportunity t org (Some sub) st
  /\ recurring_donations (fst (process_subscription_payment t sub org st))
     = recurring_donations st.
Proof.
  intros Hl Hcase.
  assert (Hfb : standalone_fallback sub = true).
  { unfold standalone_fallback.
    destruct Hcase as [H | [H | H]]; rewrite H; simpl;
      [reflexivity | reflexivity | apply orb_true_r]. }
  rewrite (process_subscription_payment_not_found _ _ _ _ Hl), Hfb.
  split; [reflexivity|].
  destruct (process_as_single_opportunity t org (Some sub) st)
    as [st1 r] eqn:Hrun.
  destruct (process_as_single_opportunity_twice _ _ _ _ _ _ Hrun)
    as [_ [Hr _]].
  exact Hr.
Qed.

Lemma first_sighting_fallback_witness :
  let t := payment "TX" "T0002" (Some "SUB") (Some "I-SUB1")
                   (Some "PAYER1") 10 1000 in
  let sub := PaypalSubscription.mk "I-SUB1" "SUSPENDED" "ada@example.org"
               1000 "PAYER1" 10 "2020-01-01T00:00:00Z" None in
  process_subscription_payment t sub org0 empty_store
  = process_as_single_opportunity t org0 (Some sub) empty_store
  /\ recurring_donations
       (fst (process_subscription_payment t sub org0 empty_store))
     = recurring_donations empty_store.
Proof.
  intros t sub.
  apply (first_sighting_fallback t sub org0 empty_store).
  - reflexivity.
  - right. left. reflexivity.
Defined.

(** X11: a payment for a subscription whose RecurringDonation exists and
    has at least one installment, all of its installments being more
    than 10 days away from the transaction date (with a payer name, and
    an installment period on the subscription):
    [process_subscription_payment] returns, having appended one new
    Opportunity linked to that RecurringDonation, of type 'Recurring
    Donation', with the subscription's installment period, 'Closed
    Won', carrying the transaction's id, date and amount.  (A
    RecurringDonation without any installment is the case of the
    matcher on an empty list.) *)
Theorem new_installment_when_out_of_tolerance t sub org st rd nm p :
  wf_store st ->
  find (by_paypal_subscription_id (PaypalTransaction.reference_id t))
       (recurring_donations st) = Some rd ->
  PaypalTransaction.name t = Some nm ->
  PaypalSubscription.installment_period sub = Some p ->
  filter (linked_to (RecurringDonation.id_ rd)) (opportunities st) <> [] ->
  (forall x, In x (filter (linked_to (RecurringDonation.id_ rd))
                          (opportunities st)) -> 10 < days_delta t x) ->
  exists st1 o n,
    process_subscription_payment t sub org st = (st1, Ok tt)
    /\ opportunities st1 = (opportunities st ++ [o])%list
    /\ Opportunity.id_ o = Some n /\ (next_id st <= n)%nat
    /\ Opportunity.recurring_donation_id o = RecurringDonation.id_ rd
    /\ Opportunity.type_ o = Some "Recurring Donation"
    /\ Opportunity.installment_period o = Some (PeriodType_value p)
    /\ Opportunity.stage_name o = "Closed Won"
    /\ Opportunity.paypal_transaction_id o = Some (PaypalTransaction.id_ t)
    /\ Opportunity.close_date o = PaypalTransaction.transaction_date t
    /\ Opportunity.amount o = PaypalTransaction.gross_amount t.
Proof.
  intros Hwf Hl Hname Hp Hne Hfar.
  rewrite (process_subscription_payment_found _ _ _ _ _ Hl).
  assert (Hid : exists i, RecurringDonation.id_ rd = Some i).
  { destruct (filter _ (opportunities st)) as [|x l] eqn:E; [contradiction|].
    assert (Hx : In x (filter (linked_to (RecurringDonation.id_ rd))
                              (opportunities st)))
      by (rewrite E; left; reflexivity).
    apply filter_In in Hx as [_ Hx].
    apply linked_to_witness in Hx as [i [Hi _]]. eauto. }
  destruct Hid as [i Hid].
  destruct (close_if_cancelled_spec sub _ rd i st Hid Hl)
    as [stm [rdm [Hclose [Ho [Hn [Hidm _]]]]]].
  rewrite (bind_Ok _ _ _ _ _ Hclose).
  rewrite update_or_create_installment_far;
    [| rewrite Hidm, Ho, <- Hid; exact Hne
     | rewrite Hidm, Ho, <- Hid; exact Hfar].
  destruct (create_linked_opportunity_ok t sub org rdm stm nm p Hname Hp)
    as [st1 [o [n [Hrun [_ [Hopps [Hoid [Hnn [Hlink Hrest]]]]]]]]].
  exists st1, o, n. split; [exact Hrun|].
  split; [rewrite Hopps, Ho; reflexivity|].
  split; [exact Hoid|]. split; [rewrite <- Hn; exact Hnn|].
  split; [rewrite Hlink, Hidm, Hid; reflexivity|]. exact Hrest.
Qed.

Lemma new_installment_when_out_of_tolerance_witness :
  let st := mkStore [] [installment 1 0 "TX" 10] [series 0 "Open"] 2 in
  let t := payment "TX2" "T0002" (Some "SUB") (Some "I-SUB1")
                   (Some "PAYER1") 40 1000 in
  let sub := PaypalSubscription.mk "I-SUB1" "ACTIVE" "ada@example.org"
               1000 "PAYER1" 40 "2020-01-01T00:00:00Z" (Some monthly) in
  exists st1 o n,
    process_subscription_payment t sub org0 st = (st1, Ok tt)
    /\ opportunities st1 = (opportunities st ++ [o])%list
    /\ Opportunity.id_ o = Some n /\ (next_id st <= n)%nat
    /\ Opportunity.recurring_donation_id o
       = RecurringDonation.id_ (series 0 "Open")
    /\ Opportunity.type_ o = Some "Recurring Donation"
    /\ Opportunity.installment_period o = Some (PeriodType_value monthly)
    /\ Opportunity.stage_name o = "Closed Won"
    /\ Opportunity.paypal_transaction_id o = Some (PaypalTransaction.id_ t)
    /\ Opportunity.close_date o = PaypalTransaction.transaction_date t
    /\ Opportunity.amount o = PaypalTransaction.gross_amount t.
Proof.
  intros st t sub.
  apply (new_installment_when_out_of_tolerance t sub org0 st
           (series 0 "Open") donor monthly).
  - apply wf_store_check_sound. reflexivity.
  - reflexivity.
  - reflexivity.
  - reflexivity.
  - discriminate.
  - intros x [<- | []]. vm_compute. reflexivity.
Defined.

(** X12: when [find_closest_opportunity] accepts an installment, the
    update rewrites that one Opportunity in place: the list keeps its
    length and order, the rewritten Opportunity keeps its id and its
    RecurringDonation, it is an installment of the series at the minimum
    day-delta (at most 10), and Contacts, RecurringDonations and the id
    counter are untouched. *)
Theorem update_closest_opportunity_in_place t org rd st st1 :
  wf_store st ->
  update_closest_opportunity t org rd st = (st1, Ok tt) ->
  exists a y b,
    opportunities st = (a ++ y :: b)%list
    /\ opportunities st1 = (a ++ updated_opportunity y t :: b)%list
    /\ Opportunity.id_ (updated_opportunity y t) = Opportunity.id_ y
    /\ Opportunity.recurring_donation_id (updated_opportunity y t)
       = Opportunity.recurring_donation_id y
    /\ linked_to (RecurringDonation.id_ rd) y = true
    /\ days_delta t y <= 10
    /\ (forall x, In x (opportunities st) ->
                  linked_to (RecurringDonation.id_ rd) x = true ->
                  days_delta t y <= days_delta t x)
    /\ contacts st1 = contacts st
    /\ recurring_donations st1 = recurring_donations st
    /\ next_id st1 = next_id st.
Proof.
  intros Hwf. rewrite update_closest_opportunity_run.
  destruct (find_closest_opportunity _ t org) as [y|e] eqn:Hfc;
    [|discriminate].
  destruct (find_closest_opportunity_Ok_inv _ _ _ _ Hfc)
    as [l1 [l2 [Hsplit [H1 [H2 H10]]]]].
  assert (Hy : In y (filter (linked_to (RecurringDonation.id_ rd))
                            (opportunities st))).
  { rewrite Hsplit. apply in_or_app. right. left. reflexivity. }
  apply filter_In in Hy as [Hin Hlinked].
  pose proof (wf_opportunity_ids st Hwf) as Hsaved.
  rewrite Forall_forall in Hsaved.
  destruct (Hsaved y Hin) as [i [Hid _]].
  destruct (NoDup_ids_split _ _ (wf_opportunity_nodup st Hwf) Hin)
    as [a [b [Hab [Ha Hb]]]].
  unfold update_opportunity, bind, Opportunity_save, ret.
  change (Opportunity.id_ (updated_opportunity y t))
    with (Opportunity.id_ y).
  rewrite Hid. intros H. injection H as <-. simpl.
  exists a, y, b. split; [exact Hab|]. split.
  { rewrite Hab. apply replace_where_split.
    - intros z Hz. apply id_is_false_of_neq. rewrite <- Hid. apply Ha, Hz.
    - intros z Hz. apply id_is_false_of_neq. rewrite <- Hid. apply Hb, Hz.
    - rewrite Hid. apply id_is_refl. }
  repeat split; try assumption.
  intros x Hx Hlx.
  assert (Hxf : In x (filter (linked_to (RecurringDonation.id_ rd))
                             (opportunities st)))
    by (apply filter_In; auto).
  rewrite Hsplit in Hxf. apply in_app_or in Hxf as [Hxf | [<- | Hxf]].
  - specialize (H1 x Hxf). lia.
  - lia.
  - exact (H2 x Hxf).
Qed.

Lemma update_closest_opportunity_in_place_witness :
  let st := mkStore [] [installment 1 0 "TX" 10; installment 2 0 "TY" 40]
                    [series 0 "Open"] 3 in
  let t := payment "TZ" "T0002" None None (Some "PAYER1") 43 1000 in
  exists a y b,
    opportunities st = (a ++ y :: b)%list
    /\ opportunities
         (fst (update_closest_opportunity t org0 (series 0 "Open") st))
       = (a ++ updated_opportunity y t :: b)%list
    /\ Opportunity.id_ (updated_opportunity y t) = Opportunity.id_ y
    /\ Opportunity.recurring_donation_id (updated_opportunity y t)
       = Opportunity.recurring_donation_id y
    /\ linked_to (RecurringDonation.id_ (series 0 "Open")) y = true
    /\ days_delta t y <= 10
    /\ (forall x, In x (opportunities st) ->
                  linked_to (RecurringDonation.id_ (series 0 "Open")) x = true ->
                  days_delta t y <= days_delta t x)
    /\ contacts (fst (update_closest_opportunity t org0 (series 0 "Open") st))
       = contacts st
    /\ recurring_donations
         (fst (update_closest_opportunity t org0 (series 0 "Open") st))
       = recurring_donations st
    /\ next_id (fst (update_closest_opportunity t org0 (series 0 "Open") st))
       = next_id st.
Proof.
  intros st t.
  apply (update_closest_opportunity_in_place t org0 (series 0 "Open") st
           (fst (update_closest_opportunity t org0 (series 0 "Open") st))).
  - apply wf_store_check_sound. reflexivity.
  - reflexivity.
Defined.

(** X13: a settled T0002 payment with a subscription reference, for a
    subscription the vendor reports as CANCELLED, whose RecurringDonation
    exists and has at least one installment, all of its installments
    being more than 10 days away from the transaction date: the entry
    point closes the RecurringDonation and then raises [AttributeError]
    -- a cancelled subscription has no installment period for the new
    installment -- so no Opportunity records the payment.  (A
    RecurringDonation without any installment is the case of the
    matcher on an empty list.) *)
Theorem cancelled_payment_out_of_tolerance org t ppc st rd nm :
  wf_store st ->
  PaypalTransaction.event_code t = "T0002" ->
  0 <= PaypalTransaction.gross_amount t ->
  PaypalTransaction.status t = "S" ->
  PaypalTransaction.reference_id_type t = Some "SUB" ->
  PaypalTransaction.name t = Some nm ->
  raw_status (ppc (PaypalTransaction.reference_id t)) = "CANCELLED" ->
  find (by_paypal_subscription_id (PaypalTransaction.reference_id t))
       (recurring_donations st) = Some rd ->
  filter (linked_to (RecurringDonation.id_ rd)) (opportunities st) <> [] ->
  (forall x, In x (filter (linked_to (RecurringDonation.id_ rd))
                          (opportunities st)) -> 10 < days_delta t x) ->
  exists st1 rd',
    handle_paypal_charge_external_initiation org t ppc st
    = (st1, Raise AttributeError)
    /\ opportunities st1 = opportunities st
    /\ find (by_paypal_subscription_id (PaypalTransaction.reference_id t))
            (recurring_donations st1) = Some rd'
    /\ RecurringDonation.open_ended_status rd' = "Closed".
Proof.
  intros Hwf Hcode Hgross Hstatus Href Hname Hcan Hl Hne Hfar.
  set (sub := PaypalSubscription.mk
                (raw_id (ppc (PaypalTransaction.reference_id t)))
                "CANCELLED"
                (raw_email_address (ppc (PaypalTransaction.reference_id t)))
                (raw_last_payment_value (ppc (PaypalTransaction.reference_id t)))
                (raw_payer_id (ppc (PaypalTransaction.reference_id t)))
                (raw_last_payment_time (ppc (PaypalTransaction.reference_id t)))
                (raw_create_time (ppc (PaypalTransaction.reference_id t)))
                None).
  assert (Hsub : from_dict (ppc (PaypalTransaction.reference_id t)) = Ok sub).
  { unfold from_dict. rewrite Hcan. reflexivity. }
  assert (Hentry : handle_paypal_charge_external_initiation org t ppc st
                   = handle_subscription_payment org t ppc st).
  { unfold handle_paypal_charge_external_initiation.
    rewrite Hcode, Hstatus. simpl.
    apply Z.ltb_ge in Hgross. rewrite Hgross. reflexivity. }
  rewrite Hentry. unfold handle_subscription_payment.
  rewrite Hcode, Href. simpl.
  assert (Hpsp : exists st1 rd',
             process_subscription_payment t sub org st
             = (st1, Raise AttributeError)
             /\ opportunities st1 = opportunities st
             /\ find (by_paypal_subscription_id
                        (PaypalTransaction.reference_id t))
                     (recurring_donations st1) = Some rd'
             /\ RecurringDonation.open_ended_status rd' = "Closed").
  { destruct (cancelled_subscription_closes_series_aux t sub st rd Hwf Hl
                eq_refl) as [stm [rdc [Hclose [Ho [Hidc [Hfind Hclosed]]]]]].
    rewrite (process_subscription_payment_found _ _ _ _ _ Hl).
    simpl. rewrite (bind_Ok _ _ _ _ _ Hclose).
    rewrite update_or_create_installment_far;
      [| rewrite Hidc, Ho; exact Hne | rewrite Hidc, Ho; exact Hfar].
    destruct (create_linked_opportunity_no_period t sub org rdc stm nm Hname
                eq_refl) as [st1 [Hrun [Hr Hopps]]].
    exists st1, rdc. split; [exact Hrun|].
    split; [rewrite Hopps; exact Ho|].
    split; [rewrite Hr; exact Hfind | exact Hclosed]. }
  destruct Hpsp as [st1 [rd' [Hrun Hrest]]].
  exists st1, rd'. split; [|exact Hrest].
  unfold bind at 1. unfold bind at 1. unfold lift at 1. rewrite Hsub.
  simpl. rewrite Hrun. reflexivity.
Qed.

Lemma cancelled_payment_out_of_tolerance_witness :
  let st := mkStore [] [installment 1 0 "TX" 10] [series 0 "Open"] 2 in
  let t := payment "TX2" "T0002" (Some "SUB") (Some "I-SUB1")
                   (Some "PAYER1") 40 1000 in
  exists st1 rd',
    handle_paypal_charge_external_initiation org0 t
      (vendor "CANCELLED" 10 None) st
    = (st1, Raise AttributeError)
    /\ opportunities st1 = opportunities st
    /\ find (by_paypal_subscription_id (PaypalTransaction.reference_id t))
            (recurring_donations st1) = Some rd'
    /\ RecurringDonation.open_ended_status rd' = "Closed".
Proof.
  intros st t.
  apply (cancelled_payment_out_of_tolerance org0 t
           (vendor "CANCELLED" 10 None) st (series 0 "Open") donor).
  - apply wf_store_check_sound. reflexivity.
  - reflexivity.
  - simpl. lia.
  - reflexivity.
  - reflexivity.
  - reflexivity.
  - reflexivity.
  - reflexivity.
  - discriminate.
  - intros x [<- | []]. vm_compute. reflexivity.
Defined.

(** ** Extra properties of [PaypalSubscription.from_dict] *)

(** X14: [from_dict] raises exactly when the payload is neither
    CANCELLED nor SUSPENDED and has no next billing time, and then it is
    a [KeyError] on that key; when it returns, the subscription carries
    the payload's id, status, email, amount, payer id and last payment
    date. *)
Theorem from_dict_missing_next_billing_time data :
  (from_dict data = Raise (KeyError "next_billing_time")
   <-> raw_status data <> "CANCELLED" /\ raw_status data <> "SUSPENDED"
       /\ raw_next_billing_time data = None)
  /\ (forall e, from_dict data = Raise e -> e = KeyError "next_billing_time")
  /\ (forall s, from_dict data = Ok s ->
        PaypalSubscription.id_ s = raw_id data
        /\ PaypalSubscription.status s = raw_status data
        /\ PaypalSubscription.email s = raw_email_address data
        /\ PaypalSubscription.amount s = raw_last_payment_value data
        /\ PaypalSubscription.payer_id s = raw_payer_id data
        /\ PaypalSubscription.current_payment_date s
           = raw_last_payment_time data).
Proof.
  split; [|split].
  - unfold from_dict.
    destruct (String.eqb (raw_status data) "CANCELLED") eqn:Ec.
    { apply String.eqb_eq in Ec. split; [discriminate|].
      intros [H _]. contradiction. }
    destruct (String.eqb (raw_status data) "SUSPENDED") eqn:Es.
    { apply String.eqb_eq in Es. split; [discriminate|].
      intros [_ [H _]]. contradiction. }
    apply String.eqb_neq in Ec, Es.
    destruct (raw_next_billing_time data) as [n|].
    + cbv zeta. split.
      * destruct (_ && _); [discriminate|]. destruct (_ && _); discriminate.
      * intros [_ [_ H]]. discriminate.
    + split; auto.
  - intros e. apply from_dict_raises.
  - intros s. unfold from_dict.
    destruct (String.eqb (raw_status data) "CANCELLED");
      [intros H; injection H as <-; simpl; auto 10|].
    destruct (String.eqb (raw_status data) "SUSPENDED");
      [intros H; injection H as <-; simpl; auto 10|].
    destruct (raw_next_billing_time data) as [n|]; [|discriminate].
    cbv zeta. destruct (_ && _); [intros H; injection H as <-; simpl; auto 10|].
    destruct (_ && _); intros H; injection H as <-; simpl; auto 10.
Qed.

Lemma from_dict_missing_next_billing_time_witness :
  from_dict (vendor "ACTIVE" 10 None None)
  = Raise (KeyError "next_billing_time").
Proof.
  apply (proj1 (from_dict_missing_next_billing_time
                  (vendor "ACTIVE" 10 None None))).
  repeat split; discriminate.
Defined.

(** ** Extra: well-formedness through the entry point *)

(** X15: the entry point keeps the store well-formed, whether it returns
    or raises: Opportunity ids stay pairwise distinct, every stored
    Opportunity and RecurringDonation keeps an id below the id counter,
    an Opportunity links only to an id already handed out, and the
    counter never decreases. *)
Theorem entry_point_keeps_well_formed org t ppc st :
  wf_store st ->
  wf_store (fst (handle_paypal_charge_external_initiation org t ppc st))
  /\ (next_id st
      <= next_id (fst (handle_paypal_charge_external_initiation
                         org t ppc st)))%nat.
Proof. apply handle_paypal_charge_external_initiation_wf. Qed.

Lemma entry_point_keeps_well_formed_witness :
  let t := payment "TX" "T0002" (Some "SUB") (Some "I-SUB1") (Some "PAYER1")
                   10 1000 in
  let run := handle_paypal_charge_external_initiation org0 t
               (vendor "ACTIVE" 10 (Some 40)) empty_store in
  wf_store (fst run) /\ (next_id empty_store <= next_id (fst run))%nat.
Proof.
  intros t run.
  apply (entry_point_keeps_well_formed org0 t (vendor "ACTIVE" 10 (Some 40))
           empty_store).
  exact empty_store_wf.
Defined.

(** ** Extra properties of the raw payload parsing *)

Lemma split_on_absent c s :
  contains_char c s = false -> split_on c s = [s].
Proof.
  induction s as [|a s IH]; simpl; [reflexivity|].
  intros H. apply orb_false_iff in H as [Ha Hs].
  rewrite Ha, (IH Hs). reflexivity.
Qed.

Lemma split_on_once c a b :
  contains_char c a = false -> contains_char c b = false ->
  split_on c (a ++ String c b) = [a; b].
Proof.
  intros Ha Hb. induction a as [|x a IH]; simpl.
  - rewrite Ascii.eqb_refl, (split_on_absent c b Hb). reflexivity.
  - simpl in Ha. apply orb_false_iff in Ha as [Hx Ha].
    rewrite Hx, (IH Ha). reflexivity.
Qed.

Lemma rsplit1_absent c s : contains_char c s = false -> rsplit1 c s = None.
Proof.
  induction s as [|a s IH]; simpl; [reflexivity|].
  intros H. apply orb_false_iff in H as [Ha Hs].
  rewrite (IH Hs), Ha. reflexivity.
Qed.

Lemma rsplit1_last c a b :
  contains_char c b = false -> rsplit1 c (a ++ String c b) = Some (a, b).
Proof.
  intros Hb. induction a as [|x a IH]; simpl.
  - rewrite (rsplit1_absent c b Hb), Ascii.eqb_refl. reflexivity.
  - rewrite IH. reflexivity.
Qed.

(** X16: where [name_from_paypal_transaction] takes the payer's name
    from.  A surname in [payer_name] wins (and needs a given name:
    without one it is a [KeyError]); otherwise a shipping name with
    exactly one comma gives the stripped part before the comma as first
    name and the stripped part after it as last name; a shipping name
    with no comma and, once stripped, no space raises [ValueError]; with
    no surname, no shipping name and no alternate full name the result
    is [None]. *)
Theorem name_from_paypal_transaction_cases strip raw pn :
  raw_payer_name raw = Some pn ->
  (forall surname,
      raw_surname pn = Some surname ->
      name_from_paypal_transaction strip raw
      = match raw_given_name pn with
        | Some given => Ok (Some (mkName given surname))
        | None => Raise (KeyError "given_name")
        end)
  /\ (forall si a b,
         raw_surname pn = None ->
         raw_shipping_info raw = Some si ->
         raw_shipping_name si = Some (a ++ String ","%char b) ->
         contains_char ","%char a = false ->
         contains_char ","%char b = false ->
         name_from_paypal_transaction strip raw
         = Ok (Some (mkName (strip a) (strip b))))
  /\ (forall si name,
         raw_surname pn = None ->
         raw_shipping_info raw = Some si ->
         raw_shipping_name si = Some name ->
         contains_char ","%char name = false ->
         contains_char " "%char (strip name) = false ->
         name_from_paypal_transaction strip raw = Raise ValueError)
  /\ (forall si,
         raw_surname pn = None ->
         raw_shipping_info raw = Some si ->
         raw_shipping_name si = None ->
         raw_alternate_full_name pn = None ->
         name_from_paypal_transaction strip raw = Ok None).
Proof.
  intros Hpn. unfold name_from_paypal_transaction. rewrite Hpn.
  split; [|split; [|split]].
  - intros surname Hs. rewrite Hs. reflexivity.
  - intros si a b Hs Hsi Hname Ha Hb.
    rewrite Hs, Hsi, Hname, (split_on_once _ a b Ha Hb). reflexivity.
  - intros si name Hs Hsi Hname Hcomma Hspace.
    rewrite Hs, Hsi, Hname, (split_on_absent _ name Hcomma).
    unfold split_full_name. rewrite (rsplit1_absent _ _ Hspace). reflexivity.
  - intros si Hs Hsi Hname Halt. rewrite Hs, Hsi, Hname, Halt. reflexivity.
Qed.

(** A payload for the examples: no surname, the given shipping name. *)
Lemma name_from_paypal_transaction_cases_witness :
  let raw :=
    mkRawTransaction
      (mkRawTransactionInfo "TX" "T0013" "S" 10 1000 (Some (-30)) None None
                            None None None)
      (Some "Ada@Example.org")
      (Some (mkRawPayerName None None None))
      (Some (mkRawShippingInfo (Some "Lovelace,Ada") None)) in
  name_from_paypal_transaction (fun s => s) raw
  = Ok (Some (mkName "Lovelace" "Ada")).
Proof.
  intro raw.
  apply (proj1 (proj2 (name_from_paypal_transaction_cases (fun s => s) raw
                         (mkRawPayerName None None None) eq_refl))
           (mkRawShippingInfo (Some "Lovelace,Ada") None) "Lovelace" "Ada");
    reflexivity.
Defined.

(** X17: [address_from_paypal_transaction] returns [None] exactly when
    the payload has no shipping address or the address lacks one of
    city, state, postal code and country code; an address with all four
    and a first line gives the Address, whose street is the first line,
    followed by a comma and the second line when that one is present and
    not empty; an address with all four but no first line raises
    [KeyError]. *)
Theorem address_from_paypal_transaction_cases raw :
  (address_from_paypal_transaction raw = Ok None
   <-> (forall si a,
          raw_shipping_info raw = Some si ->
          raw_shipping_address si = Some a ->
          raw_city a = None \/ raw_state a = None
          \/ raw_postal_code a = None \/ raw_country_code a = None))
  /\ (forall si a city state postal_code country,
        raw_shipping_info raw = Some si ->
        raw_shipping_address si = Some a ->
        raw_city a = Some city -> raw_state a = Some state ->
        raw_postal_code a = Some postal_code ->
        raw_country_code a = Some country ->
        address_from_paypal_transaction raw
        = match raw_line1 a with
          | None => Raise (KeyError "line1")
          | Some line1 =>
              Ok (Some (mkAddress country city state postal_code
                          (match raw_line2 a with
                           | None => line1
                           | Some "" => line1
                           | Some line2 => line1 ++ ", " ++ line2
                           end)))
          end).
Proof.
  unfold address_from_paypal_transaction. split.
  - destruct (raw_shipping_info raw) as [si|] eqn:Esi.
    2:{ split; [discriminate | reflexivity]. }
    destruct (raw_shipping_address si) as [a|] eqn:Ea.
    2:{ split; [intros _ si' a' H1 H2; injection H1 as <-;
                rewrite Ea in H2; discriminate | reflexivity]. }
    assert (Hsame : forall si' a',
               Some si = Some si' -> raw_shipping_address si' = Some a' ->
               a' = a).
    { intros si' a' H1 H2. injection H1 as <-. rewrite Ea in H2.
      injection H2 as <-. reflexivity. }
    destruct (raw_city a) as [city|] eqn:Eci.
    2:{ split; [intros _ si' a' H1 H2; rewrite (Hsame _ _ H1 H2); auto
               | reflexivity]. }
    destruct (raw_state a) as [state|] eqn:Es.
    2:{ split; [intros _ si' a' H1 H2; rewrite (Hsame _ _ H1 H2); auto
               | reflexivity]. }
    destruct (raw_postal_code a) as [postal|] eqn:Ep.
    2:{ split; [intros _ si' a' H1 H2; rewrite (Hsame _ _ H1 H2); auto
               | reflexivity]. }
    destruct (raw_country_code a) as [country|] eqn:Ec.
    2:{ split; [intros _ si' a' H1 H2; rewrite (Hsame _ _ H1 H2); auto
               | reflexivity]. }
    split.
    + destruct (raw_line1 a); discriminate.
    + intros H. destruct (H si a eq_refl Ea) as [E | [E | [E | E]]];
        rewrite ?Eci, ?Es, ?Ep, ?Ec in E; discriminate.
  - intros si a city state postal country Hsi Ha Hc Hs Hp Hco.
    rewrite Hsi, Ha, Hc, Hs, Hp, Hco.
    destruct (raw_line1 a) as [line1|]; [|reflexivity].
    destruct (raw_line2 a) as [[|x l]|]; reflexivity.
Qed.

Lemma address_from_paypal_transaction_cases_witness :
  let a := mkRawAddress (Some "London") (Some "LDN") (Some "N1") (Some "GB")
                        (Some "12 St James") (Some "Flat 2") in
  let raw :=
    mkRawTransaction
      (mkRawTransactionInfo "TX" "T0013" "S" 10 1000 None None None
                            None None None)
      None (Some (mkRawPayerName None None None))
      (Some (mkRawShippingInfo None (Some a))) in
  address_from_paypal_transaction raw
  = Ok (Some (mkAddress "GB" "London" "LDN" "N1" "12 St James, Flat 2")).
Proof.
  intros a raw.
  apply (proj2 (address_from_paypal_transaction_cases raw)
           (mkRawShippingInfo None (Some a)) a "London" "LDN" "N1" "GB");
    reflexivity.
Defined.

(** ** Extra properties of the import loop *)

Lemma name_from_paypal_transaction_single_word strip raw pn si name :
  raw_payer_name raw = Some pn ->
  raw_surname pn = None ->
  raw_shipping_info raw = Some si ->
  raw_shipping_name si = Some name ->
  contains_char ","%char name = false ->
  contains_char " "%char (strip name) = false ->
  name_from_paypal_transaction strip raw = Raise ValueError.
Proof.
  intros Hpn Hs Hsi Hname Hcomma Hspace.
  unfold name_from_paypal_transaction.
  rewrite Hpn, Hs, Hsi, Hname, (split_on_absent _ name Hcomma).
  unfold split_full_name. rewrite (rsplit1_absent _ _ Hspace). reflexivity.
Qed.

(** X18: parsing comes before the dispatch on the event code: a payload
    whose payer has no surname and whose shipping name is a single word
    (no comma and, once stripped, no space) raises [ValueError] with the
    store untouched, whatever its event code -- also one the entry point
    would skip. *)
Theorem single_word_name_raises_before_dispatch
    strip lower org raw ppc st pn si name :
  raw_payer_name raw = Some pn ->
  raw_surname pn = None ->
  raw_shipping_info raw = Some si ->
  raw_shipping_name si = Some name ->
  contains_char ","%char name = false ->
  contains_char " "%char (strip name) = false ->
  handle_raw_transaction strip lower org raw ppc st = (st, Raise ValueError).
Proof.
  intros Hpn Hs Hsi Hname Hcomma Hspace.
  unfold handle_raw_transaction, PaypalTransaction_from_dict.
  rewrite (name_from_paypal_transaction_single_word
             strip raw pn si name Hpn Hs Hsi Hname Hcomma Hspace),
    bind_lift.
  reflexivity.
Qed.

Lemma single_word_name_raises_before_dispatch_witness :
  let raw :=
    mkRawTransaction
      (mkRawTransactionInfo "TX" "T0400" "S" 10 1000 None None None
                            None None None)
      None (Some (mkRawPayerName None None None))
      (Some (mkRawShippingInfo (Some "Cher") None)) in
  handle_raw_transaction (fun s => s) (fun s => s) org0 raw
    (vendor "ACTIVE" 10 (Some 40)) empty_store
  = (empty_store, Raise ValueError).
Proof.
  intro raw.
  apply (single_word_name_raises_before_dispatch (fun s => s) (fun s => s)
           org0 raw (vendor "ACTIVE" 10 (Some 40)) empty_store
           (mkRawPayerName None None None)
           (mkRawShippingInfo (Some "Cher") None) "Cher"); reflexivity.
Defined.

Lemma import_org_period_app strip lower org ppc l1 l2 st :
  import_org_period strip lower org ppc (l1 ++ l2) st
  = (import_org_period strip lower org ppc l1 ;;;
     import_org_period strip lower org ppc l2) st.
Proof.
  revert st. induction l1 as [|x l1 IH]; intros st; simpl.
  - reflexivity.
  - unfold bind.
    destruct (handle_raw_transaction strip lower org x ppc st)
      as [st' [[]|e]]; [|reflexivity].
    rewrite IH. unfold bind. reflexivity.
Qed.

(** X19: the import handles the transactions in order and stops at the
    first one that raises: when the transactions before it were handled
    without error, the import ends with that exception and the store
    that transaction left, and none of the later transactions is
    handled. *)
Theorem import_org_period_stops_at_first_error
    strip lower org ppc l1 x l2 st st1 st2 e :
  import_org_period strip lower org ppc l1 st = (st1, Ok tt) ->
  handle_raw_transaction strip lower org x ppc st1 = (st2, Raise e) ->
  import_org_period strip lower org ppc (l1 ++ x :: l2) st = (st2, Raise e).
Proof.
  intros H1 Hx. rewrite import_org_period_app.
  rewrite (bind_Ok _ _ _ _ _ H1). simpl.
  rewrite (bind_Raise _ _ _ _ _ Hx). reflexivity.
Qed.

Lemma import_org_period_stops_at_first_error_witness :
  let info code id :=
    mkRawTransactionInfo id code "S" 10 1000 None None None None None None in
  let raw code id :=
    mkRawTransaction (info code id) (Some "ada@example.org")
      (Some (mkRawPayerName (Some "Lovelace") (Some "Ada") None)) None in
  exists st2,
    import_org_period (fun s => s) (fun s => s) org0
      (vendor "ACTIVE" 10 (Some 40))
      ([raw "T0013" "A"] ++ raw "T9999" "B" :: [raw "T0013" "C"])
      empty_store
    = (st2, Raise (Exception "Unknown event code: T9999"))
    /\ count_carrying "A" st2 = 1%nat /\ count_carrying "C" st2 = 0%nat.
Proof.
  intros info raw.
  set (st1 := fst (import_org_period (fun s => s) (fun s => s) org0
                     (vendor "ACTIVE" 10 (Some 40)) [raw "T0013" "A"]
                     empty_store)).
  exists st1. split.
  - apply (import_org_period_stops_at_first_error (fun s => s) (fun s => s)
             org0 (vendor "ACTIVE" 10 (Some 40))
             [raw "T0013" "A"] (raw "T9999" "B") [raw "T0013" "C"]
             empty_store st1 st1
             (Exception "Unknown event code: T9999")).
    + vm_compute. reflexivity.
    + vm_compute. reflexivity.
  - vm_compute. split; reflexivity.
Defined.

Lemma handle_raw_transaction_closing strip lower org raw ppc :
  preserves closing_step (handle_raw_transaction strip lower org raw ppc).
Proof.
  unfold handle_raw_transaction.
  apply (preserves_bind _ closing_step_trans).
  - apply (preserves_lift _ closing_step_refl).
  - intros t _. apply handle_paypal_charge_external_initiation_closing.
Qed.

Lemma import_org_period_closing strip lower org ppc l :
  preserves closing_step (import_org_period strip lower org ppc l).
Proof.
  induction l as [|x l IH]; simpl.
  - apply (preserves_ret _ closing_step_refl).
  - apply (preserves_bind _ closing_step_trans).
    + apply handle_raw_transaction_closing.
    + intros _ _. exact IH.
Qed.

(** X20: through a whole import, however many transactions it handles
    and wherever it stops, a RecurringDonation that was 'Closed' before
    is still 'Closed' afterwards, and one that is 'Open' afterwards was
    there unchanged before or was created by the import. *)
Theorem import_org_period_never_reopens strip lower org ppc l st :
  (forall i rd,
      nth_error (recurring_donations st) i = Some rd ->
      RecurringDonation.open_ended_status rd = "Closed" ->
      exists rd',
        nth_error (recurring_donations
                     (fst (import_org_period strip lower org ppc l st))) i
        = Some rd'
        /\ RecurringDonation.open_ended_status rd' = "Closed")
  /\ (forall i rd',
         nth_error (recurring_donations
                      (fst (import_org_period strip lower org ppc l st))) i
         = Some rd' ->
         RecurringDonation.open_ended_status rd' = "Open" ->
         nth_error (recurring_donations st) i = Some rd'
         \/ (List.length (recurring_donations st) <= i)%nat).
Proof.
  pose proof (import_org_period_closing strip lower org ppc l st) as Hstep.
  split.
  - intros i rd. apply closing_step_closed_stays. exact Hstep.
  - intros i rd'. apply closing_step_open_origin. exact Hstep.
Qed.

Lemma import_org_period_never_reopens_witness :
  let st := mkStore [] [installment 1 0 "TX" 10] [series 0 "Closed"] 2 in
  let raw :=
    mkRawTransaction
      (mkRawTransactionInfo "TX2" "T0002" "S" 40 1000 None None None
                            (Some "I-SUB1") (Some "SUB") (Some "PAYER1"))
      (Some "ada@example.org")
      (Some (mkRawPayerName (Some "Lovelace") (Some "Ada") None)) None in
  exists rd',
    nth_error (recurring_donations
                 (fst (import_org_period (fun s => s) (fun s => s) org0
                         (vendor "ACTIVE" 40 (Some 70)) [raw; raw] st))) 0
    = Some rd'
    /\ RecurringDonation.open_ended_status rd' = "Closed".
Proof.
  intros st raw.
  apply (proj1 (import_org_period_never_reopens (fun s => s) (fun s => s)
                  org0 (vendor "ACTIVE" 40 (Some 70)) [raw; raw] st)
           0%nat (series 0 "Closed")); reflexivity.
Defined.

Lemma import_org_period_wf strip lower org ppc l :
  keeps_wf (import_org_period strip lower org ppc l).
Proof.
  induction l as [|x l IH]; intros st Hwf; simpl.
  - simpl. auto.
  - assert (Hx : keeps_wf (handle_raw_transaction strip lower org x ppc)).
    { intros st0 Hwf0. unfold handle_raw_transaction. rewrite bind_lift.
      destruct (PaypalTransaction_from_dict strip lower x); [|simpl; auto].
      apply handle_paypal_charge_external_initiation_wf. exact Hwf0. }
    apply keeps_wf_bind; [exact Hwf | apply Hx; exact Hwf|].
    intros _ _ Hw. apply IH. exact Hw.
Qed.

(** X21: an import started on a well-formed store ends on a well-formed
    store, whether it completes or stops at an exception: Opportunity
    ids stay pairwise distinct and every Opportunity links only to an id
    already handed out. *)
Theorem import_org_period_keeps_well_formed strip lower org ppc l st :
  wf_store st ->
  wf_store (fst (import_org_period strip lower org ppc l st))
  /\ (next_id st
      <= next_id (fst (import_org_period strip lower org ppc l st)))%nat.
Proof. apply import_org_period_wf. Qed.

Lemma import_org_period_keeps_well_formed_witness :
  let raw :=
    mkRawTransaction
      (mkRawTransactionInfo "TX" "T0013" "S" 10 1000 None None None
                            None None None)
      (Some "ada@example.org")
      (Some (mkRawPayerName (Some "Lovelace") (Some "Ada") None)) None in
  let run := import_org_period (fun s => s) (fun s => s) org0
               (vendor "ACTIVE" 10 (Some 40)) [raw; raw] empty_store in
  wf_store (fst run) /\ (next_id empty_store <= next_id (fst run))%nat.
Proof.
  intros raw run.
  apply (import_org_period_keeps_well_formed (fun s => s) (fun s => s) org0
           (vendor "ACTIVE" 10 (Some 40)) [raw; raw] empty_store).
  exact empty_store_wf.
Defined.

(** ** Period names *)

Lemma ascii_lower_idem a : ascii_lower (ascii_lower a) = ascii_lower a.
Proof.
  destruct a as [[] [] [] [] [] [] [] []]; reflexivity.
Qed.

Lemma str_lower_idem s : str_lower (str_lower s) = str_lower s.
Proof.
  induction s as [|a s IH]; simpl; [reflexivity|].
  rewrite ascii_lower_idem, IH. reflexivity.
Qed.

(** X22: [PeriodType.from_str] reads back the value of every period
    type, does not depend on the ASCII case of its argument, and maps
    every string that is neither "monthly" nor "yearly" once lower-cased
    to [once], never raising. *)
Theorem PeriodType_from_str_cases (p : PeriodType) (s : string) :
  PeriodType_from_str (PeriodType_value p) = p /\
  PeriodType_from_str (str_lower s) = PeriodType_from_str s /\
  (PeriodType_from_str s = once <->
   str_lower s <> "monthly" /\ str_lower s <> "yearly").
Proof.
  split; [destruct p; reflexivity|]. split.
  - unfold PeriodType_from_str. rewrite str_lower_idem. reflexivity.
  - unfold PeriodType_from_str.
    destruct (String.eqb (str_lower s) "monthly") eqn:Em.
    + apply String.eqb_eq in Em. split; [discriminate|].
      intros [H _]. contradiction.
    + destruct (String.eqb (str_lower s) "yearly") eqn:Ey.
      * apply String.eqb_eq in Ey. split; [discriminate|].
        intros [_ H]. contradiction.
      * apply String.eqb_neq in Em. apply String.eqb_neq in Ey.
        split; [intros _; split; assumption | reflexivity].
Qed.

(** ** Attendee addresses *)

(** X23: when the answers can be scanned, [address_from_attendee]
    returns (a) without a bill address only the postal code of the
    answers; (b) with city, region, postal code, country and address_1
    an address made of the bill address alone, its postal code
    replacing the answers' one; (c) for a bill address without a postal
    code an address without country and street, whatever the bill
    address holds for them, with the answers' postal code. *)
Theorem address_from_attendee_cases (attendee : Attendee)
    (postal_code : option string)
    (Hscan : postal_code_from_answers (answers_to_scan attendee)
             = Ok postal_code) :
  (attendee_bill_address attendee = None ->
   address_from_attendee attendee
   = Ok (AttendeeAddress.mk None None None postal_code None)) /\
  (forall address city state postal country address_1,
     attendee_bill_address attendee = Some address ->
     bill_city address = Some city ->
     bill_region address = Some state ->
     bill_postal_code address = Some postal ->
     bill_country address = Some country ->
     bill_address_1 address = Some address_1 ->
     address_from_attendee attendee
     = Ok (AttendeeAddress.mk (Some country) (Some city) (Some state)
             (Some postal)
             (Some match bill_address_2 address with
                   | Some address_2 => address_1 ++ ", " ++ address_2
                   | None => address_1
                   end))) /\
  (forall address,
     attendee_bill_address attendee = Some address ->
     bill_postal_code address = None ->
     exists city state,
       address_from_attendee attendee
       = Ok (AttendeeAddress.mk None city state postal_code None)).
Proof.
  unfold address_from_attendee. rewrite Hscan. split; [|split].
  - intros ->. reflexivity.
  - intros address city state postal country address_1
      -> -> -> -> -> ->. reflexivity.
  - intros address -> Hp. rewrite Hp.
    destruct (bill_city address) as [city|];
      [|exists None, None; reflexivity].
    destruct (bill_region address) as [state|];
      [|exists (Some city), None; reflexivity].
    exists (Some city), (Some state). reflexivity.
Qed.

Lemma address_from_attendee_cases_witness :
  let attendee :=
    mkAttendee
      (Some [mkAnswer (Some "T-shirt size") (Some "M");
             mkAnswer (Some "Zip Code") (Some "55555");
             mkAnswer None None])
      (Some (mkBillAddress (Some "Berlin") (Some "BE") None (Some "DE")
                           (Some "Main St 1") None)) in
  exists city state,
    address_from_attendee attendee
    = Ok (AttendeeAddress.mk None city state (Some "55555") None).
Proof.
  intros attendee.
  apply (proj2 (proj2 (address_from_attendee_cases attendee (Some "55555")
                         eq_refl))
           (mkBillAddress (Some "Berlin") (Some "BE") None (Some "DE")
                          (Some "Main St 1") None));
    reflexivity.
Defined.

(** X24: [address_from_attendee] raises nothing but [KeyError]: for
    [question] when an answer without it comes before the first postal
    code question, for [address_1] when the bill address has city,
    region, postal code and country but no first line; in every other
    case it returns an address. *)
Theorem address_from_attendee_raises (attendee : Attendee) (e : PyError)
    (Hraise : address_from_attendee attendee = Raise e) :
  (e = KeyError "question" /\
   postal_code_from_answers (answers_to_scan attendee) = Raise e) \/
  (e = KeyError "address_1" /\
   exists address,
     attendee_bill_address attendee = Some address /\
     bill_address_1 address = None /\
     bill_city address <> None /\ bill_region address <> None /\
     bill_postal_code address <> None /\ bill_country address <> None).
Proof.
  unfold address_from_attendee in Hraise.
  destruct (postal_code_from_answers (answers_to_scan attendee))
    as [postal_code|e'] eqn:Hscan.
  - right.
    destruct (attendee_bill_address attendee) as [address|];
      [|discriminate].
    destruct (bill_city address) eqn:E1; [|discriminate].
    destruct (bill_region address) eqn:E2; [|discriminate].
    destruct (bill_postal_code address) eqn:E3; [|discriminate].
    destruct (bill_country address) eqn:E4; [|discriminate].
    destruct (bill_address_1 address) eqn:E5; [discriminate|].
    injection Hraise as <-. split; [reflexivity|].
    exists address. rewrite E1, E2, E3, E4.
    split; [reflexivity|]. split; [exact E5|].
    repeat split; discriminate.
  - left. injection Hraise as <-. split; [|reflexivity].
    revert Hscan. generalize (answers_to_scan attendee) as l.
    induction l as [|q l IH]; cbn [postal_code_from_answers];
      [discriminate|].
    destruct (answer_question q) as [text|].
    + destruct (code_in text ["Postal Code"; "Zip Code"]);
        [intros H; discriminate H | exact IH].
    + intros Hscan. injection Hscan as <-. reflexivity.
Qed.

Lemma address_from_attendee_raises_witness :
  let attendee :=
    mkAttendee (Some [mkAnswer (Some "Zip Code") None])
      (Some (mkBillAddress (Some "Berlin") (Some "BE") (Some "10115")
                           (Some "DE") None (Some "c/o Smith"))) in
  address_from_attendee attendee = Raise (KeyError "address_1") /\
  ((KeyError "address_1" = KeyError "question" /\
    postal_code_from_answers (answers_to_scan attendee)
    = Raise (KeyError "address_1")) \/
   (KeyError "address_1" = KeyError "address_1" /\
    exists address,
      attendee_bill_address attendee = Some address /\
      bill_address_1 address = None /\
      bill_city address <> None /\ bill_region address <> None /\
      bill_postal_code address <> None /\ bill_country address <> None)).
Proof.
  intros attendee. split; [reflexivity|].
  apply (address_from_attendee_raises attendee (KeyError "address_1")).
  reflexivity.
Defined.

(** ** Eventbrite responses *)

(** X25: for a response with a rate-limit header,
    [check_eventbrite_status_code] raises [IndexError] when the header
    has fewer than three words, whatever the status; otherwise it
    returns exactly when the status is below 400 and the response is
    ok, raises [RateLimitException] with the second and third word for
    429, and [NotFoundException] with the error entry for 404. *)
Theorem check_eventbrite_status_code_cases (o : EventbriteObject)
    (splits : list string)
    (Hheader : eb_rate_limit_words o = Some splits) :
  ((List.length splits < 3)%nat ->
   check_eventbrite_status_code o = Some EbIndexError) /\
  (forall w0 w1 w2 rest, splits = w0 :: w1 :: w2 :: rest ->
     (check_eventbrite_status_code o = None <->
      eb_status_code o < 400 /\ eb_ok o = true) /\
     (eb_status_code o = 429 ->
      check_eventbrite_status_code o
      = Some (RateLimitException (w1 ++ " " ++ w2))) /\
     (forall msg, eb_status_code o = 404 -> eb_error o = Some msg ->
      check_eventbrite_status_code o = Some (NotFoundException msg))).
Proof.
  unfold check_eventbrite_status_code. rewrite Hheader. split.
  - intros Hlen. destruct splits as [|w0 [|w1 [|w2 rest]]];
      simpl in *; try reflexivity; lia.
  - intros w0 w1 w2 rest ->. simpl. split; [split|split].
    + destruct (eb_status_code o =? 429) eqn:E1;
        [intros H; discriminate H|].
      destruct (eb_status_code o =? 404) eqn:E2.
      { unfold eb_raise_error. destruct (eb_error o);
          intros H; discriminate H. }
      destruct (eb_status_code o >=? 400) eqn:E3.
      { unfold eb_raise_error. destruct (eb_error o);
          intros H; discriminate H. }
      destruct (eb_ok o).
      * intros _. split; [|reflexivity].
        rewrite Z.geb_leb in E3. apply Z.leb_gt in E3. exact E3.
      * unfold eb_raise_error. simpl. destruct (eb_error o);
          intros H; discriminate H.
    + intros [Hlt Hok].
      destruct (eb_status_code o =? 429) eqn:E1;
        [apply Z.eqb_eq in E1; lia|].
      destruct (eb_status_code o =? 404) eqn:E2;
        [apply Z.eqb_eq in E2; lia|].
      destruct (eb_status_code o >=? 400) eqn:E3.
      { rewrite Z.geb_leb in E3. apply Z.leb_le in E3. lia. }
      rewrite Hok. reflexivity.
    + intros ->. reflexivity.
    + intros msg -> Hmsg. simpl. unfold eb_raise_error. rewrite Hmsg.
      reflexivity.
Qed.

Lemma check_eventbrite_status_code_cases_witness :
  check_eventbrite_status_code
    (mkEventbriteObject (Some ["token:abc"; "12/2000"]) 200 true None)
  = Some EbIndexError.
Proof.
  apply (proj1 (check_eventbrite_status_code_cases
                  (mkEventbriteObject (Some ["token:abc"; "12/2000"]) 200
                                      true None)
                  ["token:abc"; "12/2000"] eq_refl)).
  simpl. lia.
Defined.

(** ** The TYPE_MAP setting *)

Lemma split_on_cons c a b :
  contains_char c a = false ->
  split_on c (a ++ String c b) = a :: split_on c b.
Proof.
  intros Ha. induction a as [|x a IH]; simpl.
  - rewrite Ascii.eqb_refl. reflexivity.
  - simpl in Ha. apply orb_false_iff in Ha as [Hx Ha].
    rewrite Hx, (IH Ha). reflexivity.
Qed.

Lemma contains_char_app c a b :
  contains_char c (a ++ b) = contains_char c a || contains_char c b.
Proof.
  induction a as [|x a IH]; simpl; [reflexivity|].
  rewrite IH, orb_assoc. reflexivity.
Qed.

Lemma separator_free_inv s :
  separator_free s = true ->
  contains_char ","%char s = false /\ contains_char ":"%char s = false.
Proof.
  unfold separator_free. intros H. apply andb_true_iff in H as [H1 H2].
  apply negb_true_iff in H1. apply negb_true_iff in H2. split; assumption.
Qed.

Lemma render_mapping_split p :
  separator_free (fst p) = true -> separator_free (snd p) = true ->
  split_on ":"%char (render_mapping p) = [fst p; snd p] /\
  contains_char ","%char (render_mapping p) = false.
Proof.
  intros Hk Hv. apply separator_free_inv in Hk as [Hk1 Hk2].
  apply separator_free_inv in Hv as [Hv1 Hv2]. unfold render_mapping. split.
  - apply split_on_once; assumption.
  - rewrite contains_char_app. simpl. rewrite Hk1, Hv1. reflexivity.
Qed.

Lemma render_type_map_split l :
  l <> [] ->
  forallb (fun p => separator_free (fst p) && separator_free (snd p)) l
  = true ->
  split_on ","%char (render_type_map l) = map render_mapping l.
Proof.
  induction l as [|p l IH]; [intros H; contradiction H; reflexivity|].
  intros _ Hclean. simpl in Hclean.
  apply andb_true_iff in Hclean as [Hp Hl].
  apply andb_true_iff in Hp as [Hk Hv].
  destruct (render_mapping_split p Hk Hv) as [_ Hc].
  destruct l as [|q l].
  - simpl. apply split_on_absent. exact Hc.
  - change (render_type_map (p :: q :: l))
      with (render_mapping p ++ String ","%char (render_type_map (q :: l))).
    rewrite (split_on_cons _ _ _ Hc), IH; [reflexivity|discriminate|exact Hl].
Qed.

Lemma type_map_of_rendered l :
  forallb (fun p => separator_free (fst p) && separator_free (snd p)) l
  = true ->
  forall d,
    type_map_of_mappings (map render_mapping l) d
    = Ok (fold_left (fun d p => dict_set (fst p) (snd p) d) l d).
Proof.
  induction l as [|p l IH]; intros Hclean d; [reflexivity|].
  simpl in Hclean. apply andb_true_iff in Hclean as [Hp Hl].
  apply andb_true_iff in Hp as [Hk Hv].
  destruct (render_mapping_split p Hk Hv) as [Hs _].
  cbn [map type_map_of_mappings fold_left]. rewrite Hs. apply IH. exact Hl.
Qed.

Lemma dict_get_set k k' v d :
  dict_get k (dict_set k' v d)
  = if String.eqb k' k then Some v else dict_get k d.
Proof.
  induction d as [|[k0 v0] d IH]; simpl.
  - reflexivity.
  - destruct (String.eqb k0 k') eqn:E0; simpl.
    + apply String.eqb_eq in E0. subst k0.
      destruct (String.eqb k' k); reflexivity.
    + destruct (String.eqb k0 k) eqn:E1; [|exact IH].
      apply String.eqb_eq in E1. subst k0.
      rewrite String.eqb_sym, E0. reflexivity.
Qed.

Lemma dict_get_fold k l :
  forall d,
    dict_get k (fold_left (fun d p => dict_set (fst p) (snd p) d) l d)
    = match last_binding k l with
      | Some v => Some v
      | None => dict_get k d
      end.
Proof.
  induction l as [|[k' v] l IH]; intros d; [reflexivity|].
  cbn [fold_left last_binding fst snd]. rewrite IH.
  destruct (last_binding k l); [reflexivity|].
  rewrite dict_get_set. destruct (String.eqb k' k); reflexivity.
Qed.

(** X26: a TYPE_MAP value written as [k1:v1,k2:v2,...] from at least one
    pair, no key or value containing a comma or a colon, is read by the
    loop of [construct_org] as the dictionary that gives every key the
    value of its last pair. *)
Theorem type_map_round_trip (l : list (string * string))
    (Hne : l <> [])
    (Hclean :
       forallb (fun p => separator_free (fst p) && separator_free (snd p)) l
       = true) :
  exists d,
    type_map_from_env (render_type_map l) = Ok d /\
    forall k, dict_get k d = last_binding k l.
Proof.
  exists (fold_left (fun d p => dict_set (fst p) (snd p) d) l []). split.
  - unfold type_map_from_env.
    rewrite (render_type_map_split l Hne Hclean).
    apply type_map_of_rendered. exact Hclean.
  - intros k. rewrite dict_get_fold. destruct (last_binding k l); reflexivity.
Qed.

Lemma type_map_round_trip_witness :
  exists d,
    type_map_from_env "Conference:Event,Gala:Fundraiser,Conference:Summit"
    = Ok d /\
    dict_get "Conference" d = Some "Summit" /\
    dict_get "Gala" d = Some "Fundraiser".
Proof.
  destruct (type_map_round_trip
              [("Conference", "Event"); ("Gala", "Fundraiser");
               ("Conference", "Summit")]) as (d & Hd & Hget).
  - discriminate.
  - reflexivity.
  - exists d. split; [exact Hd|]. split; rewrite Hget; reflexivity.
Defined.

Lemma type_map_of_mappings_raises mappings :
  forall d,
    (forall e, type_map_of_mappings mappings d = Raise e -> e = ValueError) /\
    (type_map_of_mappings mappings d = Raise ValueError <->
     exists mapping,
       In mapping mappings /\
       List.length (split_on ":"%char mapping) <> 2%nat).
Proof.
  induction mappings as [|m ms IH]; intros d.
  - split; [intros e H; discriminate H|].
    split; [intros H; discriminate H | intros (x & [] & _)].
  - cbn [type_map_of_mappings].
    destruct (split_on ":"%char m) as [|a [|b [|c r]]] eqn:Es.
    1, 2, 4:
      (split; [intros e H; injection H as <-; reflexivity|];
       split; [intros _; exists m; split; [left; reflexivity|];
               rewrite Es; simpl; lia
              | reflexivity]).
    destruct (IH (dict_set a b d)) as [IH1 IH2]. split; [exact IH1|].
    rewrite IH2. split.
    + intros (x & Hin & Hx). exists x. split; [right; exact Hin|exact Hx].
    + intros (x & [<-|Hin] & Hx).
      * rewrite Es in Hx. contradiction Hx. reflexivity.
      * exists x. split; assumption.
Qed.

(** X27: reading a TYPE_MAP value raises nothing but [ValueError], and
    raises it exactly when one of the comma-separated mappings does not
    consist of two pieces around a single colon; the empty value
    raises. *)
Theorem type_map_from_env_error (value : string) :
  (forall e, type_map_from_env value = Raise e -> e = ValueError) /\
  (type_map_from_env value = Raise ValueError <->
   exists mapping,
     In mapping (split_on ","%char value) /\
     List.length (split_on ":"%char mapping) <> 2%nat) /\
  type_map_from_env EmptyString = Raise ValueError.
Proof.
  unfold type_map_from_env.
  destruct (type_map_of_mappings_raises (split_on ","%char value) [])
    as [H1 H2].
  split; [exact H1|]. split; [exact H2|reflexivity].
Qed.

(** ** The first payment of a subscription

    The handlers on a CRM that creates the installments [scheduled]
    with a new RecurringDonation. *)

Lemma store_installments_length rd n l :
  List.length (store_installments rd n l) = List.length l.
Proof.
  revert n. induction l as [|o l IH]; intros n; simpl;
    [reflexivity | rewrite IH; reflexivity].
Qed.

Lemma store_installments_In rd n l z :
  In z (store_installments rd n l) ->
  (exists i, Opportunity.id_ z = Some i
             /\ (n <= i)%nat /\ (i < n + List.length l)%nat)
  /\ Opportunity.recurring_donation_id z = Some rd
  /\ Opportunity.paypal_transaction_id z = None.
Proof.
  revert n. induction l as [|o l IH]; intros n; simpl; [intros []|].
  intros [<- | Hin].
  - split; [|split; reflexivity]. exists n. simpl. split; [reflexivity|lia].
  - destruct (IH (S n) Hin) as [[i [Hi [H1 H2]]] Hrest].
    split; [|exact Hrest]. exists i. split; [exact Hi|]. lia.
Qed.

Lemma store_installments_nodup rd n l :
  NoDup (map Opportunity.id_ (store_installments rd n l)).
Proof.
  revert n. induction l as [|o l IH]; intros n; simpl; constructor;
    [|apply IH].
  intros Hin. apply in_map_iff in Hin as [z [Hz Hin]].
  destruct (store_installments_In _ _ _ _ Hin) as [[i [Hi [H1 _]]] _].
  rewrite Hi in Hz. injection Hz as ->. lia.
Qed.

Lemma store_installments_nil rd n l :
  store_installments rd n l = [] -> l = [].
Proof. destruct l; [reflexivity | discriminate]. Qed.

Lemma filter_all {A} (f : A -> bool) (l : list A) :
  (forall x, In x l -> f x = true) -> filter f l = l.
Proof.
  induction l as [|x l IH]; intros H; simpl; [reflexivity|].
  rewrite (H x (or_introl eq_refl)), IH; [reflexivity|].
  intros y Hy. apply H. right. exact Hy.
Qed.

Lemma filter_none {A} (f : A -> bool) (l : list A) :
  (forall x, In x l -> f x = false) -> filter f l = [].
Proof.
  induction l as [|x l IH]; intros H; simpl; [reflexivity|].
  rewrite (H x (or_introl eq_refl)). apply IH.
  intros y Hy. apply H. right. exact Hy.
Qed.

Lemma replace_where_app {A} (p : A -> bool) (x : A) (l1 l2 : list A) :
  replace_where p x (l1 ++ l2)
  = (replace_where p x l1 ++ replace_where p x l2)%list.
Proof.
  induction l1 as [|y l1 IH]; simpl; [reflexivity | rewrite IH; reflexivity].
Qed.

Lemma store_installments_linked rd n l :
  filter (linked_to (Some rd)) (store_installments rd n l)
  = store_installments rd n l.
Proof.
  apply filter_all. intros z Hz.
  destruct (store_installments_In _ _ _ _ Hz) as [_ [Hrd _]].
  unfold linked_to. rewrite Hrd. apply id_is_refl.
Qed.

(** Saving a new RecurringDonation keeps the store well-formed. *)
Lemma RecurringDonation_save_scheduling_wf scheduled r st :
  wf_store st -> RecurringDonation.id_ r = None ->
  wf_store (fst (RecurringDonation_save_scheduling scheduled r st)).
Proof.
  intros [H1 H2 H3 H4] Hid. unfold RecurringDonation_save_scheduling.
  rewrite Hid. cbv zeta.
  set (n := next_id st).
  set (ins := store_installments n (S n)
                (scheduled (RecurringDonation.set_id r (Some n)))).
  assert (Hins : forall z, In z ins ->
            (exists i, Opportunity.id_ z = Some i
                       /\ (S n <= i)%nat /\ (i < S n + List.length ins)%nat)
            /\ Opportunity.recurring_donation_id z = Some n).
  { intros z Hz. unfold ins in *.
    destruct (store_installments_In _ _ _ _ Hz) as [[i [Hi [Ha Hb]]] [Hrd _]].
    rewrite store_installments_length.
    split; [exists i; auto | exact Hrd]. }
  split; simpl.
  - apply Forall_app. split.
    + eapply Forall_impl; [|exact H1]. intros x Hs. simpl in Hs.
      apply (saved_below_mono (next_id st)); [exact Hs | fold n; lia].
    + apply Forall_forall. intros z Hz.
      destruct (Hins z Hz) as [[i [Hi [_ Hlt]]] _].
      exists i. split; [exact Hi | exact Hlt].
  - rewrite map_app. apply NoDup_app; [exact H2 | |].
    + apply store_installments_nodup.
    + intros x Hx Hx'.
      apply in_map_iff in Hx as [y [Hy Hin]].
      apply in_map_iff in Hx' as [z [Hz Hzin]].
      rewrite Forall_forall in H1. destruct (H1 y Hin) as [j [Hj Hlt]].
      destruct (Hins z Hzin) as [[i [Hi [Hge _]]] _].
      rewrite Hj in Hy. rewrite Hi in Hz. subst x. injection Hz as ->.
      fold n in Hlt. lia.
  - apply Forall_app. split.
    + eapply Forall_impl; [|exact H3]. intros x Hs.
      apply (link_below_mono (next_id st)); [exact Hs | fold n; lia].
    + apply Forall_forall. intros z Hz.
      destruct (Hins z Hz) as [_ Hrd].
      intros k Hk. rewrite Hrd in Hk. injection Hk as <-. lia.
  - apply Forall_app. split.
    + eapply Forall_impl; [|exact H4]. intros x Hs. simpl in Hs.
      apply (saved_below_mono (next_id st)); [exact Hs | fold n; lia].
    + constructor; [|constructor]. exists n. simpl.
      split; [reflexivity | lia].
Qed.

(** The CRM that creates no installment is [RecurringDonation_save]. *)
Lemma RecurringDonation_save_no_installment r st :
  RecurringDonation_save_scheduling no_installment r st
  = RecurringDonation_save r st.
Proof.
  unfold RecurringDonation_save_scheduling, RecurringDonation_save,
    no_installment.
  destruct (RecurringDonation.id_ r); [reflexivity|].
  simpl. rewrite app_nil_r, Nat.add_0_r. reflexivity.
Qed.

Lemma bind_ext {A B} (c c' : M A) (k k' : A -> M B) st :
  (forall s, c s = c' s) -> (forall a s, k a s = k' a s) ->
  bind c k st = bind c' k' st.
Proof.
  intros Hc Hk. unfold bind. rewrite Hc.
  destruct (c' st) as [s [a|e]]; [apply Hk | reflexivity].
Qed.

Lemma process_subscription_payment_no_installment t sub org st :
  process_subscription_payment_scheduling no_installment t sub org st
  = process_subscription_payment t sub org st.
Proof.
  unfold process_subscription_payment_scheduling,
    process_subscription_payment.
  apply bind_ext; [reflexivity|]. intros found s.
  destruct (is_none found
            && String.eqb (PaypalSubscription.status sub) "CANCELLED");
    [reflexivity|].
  destruct (is_none found
            && String.eqb (PaypalSubscription.status sub) "SUSPENDED");
    [reflexivity|].
  destruct (is_none found
            && is_none (PaypalSubscription.installment_period sub));
    [reflexivity|].
  apply bind_ext.
  - intros s1. destruct found as [rd|]; [reflexivity|].
    unfold create_recurring_donation_scheduling, create_recurring_donation.
    repeat (apply bind_ext; [reflexivity|]; intros ? ?).
    apply RecurringDonation_save_no_installment.
  - intros rd s1. apply bind_ext; [|reflexivity].
    intros s2.
    destruct (String.eqb (PaypalSubscription.status sub) "CANCELLED");
      [apply RecurringDonation_save_no_installment | reflexivity].
Qed.

Lemma keeps_contacts_refl st : keeps_contacts st st.
Proof. intros c H. exact H. Qed.

Lemma keeps_contacts_trans a b c :
  keeps_contacts a b -> keeps_contacts b c -> keeps_contacts a c.
Proof. intros H1 H2 x Hx. apply H2, H1, Hx. Qed.

Lemma Contact_upsert_keeps c : preserves keeps_contacts (Contact_upsert c).
Proof.
  intros st x Hx. unfold Contact_upsert.
  destruct (find _ (contacts st)); simpl; [exact Hx|].
  apply in_or_app. left. exact Hx.
Qed.

Lemma Opportunity_save_keeps o : preserves keeps_contacts (Opportunity_save o).
Proof.
  intros st x Hx. unfold Opportunity_save.
  destruct (Opportunity.id_ o); exact Hx.
Qed.

Lemma update_or_create_installment_keeps t sub org rd :
  preserves keeps_contacts (update_or_create_installment t sub org rd).
Proof.
  unfold update_or_create_installment, update_closest_opportunity,
    create_linked_opportunity, update_opportunity.
  repeat first
    [ preserves_step keeps_contacts_refl keeps_contacts_trans
    | apply Contact_upsert_keeps
    | apply Opportunity_save_keeps ].
Qed.

(** A payment for a RecurringDonation that has installments, none of
    which carries the transaction yet, is booked on exactly one of them:
    on the closest one within 10 days, or else on a new one. *)
Lemma installment_booked t sub org rd n st nm p :
  wf_store st ->
  RecurringDonation.id_ rd = Some n ->
  PaypalTransaction.name t = Some nm ->
  PaypalSubscription.installment_period sub = Some p ->
  filter (linked_to (Some n)) (opportunities st) <> [] ->
  (forall x, In x (opportunities st) -> linked_to (Some n) x = true ->
             carries (PaypalTransaction.id_ t) x = false) ->
  exists st' o,
    update_or_create_installment t sub org rd st = (st', Ok tt)
    /\ recurring_donations st' = recurring_donations st
    /\ filter (installment_carrying n (PaypalTransaction.id_ t))
              (opportunities st') = [o]
    /\ Opportunity.stage_name o = "Closed Won"
    /\ Opportunity.close_date o = PaypalTransaction.transaction_date t
    /\ Opportunity.amount o = PaypalTransaction.gross_amount t.
Proof.
  intros Hwf Hid Hname Hp Hne Hfree.
  assert (Hold : forall z, In z (opportunities st) ->
                   installment_carrying n (PaypalTransaction.id_ t) z = false).
  { intros z Hz. unfold installment_carrying.
    destruct (linked_to (Some n) z) eqn:Hl; [|reflexivity].
    rewrite (Hfree z Hz Hl). reflexivity. }
  destruct (find_closest_opportunity
              (filter (linked_to (Some n)) (opportunities st)) t org)
    as [y|e] eqn:Hfc.
  - (* the closest installment is within 10 days *)
    destruct (find_closest_opportunity_Ok_inv _ _ _ _ Hfc)
      as [l1 [l2 [Hsplit _]]].
    assert (Hy : In y (filter (linked_to (Some n)) (opportunities st))).
    { rewrite Hsplit. apply in_or_app. right. left. reflexivity. }
    apply filter_In in Hy as [Hin Hlinked].
    pose proof (wf_opportunity_ids st Hwf) as Hsaved.
    rewrite Forall_forall in Hsaved.
    destruct (Hsaved y Hin) as [i [Hyid _]].
    destruct (NoDup_ids_split _ _ (wf_opportunity_nodup st Hwf) Hin)
      as [a [b [Hab [Ha Hb]]]].
    unfold update_or_create_installment,
      try_except_DateRangeToleranceExceeded.
    rewrite update_closest_opportunity_run, Hid, Hfc.
    unfold update_opportunity, bind, Opportunity_save, ret.
    change (Opportunity.id_ (updated_opportunity y t))
      with (Opportunity.id_ y).
    rewrite Hyid.
    exists (mkStore (contacts st)
              (replace_where (fun o' => id_is i (Opportunity.id_ o'))
                             (updated_opportunity y t) (opportunities st))
              (recurring_donations st) (next_id st)),
           (updated_opportunity y t).
    split; [reflexivity|]. split; [reflexivity|]. simpl.
    split; [|repeat split].
    rewrite Hab, replace_where_split.
    + rewrite filter_app. simpl.
      rewrite filter_none, filter_none.
      * assert (E : installment_carrying n (PaypalTransaction.id_ t)
                      (updated_opportunity y t) = true).
        { unfold installment_carrying.
          change (linked_to (Some n) (updated_opportunity y t))
            with (linked_to (Some n) y).
          rewrite Hlinked. unfold carries. simpl. apply String.eqb_refl. }
        rewrite E. reflexivity.
      * intros z Hz. apply Hold. rewrite Hab. apply in_or_app.
        right. right. exact Hz.
      * intros z Hz. apply Hold. rewrite Hab. apply in_or_app.
        left. exact Hz.
    + intros z Hz. apply id_is_false_of_neq. rewrite <- Hyid. apply Ha, Hz.
    + intros z Hz. apply id_is_false_of_neq. rewrite <- Hyid. apply Hb, Hz.
    + rewrite Hyid. apply id_is_refl.
  - (* no installment within 10 days: a new one *)
    destruct (find_closest_opportunity_Raise_inv _ _ _ _ Hfc)
      as [[_ Hnil] | [_ [_ Hfar]]]; [contradiction|].
    rewrite update_or_create_installment_far;
      [| rewrite Hid; exact Hne | rewrite Hid; exact Hfar].
    destruct (create_linked_opportunity_ok t sub org rd st nm p Hname Hp)
      as [st1 [o [k [Hrun [Hrds [Hopps [_ [_ [Hlink [_ [_ [Hstage
            [Htid [Hdate Hamount]]]]]]]]]]]]]].
    exists st1, o. split; [exact Hrun|]. split; [exact Hrds|].
    split; [|auto].
    rewrite Hopps, filter_app, (filter_none _ _ Hold). simpl.
    assert (E : installment_carrying n (PaypalTransaction.id_ t) o = true).
    { unfold installment_carrying, linked_to, carries.
      rewrite Hlink, Hid, Htid, id_is_refl. simpl. apply String.eqb_refl. }
    rewrite E. reflexivity.
Qed.

(** The first payment of an ACTIVE subscription with an installment
    period, from a payer with a name: the RecurringDonation is created,
    the CRM stores the installments it creates with it, and the payment
    goes on to the matcher with exactly those installments. *)
Lemma first_payment_creates_series scheduled t sub org st nm p :
  wf_store st ->
  PaypalTransaction.name t = Some nm ->
  PaypalSubscription.status sub = "ACTIVE" ->
  PaypalSubscription.installment_period sub = Some p ->
  find (by_paypal_subscription_id (PaypalTransaction.reference_id t))
       (recurring_donations st) = None ->
  exists st1 email c r n,
    find_email t (Some sub) = Ok email
    /\ In c (contacts st1) /\ Contact.email c = email
    /\ recurring_donation_from_paypal_subscription
         sub (PaypalTransaction.transaction_date t) c org = Ok r
    /\ create_recurring_donation_scheduling scheduled t sub org st
       = (st1, Ok (RecurringDonation.set_id r (Some n)))
    /\ wf_store st1
    /\ recurring_donations st1
       = (recurring_donations st ++ [RecurringDonation.set_id r (Some n)])%list
    /\ opportunities st1
       = (opportunities st
          ++ store_installments n (S n)
               (scheduled (RecurringDonation.set_id r (Some n))))%list
    /\ filter (linked_to (Some n)) (opportunities st1)
       = store_installments n (S n)
           (scheduled (RecurringDonation.set_id r (Some n)))
    /\ process_subscription_payment_scheduling scheduled t sub org st
       = update_or_create_installment t sub org
           (RecurringDonation.set_id r (Some n)) st1.
Proof.
  intros Hwf Hname Hact Hp Hnone.
  destruct (find_email_with_subscription t sub) as [email He].
  destruct (contact_from_paypal_transaction_named t email org nm Hname)
    as [c Hc].
  destruct (Contact_upsert_result c st)
    as [st0 [c0 [Hu [Hin [Hemail [Ho [Hr [Hn _]]]]]]]].
  assert (Hwf0 : wf_store st0).
  { pose proof (Contact_upsert_wf c st Hwf) as [Hw _].
    rewrite Hu in Hw. exact Hw. }
  assert (Hrd : exists r,
             recurring_donation_from_paypal_subscription
               sub (PaypalTransaction.transaction_date t) c0 org = Ok r
             /\ RecurringDonation.id_ r = None).
  { unfold recurring_donation_from_paypal_subscription.
    rewrite Hact, Hp. simpl. eexists. split; reflexivity. }
  destruct Hrd as [r [Hrd Hrid]].
  set (n := next_id st0).
  set (rd := RecurringDonation.set_id r (Some n)).
  set (ins := store_installments n (S n) (scheduled rd)).
  set (st1 := mkStore (contacts st0) (opportunities st0 ++ ins)
                      (recurring_donations st0 ++ [rd])
                      (S n + List.length ins)).
  assert (Hsave : RecurringDonation_save_scheduling scheduled r st0
                  = (st1, Ok rd)).
  { unfold RecurringDonation_save_scheduling. rewrite Hrid. reflexivity. }
  assert (Hcreate : create_recurring_donation_scheduling scheduled t sub org st
                    = (st1, Ok rd)).
  { unfold create_recurring_donation_scheduling.
    rewrite bind_lift, He, bind_lift, Hc, (bind_Ok _ _ _ _ _ Hu), bind_lift,
      Hrd.
    exact Hsave. }
  assert (Hlinked : filter (linked_to (Some n)) (opportunities st1) = ins).
  { unfold st1. simpl. rewrite filter_app.
    rewrite (no_installments_of_fresh_id (next_id st0) n);
      [| exact (wf_opportunity_links st0 Hwf0) | unfold n; lia].
    apply store_installments_linked. }
  exists st1, email, c0, r, n.
  split; [exact He|]. split; [exact Hin|].
  split; [rewrite Hemail; exact (contact_from_paypal_transaction_email
                                   _ _ _ _ Hc)|].
  split; [exact Hrd|]. split; [exact Hcreate|].
  split.
  { pose proof (RecurringDonation_save_scheduling_wf scheduled r st0 Hwf0
                  Hrid) as Hw.
    rewrite Hsave in Hw. exact Hw. }
  split; [unfold st1; simpl; rewrite Hr; reflexivity|].
  split; [unfold st1; simpl; rewrite Ho; reflexivity|].
  split; [exact Hlinked|].
  unfold process_subscription_payment_scheduling.
  unfold bind at 1. unfold RecurringDonation_get at 1. rewrite Hnone.
  rewrite Hact, Hp. simpl.
  rewrite (bind_Ok _ _ _ _ _ Hcreate). reflexivity.
Qed.

(** C2 (as the code has it): the first payment seen for a subscription
    that is ACTIVE with a 30-day billing gap, from a payer with a name,
    on a well-formed store without a RecurringDonation for it, and on a
    CRM that creates at least one installment with the new
    RecurringDonation: [process_subscription_payment] returns without
    error; a Contact with the payer's email is stored; one
    RecurringDonation is added, 'Open', monthly, for that Contact and
    subscription; and exactly one Opportunity linked to it carries the
    transaction, 'Closed Won', with the transaction's date and amount. *)
Theorem first_payment_books_installment
    scheduled org t data sub st nm next :
  wf_store st ->
  PaypalTransaction.name t = Some nm ->
  from_dict data = Ok sub ->
  raw_status data = "ACTIVE" ->
  raw_next_billing_time data = Some next ->
  next - raw_last_payment_time data = 30 ->
  find (by_paypal_subscription_id (PaypalTransaction.reference_id t))
       (recurring_donations st) = None ->
  (forall rd,
      RecurringDonation.paypal_subscription_id rd = PaypalSubscription.id_ sub ->
      scheduled rd <> []) ->
  exists st' email c rd n o,
    process_subscription_payment_scheduling scheduled t sub org st
    = (st', Ok tt)
    /\ find_email t (Some sub) = Ok email
    /\ In c (contacts st') /\ Contact.email c = email
    /\ recurring_donations st' = (recurring_donations st ++ [rd])%list
    /\ RecurringDonation.id_ rd = Some n
    /\ RecurringDonation.contact_id rd = Contact.id_ c
    /\ RecurringDonation.open_ended_status rd = "Open"
    /\ RecurringDonation.installment_period rd = "monthly"
    /\ RecurringDonation.paypal_subscription_id rd = PaypalSubscription.id_ sub
    /\ filter (installment_carrying n (PaypalTransaction.id_ t))
              (opportunities st') = [o]
    /\ Opportunity.stage_name o = "Closed Won"
    /\ Opportunity.close_date o = PaypalTransaction.transaction_date t
    /\ Opportunity.amount o = PaypalTransaction.gross_amount t.
Proof.
  intros Hwf Hname Hfd Hstatus Hnext Hgap Hnone Hsched.
  assert (Hsub : PaypalSubscription.status sub = "ACTIVE"
                 /\ PaypalSubscription.installment_period sub = Some monthly).
  { unfold from_dict in Hfd. rewrite Hstatus, Hnext, Hgap in Hfd.
    simpl in Hfd. injection Hfd as <-. simpl. auto. }
  destruct Hsub as [Hact Hp].
  destruct (first_payment_creates_series scheduled t sub org st nm monthly
              Hwf Hname Hact Hp Hnone)
    as [st1 [email [c [r [n [He [Hin [Hemail [Hrd [_ [Hwf1 [Hrds [Hopps
          [Hlinked Hrun]]]]]]]]]]]]]].
  set (rd := RecurringDonation.set_id r (Some n)) in *.
  assert (Hr : RecurringDonation.contact_id rd = Contact.id_ c
               /\ RecurringDonation.open_ended_status rd = "Open"
               /\ RecurringDonation.installment_period rd = "monthly"
               /\ RecurringDonation.paypal_subscription_id rd
                  = PaypalSubscription.id_ sub).
  { unfold recurring_donation_from_paypal_subscription in Hrd.
    rewrite Hact, Hp in Hrd. simpl in Hrd. injection Hrd as <-.
    simpl. auto. }
  destruct Hr as [Hcid [Hopen [Hper Hsid]]].
  destruct (installment_booked t sub org rd n st1 nm monthly Hwf1 eq_refl
              Hname Hp)
    as [st' [o [Hbook [Hrds' [Hone Hfields]]]]].
  { rewrite Hlinked. intros E. apply store_installments_nil in E.
    exact (Hsched rd Hsid E). }
  { intros x Hx Hl.
    assert (Hx' : In x (filter (linked_to (Some n)) (opportunities st1)))
      by (apply filter_In; auto).
    rewrite Hlinked in Hx'.
    destruct (store_installments_In _ _ _ _ Hx') as [_ [_ Htid]].
    unfold carries. rewrite Htid. reflexivity. }
  exists st', email, c, rd, n, o.
  split; [rewrite Hrun; exact Hbook|]. split; [exact He|].
  split.
  { pose proof (update_or_create_installment_keeps t sub org rd st1 c Hin)
      as Hk. rewrite Hbook in Hk. exact Hk. }
  split; [exact Hemail|]. split; [rewrite Hrds'; exact Hrds|].
  split; [reflexivity|]. auto 10.
Qed.

Lemma first_payment_books_installment_witness :
  let t := payment "TX" "T0002" (Some "SUB") (Some "I-SUB1") (Some "PAYER1")
                   10 1000 in
  let sub := PaypalSubscription.mk "I-SUB1" "ACTIVE" "ada@example.org"
               1000 "PAYER1" 10 "2020-01-01T00:00:00Z" (Some monthly) in
  exists st' email c rd n o,
    process_subscription_payment_scheduling first_installment t sub org0
      empty_store
    = (st', Ok tt)
    /\ find_email t (Some sub) = Ok email
    /\ In c (contacts st') /\ Contact.email c = email
    /\ recurring_donations st'
       = (recurring_donations empty_store ++ [rd])%list
    /\ RecurringDonation.id_ rd = Some n
    /\ RecurringDonation.contact_id rd = Contact.id_ c
    /\ RecurringDonation.open_ended_status rd = "Open"
    /\ RecurringDonation.installment_period rd = "monthly"
    /\ RecurringDonation.paypal_subscription_id rd = PaypalSubscription.id_ sub
    /\ filter (installment_carrying n (PaypalTransaction.id_ t))
              (opportunities st') = [o]
    /\ Opportunity.stage_name o = "Closed Won"
    /\ Opportunity.close_date o = PaypalTransaction.transaction_date t
    /\ Opportunity.amount o = PaypalTransaction.gross_amount t.
Proof.
  intros t sub.
  apply (first_payment_books_installment first_installment org0 t
           (vendor "ACTIVE" 10 (Some 40) None) sub empty_store donor 40).
  - exact empty_store_wf.
  - reflexivity.
  - reflexivity.
  - reflexivity.
  - reflexivity.
  - reflexivity.
  - reflexivity.
  - intros rd _. discriminate.
Defined.

(** C2 (as stated) fails: the first payment of an ACTIVE subscription
    with a 30-day billing gap whose payload gave no payer name raises
    [AttributeError] before anything is written, on either CRM and from
    the entry point; and on a CRM that creates no installment with the
    new RecurringDonation the payment of a named payer raises
    [ValueError] once the RecurringDonation is saved, and no
    Opportunity is created. *)
Lemma first_payment_not_booked :
  let sub := PaypalSubscription.mk "I-SUB1" "ACTIVE" "ada@example.org"
               1000 "PAYER1" 10 "2020-01-01T00:00:00Z" (Some monthly) in
  let unnamed :=
    PaypalTransaction.mk "TX" "T0002" (Some "SUB") (Some "I-SUB1")
      (Some "PAYER1") 10 1000 30 "S" None (Some "ada@example.org") None
      None None in
  let named := payment "TX" "T0002" (Some "SUB") (Some "I-SUB1")
                       (Some "PAYER1") 10 1000 in
  from_dict (vendor "ACTIVE" 10 (Some 40) (Some "I-SUB1")) = Ok sub
  /\ process_subscription_payment unnamed sub org0 empty_store
     = (empty_store, Raise AttributeError)
  /\ process_subscription_payment_scheduling first_installment unnamed sub
       org0 empty_store
     = (empty_store, Raise AttributeError)
  /\ handle_paypal_charge_external_initiation org0 unnamed
       (vendor "ACTIVE" 10 (Some 40)) empty_store
     = (empty_store, Raise AttributeError)
  /\ snd (process_subscription_payment_scheduling no_installment named sub
            org0 empty_store)
     = Raise ValueError
  /\ opportunities
       (fst (process_subscription_payment_scheduling no_installment named
               sub org0 empty_store))
     = [].
Proof. vm_compute. repeat split; reflexivity. Qed.

(** ** The matcher on an empty list *)

(** A settled subscription payment whose subscription the vendor
    reports with a supported status is handled by
    [process_subscription_payment]. *)
Lemma handle_with_subscription org t ppc st sub :
  PaypalTransaction.event_code t = "T0002" ->
  0 <= PaypalTransaction.gross_amount t ->
  PaypalTransaction.status t = "S" ->
  PaypalTransaction.reference_id_type t = Some "SUB" ->
  from_dict (ppc (PaypalTransaction.reference_id t)) = Ok sub ->
  code_in (PaypalSubscription.status sub)
          ["ACTIVE"; "CANCELLED"; "SUSPENDED"] = true ->
  handle_paypal_charge_external_initiation org t ppc st
  = process_subscription_payment t sub org st.
Proof.
  intros Hcode Hgross Hstatus Href Hsub Hknown.
  unfold handle_paypal_charge_external_initiation.
  rewrite Hcode, Hstatus. simpl.
  apply Z.ltb_ge in Hgross. rewrite Hgross.
  unfold handle_subscription_payment.
  rewrite Hcode, Href. simpl.
  unfold bind at 1. unfold bind at 1. unfold lift at 1. rewrite Hsub.
  unfold code_in in Hknown. simpl in Hknown. rewrite Hknown. simpl.
  destruct (process_subscription_payment t sub org st) as [st1 [[]|e]];
    reflexivity.
Qed.

(** C10 (as the code has it): [find_closest_opportunity] on an empty
    candidate list raises [ValueError], not
    [DateRangeToleranceExceeded].  The list it is given holds the
    Opportunities stored for the RecurringDonation.  From the entry
    point, a settled subscription payment whose RecurringDonation is
    stored without any Opportunity raises that [ValueError].  Right
    after a brand-new RecurringDonation is created, the list holds the
    installments the CRM created with it: the [ValueError] is raised
    when it created none, and the payment is booked when it created
    some. *)
Theorem find_closest_opportunity_empty_list
    scheduled org t ppc sub st nm p :
  wf_store st ->
  PaypalTransaction.event_code t = "T0002" ->
  0 <= PaypalTransaction.gross_amount t ->
  PaypalTransaction.status t = "S" ->
  PaypalTransaction.reference_id_type t = Some "SUB" ->
  from_dict (ppc (PaypalTransaction.reference_id t)) = Ok sub ->
  code_in (PaypalSubscription.status sub)
          ["ACTIVE"; "CANCELLED"; "SUSPENDED"] = true ->
  find_closest_opportunity [] t org = Raise ValueError
  /\ (forall rd,
        find (by_paypal_subscription_id (PaypalTransaction.reference_id t))
             (recurring_donations st) = Some rd ->
        filter (linked_to (RecurringDonation.id_ rd)) (opportunities st) = [] ->
        snd (handle_paypal_charge_external_initiation org t ppc st)
        = Raise ValueError)
  /\ (find (by_paypal_subscription_id (PaypalTransaction.reference_id t))
           (recurring_donations st) = None ->
      PaypalTransaction.name t = Some nm ->
      PaypalSubscription.status sub = "ACTIVE" ->
      PaypalSubscription.installment_period sub = Some p ->
      exists st1 rd n,
        create_recurring_donation_scheduling scheduled t sub org st
        = (st1, Ok rd)
        /\ RecurringDonation.id_ rd = Some n
        /\ RecurringDonation_opportunities rd st1
           = (st1, Ok (store_installments n (S n) (scheduled rd)))
        /\ (scheduled rd = [] ->
            process_subscription_payment_scheduling scheduled t sub org st
            = (st1, Raise ValueError))
        /\ (scheduled rd <> [] ->
            snd (process_subscription_payment_scheduling scheduled t sub org
                   st)
            = Ok tt)).
Proof.
  intros Hwf Hcode Hgross Hstatus Href Hsub Hknown.
  split; [reflexivity|]. split.
  - intros rd Hl Hempty.
    rewrite (handle_with_subscription org t ppc st sub Hcode Hgross Hstatus
               Href Hsub Hknown).
    rewrite (process_subscription_payment_found _ _ _ _ _ Hl).
    assert (Hid : exists i, RecurringDonation.id_ rd = Some i).
    { pose proof (wf_recurring_donation_ids st Hwf) as Hids.
      rewrite Forall_forall in Hids.
      apply find_some in Hl as [Hin _].
      destruct (Hids rd Hin) as [i [Hi _]]. eauto. }
    destruct Hid as [i Hid].
    destruct (close_if_cancelled_spec sub _ rd i st Hid Hl)
      as [stm [rdm [Hclose [Ho [_ [Hidm _]]]]]].
    rewrite (bind_Ok _ _ _ _ _ Hclose).
    unfold update_or_create_installment,
      try_except_DateRangeToleranceExceeded.
    rewrite (update_closest_opportunity_raise t org rdm stm ValueError);
      [reflexivity|].
    rewrite Hidm, Ho, <- Hid, Hempty. reflexivity.
  - intros Hnone Hname Hact Hp.
    destruct (first_payment_creates_series scheduled t sub org st nm p
                Hwf Hname Hact Hp Hnone)
      as [st1 [email [c [r [n [_ [_ [_ [_ [Hcreate [Hwf1 [_ [Hopps
            [Hlinked Hrun]]]]]]]]]]]]]].
    exists st1, (RecurringDonation.set_id r (Some n)), n.
    split; [exact Hcreate|]. split; [reflexivity|].
    split.
    { unfold RecurringDonation_opportunities.
      change (RecurringDonation.id_ (RecurringDonation.set_id r (Some n)))
        with (Some n).
      rewrite Hlinked. reflexivity. }
    split.
    + intros Hnil. rewrite Hrun.
      unfold update_or_create_installment,
        try_except_DateRangeToleranceExceeded.
      rewrite (update_closest_opportunity_raise t org _ st1 ValueError);
        [reflexivity|].
      change (RecurringDonation.id_ (RecurringDonation.set_id r (Some n)))
        with (Some n).
      rewrite Hlinked, Hnil. reflexivity.
    + intros Hsome. rewrite Hrun.
      destruct (installment_booked t sub org
                  (RecurringDonation.set_id r (Some n)) n st1 nm p Hwf1
                  eq_refl Hname Hp)
        as [st' [o [Hbook _]]].
      { rewrite Hlinked. intros E. apply store_installments_nil in E.
        exact (Hsome E). }
      { intros x Hx Hl.
        assert (Hx' : In x (filter (linked_to (Some n)) (opportunities st1)))
          by (apply filter_In; auto).
        rewrite Hlinked in Hx'.
        destruct (store_installments_In _ _ _ _ Hx') as [_ [_ Htid]].
        unfold carries. rewrite Htid. reflexivity. }
      rewrite Hbook. reflexivity.
Qed.

Lemma find_closest_opportunity_empty_list_witness :
  let t := payment "TX2" "T0002" (Some "SUB") (Some "I-SUB1")
                   (Some "PAYER1") 40 1000 in
  let st := mkStore [] [] [series 0 "Open"] 1 in
  find_closest_opportunity [] t org0 = Raise ValueError
  /\ snd (handle_paypal_charge_external_initiation org0 t
            (vendor "ACTIVE" 40 (Some 70)) st)
     = Raise ValueError.
Proof.
  intros t st.
  destruct (find_closest_opportunity_empty_list no_installment org0 t
              (vendor "ACTIVE" 40 (Some 70))
              (PaypalSubscription.mk "I-SUB1" "ACTIVE" "ada@example.org"
                 1000 "PAYER1" 40 "2020-01-01T00:00:00Z" (Some monthly))
              st donor monthly)
    as [H1 [H2 _]].
  - apply wf_store_check_sound. reflexivity.
  - reflexivity.
  - simpl. lia.
  - reflexivity.
  - reflexivity.
  - reflexivity.
  - reflexivity.
  - split; [exact H1|].
    apply (H2 (series 0 "Open")); reflexivity.
Defined.

(** C10 (as stated) fails: on a CRM that creates an installment with a
    new RecurringDonation, the first payment of a subscription creates
    the RecurringDonation, the matcher is given a list of one
    Opportunity, and the payment is booked without any error. *)
Lemma first_payment_finds_installment :
  let t := payment "TX" "T0002" (Some "SUB") (Some "I-SUB1") (Some "PAYER1")
                   10 1000 in
  let sub := PaypalSubscription.mk "I-SUB1" "ACTIVE" "ada@example.org"
               1000 "PAYER1" 10 "2020-01-01T00:00:00Z" (Some monthly) in
  exists st1 rd o,
    create_recurring_donation_scheduling first_installment t sub org0
      empty_store
    = (st1, Ok rd)
    /\ snd (RecurringDonation_opportunities rd st1) = Ok [o]
    /\ snd (process_subscription_payment_scheduling first_installment t sub
              org0 empty_store)
       = Ok tt.
Proof. do 3 eexists. vm_compute. repeat split; reflexivity. Qed.
